(** * TraceAce: a shallow embedding of the ingest/parse/filter pipeline

    Go strings are byte strings; they are modelled by Rocq's [string]
    (lists of 8-bit [ascii]).  The Unicode-aware library functions of
    package [strings] ([ToLower], [ToUpper], [EqualFold], [TrimSpace]) are
    modelled by their behaviour on ASCII text.  Instants ([time.Time]) are
    modelled as [Z] nanoseconds counted from Go's zero instant, so that
    [IsZero] is [t = 0].  Go [int] counters and indices are [nat] where the
    code never makes them negative. *)

From Stdlib Require Import String Ascii List ZArith Bool Arith Lia.
From Stdlib Require Import Sorting.Sorted.
Import ListNotations.

Open Scope bool_scope.

(* ------------------------------------------------------------------ *)
(** ** Package [strings] on ASCII text *)

Definition char_eqb (a b : ascii) : bool := Ascii.eqb a b.

(** [strings.HasPrefix s prefix] *)
Fixpoint HasPrefix (s prefix : string) : bool :=
  match prefix, s with
  | EmptyString, _ => true
  | String p ps, String c cs => char_eqb c p && HasPrefix cs ps
  | String _ _, EmptyString => false
  end.

(** [strings.HasSuffix s suffix] *)
Definition HasSuffix (s suffix : string) : bool :=
  (String.length suffix <=? String.length s) &&
  String.eqb (substring (String.length s - String.length suffix)
                        (String.length suffix) s) suffix.

(** [strings.Index s sub]: the first byte index of [sub] in [s]. *)
Fixpoint Index (s sub : string) : option nat :=
  if HasPrefix s sub then Some 0
  else match s with
       | EmptyString => None
       | String _ s' => option_map S (Index s' sub)
       end.

(** [strings.Contains s sub] *)
Definition Contains (s sub : string) : bool :=
  match Index s sub with Some _ => true | None => false end.

(** [strings.ContainsRune s c] *)
Fixpoint ContainsChar (s : string) (c : ascii) : bool :=
  match s with
  | EmptyString => false
  | String d s' => char_eqb d c || ContainsChar s' c
  end.

(** [strings.ContainsAny s chars] *)
Fixpoint ContainsAny (s chars : string) : bool :=
  match chars with
  | EmptyString => false
  | String c cs => ContainsChar s c || ContainsAny s cs
  end.

(** [strings.Count s sep] for a one-byte separator. *)
Fixpoint CountChar (s : string) (c : ascii) : nat :=
  match s with
  | EmptyString => 0
  | String d s' => (if char_eqb d c then 1 else 0) + CountChar s' c
  end.

Definition ascii_lower (c : ascii) : ascii :=
  let n := nat_of_ascii c in
  if (65 <=? n) && (n <=? 90) then ascii_of_nat (n + 32) else c.

Definition ascii_upper (c : ascii) : ascii :=
  let n := nat_of_ascii c in
  if (97 <=? n) && (n <=? 122) then ascii_of_nat (n - 32) else c.

Fixpoint string_map (f : ascii -> ascii) (s : string) : string :=
  match s with
  | EmptyString => EmptyString
  | String c s' => String (f c) (string_map f s')
  end.

(** [strings.ToLower], [strings.ToUpper] *)
Definition ToLower (s : string) : string := string_map ascii_lower s.
Definition ToUpper (s : string) : string := string_map ascii_upper s.

(** [strings.EqualFold] (simple case folding) *)
Definition EqualFold (s t : string) : bool := String.eqb (ToLower s) (ToLower t).

(** The ASCII white space of [unicode.IsSpace], used by [strings.TrimSpace]. *)
Definition is_space (c : ascii) : bool :=
  let n := nat_of_ascii c in
  (n =? 32) || ((9 <=? n) && (n <=? 13)).

Fixpoint trim_left (s : string) : string :=
  match s with
  | String c s' => if is_space c then trim_left s' else s
  | EmptyString => EmptyString
  end.

Fixpoint string_rev (s : string) : string :=
  match s with
  | EmptyString => EmptyString
  | String c s' => string_rev s' ++ String c EmptyString
  end.

(** [strings.TrimSpace] *)
Definition TrimSpace (s : string) : string :=
  string_rev (trim_left (string_rev (trim_left s))).

(** Go's byte slice [s[i:j]] within bounds; and [s[i:]]. *)
Definition slice (s : string) (i j : nat) : string := substring i (j - i) s.
Definition slice_from (s : string) (i : nat) : string :=
  substring i (String.length s - i) s.

(** Byte-wise lexicographic order of Go's string comparison operators. *)
Fixpoint str_ltb (s t : string) : bool :=
  match s, t with
  | _, EmptyString => false
  | EmptyString, String _ _ => true
  | String a s', String b t' =>
      let na := nat_of_ascii a in
      let nb := nat_of_ascii b in
      (na <? nb) || ((na =? nb) && str_ltb s' t')
  end.

Definition str_leb (s t : string) : bool := str_ltb s t || String.eqb s t.

(** [strings.Split s sep] for a one-byte separator. *)
Fixpoint split_char_aux (s : string) (sep : ascii) (cur : string) : list string :=
  match s with
  | EmptyString => [cur]
  | String c s' =>
      if char_eqb c sep then cur :: split_char_aux s' sep EmptyString
      else split_char_aux s' sep (cur ++ String c EmptyString)
  end.

Definition SplitChar (s : string) (sep : ascii) : list string :=
  split_char_aux s sep EmptyString.

(** Decimal rendering of an integer ([strconv.Itoa], [%v] of an integer). *)
Definition digit_char (n : nat) : ascii := ascii_of_nat (48 + n).

Fixpoint z_digits (fuel : nat) (n : Z) (acc : string) : string :=
  match fuel with
  | O => acc
  | S f =>
      let acc' := String (digit_char (Z.to_nat (n mod 10))) acc in
      if (n <? 10)%Z then acc' else z_digits f (n / 10)%Z acc'
  end.

Definition Itoa (z : Z) : string :=
  let digits := z_digits 20 (Z.abs z) EmptyString in
  if (z <? 0)%Z then String "-" digits else digits.

(* ------------------------------------------------------------------ *)
(** ** [CircularBuffer] (ui package) *)

(** The slice [data] of the Go struct, of length [capacity]; [None] is a
    nil slot. *)
Record CircularBuffer (A : Type) := mkCircularBuffer {
  data : list (option A);
  head : nat;
  tail : nat;
  size : nat;
  capacity : nat
}.
Arguments mkCircularBuffer {A}.
Arguments data {A}.
Arguments head {A}.
Arguments tail {A}.
Arguments size {A}.
Arguments capacity {A}.

(** Slice element assignment [l[n] = x]; [n] is always in range here. *)
Fixpoint set_nth {A : Type} (l : list A) (n : nat) (x : A) : list A :=
  match l, n with
  | [], _ => []
  | _ :: l', O => x :: l'
  | y :: l', S n' => y :: set_nth l' n' x
  end.

Section CircularBufferOps.
Context {A : Type}.

(** [NewCircularBuffer(capacity)] *)
Definition NewCircularBuffer (c : nat) : CircularBuffer A :=
  mkCircularBuffer (repeat None c) 0 0 0 c.

(** [CircularBuffer.Add]: write at [tail], advance [tail]; when full
    advance [head] as well, evicting the oldest line.  (Go panics on a
    capacity of 0; every buffer of the program has capacity
    [MaxBufferLines] and the results below assume it is positive.) *)
Definition Add (cb : CircularBuffer A) (line : A) : CircularBuffer A :=
  let data' := set_nth cb.(data) cb.(tail) (Some line) in
  let tail' := (cb.(tail) + 1) mod cb.(capacity) in
  if cb.(size) <? cb.(capacity) then
    mkCircularBuffer data' cb.(head) tail' (cb.(size) + 1) cb.(capacity)
  else
    mkCircularBuffer data' ((cb.(head) + 1) mod cb.(capacity)) tail'
                     cb.(size) cb.(capacity).

(** [CircularBuffer.Get]: [None] stands for a nil result. *)
Definition Get (cb : CircularBuffer A) (index : nat) : option A :=
  if index <? cb.(size) then
    nth ((cb.(head) + index) mod cb.(capacity)) cb.(data) None
  else None.

(** [CircularBuffer.Size] *)
Definition Size (cb : CircularBuffer A) : nat := cb.(size).

(** [CircularBuffer.Clear] *)
Definition Clear (cb : CircularBuffer A) : CircularBuffer A :=
  mkCircularBuffer (repeat None (length cb.(data))) 0 0 0 cb.(capacity).

(** The retained lines, oldest first, as [ForEach] visits them. *)
Definition contents (cb : CircularBuffer A) : list (option A) :=
  map (fun i => nth ((cb.(head) + i) mod cb.(capacity)) cb.(data) None)
      (seq 0 cb.(size)).

(** Appending a sequence of lines one after the other. *)
Definition AddAll (cb : CircularBuffer A) (xs : list A) : CircularBuffer A :=
  fold_left Add xs cb.

End CircularBufferOps.

(* ------------------------------------------------------------------ *)
(** ** Rotation check of a followed file (tailer package) *)

(** The part of [os.FileInfo] the tailer reads: [Size()] and [ModTime()]. *)
Record FileInfo := mkFileInfo { info_Size : Z; info_ModTime : Z }.

(** The fields of [FileWatcher] (the handles [file] and [tail] and the
    mutex are left out). *)
Record FileWatcher := mkFileWatcher {
  fw_path : string;
  lastOffset : Z;
  lastSize : Z;
  lastModTime : Z;
  lineCounter : nat;
  isRotating : bool
}.

(** [time.Minute] in nanoseconds. *)
Definition Minute : Z := 60 * 1000000000.

(** [time.Time.After]: [After t u] is [t > u]. *)
Definition After (t u : Z) : bool := (u <? t)%Z.
(** [time.Time.Before] *)
Definition Before (t u : Z) : bool := (t <? u)%Z.

(** [FileWatcher.checkRotation]; [stat] is the outcome of [os.Stat(path)],
    [None] when it returns an error.  The result is the pair
    [(rotated, err)]. *)
Definition checkRotation (fw : FileWatcher) (stat : option FileInfo)
  : bool * option string :=
  match stat with
  | None => (true, None)
  | Some info =>
      let currentSize := info_Size info in
      if (currentSize <? lastSize fw)%Z
         || After (info_ModTime info) (lastModTime fw + Minute)
      then (true, None)
      else (false, None)
  end.

(** The rotation condition as the specification words it: stat fails, the
    size shrank, or the modification time moved backward by more than one
    minute. *)
Definition rotated_as_specified (fw : FileWatcher) (stat : option FileInfo) : bool :=
  match stat with
  | None => true
  | Some info =>
      (info_Size info <? lastSize fw)%Z
      || (info_ModTime info <? lastModTime fw - Minute)%Z
  end.

(* ------------------------------------------------------------------ *)
(** ** Go library interfaces the program relies on

    The regular-expression engine, the JSON and YAML decoders, [time]
    parsing/formatting and [strconv.ParseFloat] are library code outside
    this repository.  They are interfaces (type classes) here; every
    result below holds for every implementation, except the concrete
    evaluations, which use the instances of [Module Instances]. *)

(** Package [regexp]: [Compile], [MatchString] and the whole match of
    [FindStringSubmatch]. *)
Class Regexp := {
  regex : Type;
  regexp_Compile : string -> option regex;
  MatchString : regex -> string -> bool;
  FindString : regex -> string -> option string
}.

#[local] Set Warnings "-register-all".

(** A parsed value, as the decoders store it in an [interface{}]. *)
Inductive value :=
| VString (s : string)
| VFloat64 (z : Z)          (** a [float64] (every [encoding/json] number); integral here *)
| VInt (z : Z)              (** an [int] (integers of [gopkg.in/yaml.v3]) *)
| VBool (b : bool)
| VTime (t : Z)             (** a [time.Time] *)
| VNull                     (** [nil] *)
| VMap (kvs : list (string * value))   (** a [map[string]interface{}] *)
| VArray (vs : list value).

(** [json.Unmarshal] and [yaml.Unmarshal] into a [map[string]interface{}];
    [None] is a decoding error.  Keys are distinct. *)
Class Decoders := {
  json_Unmarshal : string -> option (list (string * value));
  yaml_Unmarshal : string -> option (list (string * value))
}.

(** Package [time]: [Parse(layout, s)], [Format(layout)] and, for a clock
    time parsed with layout "15:04:05", the instant of that clock time on
    the current day ([time.Date(now.Year(), ..., now.Location())]). *)
Class TimeLib := {
  time_Parse : string -> string -> option Z;
  time_Format : string -> Z -> string;
  time_Today : Z -> Z -> Z
}.

(** [strconv.ParseFloat(s, 64)] and the order of [float64]. *)
Class Strconv := {
  float64 : Type;
  ParseFloat : string -> option float64;
  float_lt : float64 -> float64 -> bool;
  float_le : float64 -> float64 -> bool
}.

(** The double-quote byte, and string literals containing it. *)
Definition dq : string := String (ascii_of_nat 34) EmptyString.

(** [time.Unix(sec, 0)]: the Unix epoch is 62135596800 s after Go's zero
    instant. *)
Definition Unix (sec : Z) : Z := ((sec + 62135596800) * 1000000000)%Z.

Definition RFC3339 : string := "2006-01-02T15:04:05Z07:00".
Definition RFC3339Nano : string := "2006-01-02T15:04:05.999999999Z07:00".

(* ------------------------------------------------------------------ *)
(** ** [models.LogLine] *)

(** The [Tokens] slice is not read by the parser or the filter and is left
    out. [Parsed = None] is a nil map. *)
Record LogLine := mkLogLine {
  ID : string;
  Source : string;
  Raw : string;
  Timestamp : Z;
  Parsed : option (list (string * value));
  Level : string;
  Offset : Z;
  LineNum : nat
}.

Definition set_Timestamp (l : LogLine) (t : Z) : LogLine :=
  mkLogLine l.(ID) l.(Source) l.(Raw) t l.(Parsed) l.(Level) l.(Offset) l.(LineNum).
Definition set_Parsed (l : LogLine) (p : list (string * value)) : LogLine :=
  mkLogLine l.(ID) l.(Source) l.(Raw) l.(Timestamp) (Some p) l.(Level) l.(Offset) l.(LineNum).
Definition set_Level (l : LogLine) (lv : string) : LogLine :=
  mkLogLine l.(ID) l.(Source) l.(Raw) l.(Timestamp) l.(Parsed) lv l.(Offset) l.(LineNum).

(** [time.Time.IsZero] *)
Definition IsZero (t : Z) : bool := (t =? 0)%Z.

(** The line the tailer emits for the [lineNum]-th line [text] of [path]
    ([Tailer.monitorFile]): its timestamp is the wall clock [now]. *)
Definition tailer_line (path : string) (lineNum : nat) (text : string)
           (lastOffset now : Z) : LogLine :=
  mkLogLine (path ++ ":" ++ Itoa (Z.of_nat lineNum)) path text now None ""
            lastOffset lineNum.

(** Lookup in a Go map with string keys. *)
Fixpoint lookup {V : Type} (k : string) (m : list (string * V)) : option V :=
  match m with
  | [] => None
  | (k', v) :: m' => if String.eqb k k' then Some v else lookup k m'
  end.

(* ------------------------------------------------------------------ *)
(** ** [parser.LogParser] *)

Section Parser.
Context `{Regexp} `{Decoders} `{TimeLib}.
Local Open Scope string_scope.

Definition timestampPatternSources : list string := [
  "\d{4}-\d{2}-\d{2}[T ]\d{2}:\d{2}:\d{2}(?:\.\d+)?(?:Z|[+-]\d{2}:?\d{2})?";
  "\d{4}/\d{2}/\d{2} \d{2}:\d{2}:\d{2}";
  "\d{2}/\w{3}/\d{4}:\d{2}:\d{2}:\d{2} [+-]\d{4}";
  "\w{3} \d{1,2} \d{2}:\d{2}:\d{2}";
  "\w{3} \s?\d{1,2} \d{2}:\d{2}:\d{2} \d{4}"].

Definition levelPatternSources : list string := [
  "\b(TRACE|DEBUG|INFO|WARN|WARNING|ERROR|FATAL|PANIC)\b";
  "\[(TRACE|DEBUG|INFO|WARN|WARNING|ERROR|FATAL|PANIC)\]";
  dq ++ "(level|severity)" ++ dq ++ "\s*:\s*" ++ dq ++
     "(TRACE|DEBUG|INFO|WARN|WARNING|ERROR|FATAL|PANIC)" ++ dq].

(** [compileTimestampPatterns], [compileLevelPatterns]: patterns that fail
    to compile are dropped. *)
Definition timestampPatterns : list regex :=
  flat_map (fun p => match regexp_Compile p with Some r => [r] | None => [] end)
           timestampPatternSources.
Definition levelPatterns : list regex :=
  flat_map (fun p => match regexp_Compile ("(?i)" ++ p) with
                     | Some r => [r] | None => [] end)
           levelPatternSources.

(** [createLevelMapping] *)
Definition levelMapping : list (string * string) := [
  ("TRACE", "TRACE"); ("DEBUG", "DEBUG"); ("INFO", "INFO"); ("WARN", "WARN");
  ("WARNING", "WARN"); ("ERROR", "ERROR"); ("FATAL", "FATAL"); ("PANIC", "FATAL")].

Definition timestampLayouts : list string := [
  RFC3339; RFC3339Nano; "2006-01-02T15:04:05Z07:00";
  "2006-01-02T15:04:05.000Z07:00"; "2006-01-02 15:04:05";
  "2006-01-02 15:04:05.000"; "Jan 02 15:04:05"; "Jan  2 15:04:05";
  "2006/01/02 15:04:05"; "02/Jan/2006:15:04:05 -0700";
  "Mon Jan _2 15:04:05 2006"].

(** [parseTimestampString]: the first layout that parses; the zero time
    (with a nil error) when none does. *)
Definition parseTimestampString (s : string) : Z :=
  let fix go (fs : list string) :=
    match fs with
    | [] => 0%Z
    | f :: fs' => match time_Parse f s with Some t => t | None => go fs' end
    end in
  go timestampLayouts.

(** [parseTimestampValue]: a string (whose error is always nil), an
    [int64] or [float64] of Unix seconds, or a [time.Time].  An [int] is
    not one of the cases. *)
Definition parseTimestampValue (v : value) : option Z :=
  match v with
  | VString s => Some (parseTimestampString s)
  | VFloat64 z => Some (Unix z)
  | VTime t => Some t
  | _ => None
  end.

Definition timestampFields : list string :=
  ["timestamp"; "time"; "ts"; "@timestamp"; "datetime"; "created_at"; "logged_at"].
Definition levelFields : list string :=
  ["level"; "severity"; "priority"; "loglevel"; "log_level"].

(** [extractTimestampFromParsed] *)
Definition extractTimestampFromParsed (parsed : list (string * value)) : option Z :=
  let fix go (fs : list string) :=
    match fs with
    | [] => None
    | f :: fs' =>
        match lookup f parsed with
        | Some v => match parseTimestampValue v with
                    | Some t => Some t
                    | None => go fs'
                    end
        | None => go fs'
        end
    end in
  go timestampFields.

(** [extractLevelFromParsed] *)
Definition extractLevelFromParsed (parsed : list (string * value)) : option string :=
  let fix go (fs : list string) :=
    match fs with
    | [] => None
    | f :: fs' =>
        match lookup f parsed with
        | Some (VString str) =>
            match lookup (ToUpper str) levelMapping with
            | Some lv => Some lv
            | None => go fs'
            end
        | _ => go fs'
        end
    end in
  go levelFields.

(** [extractTimestamp]: the first pattern that matches decides. *)
Definition extractTimestamp (text : string) : Z :=
  let fix go (ps : list regex) :=
    match ps with
    | [] => 0%Z
    | p :: ps' =>
        match FindString p text with
        | Some m => parseTimestampString m
        | None => go ps'
        end
    end in
  go timestampPatterns.

(** [extractLevel] *)
Definition extractLevel (text : string) : string :=
  let fix go (ps : list regex) :=
    match ps with
    | [] => ""%string
    | p :: ps' =>
        match FindString p text with
        | Some m =>
            match lookup (ToUpper m) levelMapping with
            | Some lv => lv
            | None => go ps'
            end
        | None => go ps'
        end
    end in
  go levelPatterns.

(** Storing a decoded mapping and the fields extracted from it (shared
    tail of [tryParseJSON] and [tryParseYAML]). *)
Definition store_parsed (line : LogLine) (parsed : list (string * value)) : LogLine :=
  let l1 := set_Parsed line parsed in
  let l2 := match extractTimestampFromParsed parsed with
            | Some t => set_Timestamp l1 t
            | None => l1
            end in
  match extractLevelFromParsed parsed with
  | Some lv => set_Level l2 lv
  | None => l2
  end.

(** [tryParseJSON]: the boolean result and the line after the call. *)
Definition tryParseJSON (line : LogLine) : bool * LogLine :=
  let trimmed := TrimSpace line.(Raw) in
  if negb (HasPrefix trimmed "{") || negb (HasSuffix trimmed "}") then (false, line)
  else match json_Unmarshal trimmed with
       | None => (false, line)
       | Some parsed => (true, store_parsed line parsed)
       end.

(** [tryParseYAML] *)
Definition tryParseYAML (line : LogLine) : bool * LogLine :=
  let trimmed := TrimSpace line.(Raw) in
  if negb (Contains trimmed ":") then (false, line)
  else if Contains trimmed " INFO:" || Contains trimmed " DEBUG:" ||
          Contains trimmed " WARN:" || Contains trimmed " ERROR:" ||
          Contains trimmed " FATAL:" then (false, line)
  else match yaml_Unmarshal trimmed with
       | None => (false, line)
       | Some parsed =>
           if Nat.ltb (List.length parsed) 2 then (false, line)
           else (true, store_parsed line parsed)
       end.

(** [parseUnstructured]: fills [Timestamp] and [Level] only when empty. *)
Definition parseUnstructured (line : LogLine) : LogLine :=
  let l1 := if IsZero line.(Timestamp) then
              let ts := extractTimestamp line.(Raw) in
              if negb (IsZero ts) then set_Timestamp line ts else line
            else line in
  if String.eqb l1.(Level) "" then
    let lv := extractLevel l1.(Raw) in
    if negb (String.eqb lv "") then set_Level l1 lv else l1
  else l1.

(** [ParseLogLine]: the line after the call (it is updated in place). *)
Definition ParseLogLine (line : LogLine) : LogLine :=
  if String.eqb line.(Raw) "" then line
  else
    let (okj, lj) := tryParseJSON line in
    if okj then lj
    else
      let (oky, ly) := tryParseYAML line in
      if oky then ly
      else parseUnstructured line.

(** [GetParsedField]: walk a dotted path through nested maps. *)
Definition GetParsedField (line : LogLine) (fieldPath : string) : option value :=
  match line.(Parsed) with
  | None => None
  | Some m =>
      let fix go (parts : list string) (current : list (string * value)) :=
        match parts with
        | [] => None
        | part :: rest =>
            match lookup part current with
            | Some v =>
                match rest with
                | [] => Some v
                | _ => match v with
                       | VMap nested => go rest nested
                       | _ => None
                       end
                end
            | None => None
            end
        end in
      go (SplitChar fieldPath ".") m
  end.

(** What the JSON and YAML attempts decode, as a function of the raw text. *)
Definition json_result (raw : string) : option (list (string * value)) :=
  let trimmed := TrimSpace raw in
  if negb (HasPrefix trimmed "{") || negb (HasSuffix trimmed "}") then None
  else json_Unmarshal trimmed.

Definition yaml_result (raw : string) : option (list (string * value)) :=
  let trimmed := TrimSpace raw in
  if negb (Contains trimmed ":") then None
  else if Contains trimmed " INFO:" || Contains trimmed " DEBUG:" ||
          Contains trimmed " WARN:" || Contains trimmed " ERROR:" ||
          Contains trimmed " FATAL:" then None
  else match yaml_Unmarshal trimmed with
       | None => None
       | Some parsed => if Nat.ltb (List.length parsed) 2 then None else Some parsed
       end.

End Parser.

(* ------------------------------------------------------------------ *)
(** ** [fmt.Sprintf("%v", val)] of a parsed value *)

Fixpoint join (sep : string) (xs : list string) : string :=
  match xs with
  | [] => ""
  | [x] => x
  | x :: xs' => x ++ sep ++ join sep xs'
  end.

Fixpoint insert_by_key (kv : string * string) (kvs : list (string * string))
  : list (string * string) :=
  match kvs with
  | [] => [kv]
  | kv' :: kvs' => if str_ltb (fst kv') (fst kv) then kv' :: insert_by_key kv kvs'
                   else kv :: kvs
  end.

Definition sort_by_key (kvs : list (string * string)) : list (string * string) :=
  fold_right insert_by_key [] kvs.

Section Format.
Context `{TimeLib}.
Local Open Scope string_scope.

(** [%v]: maps print as [map[k:v ...]] with sorted keys, slices as
    [[a b]], a [time.Time] with its [String] method.  A [VFloat64 z]
    prints in plain decimal, which is Go's output for |z| < 10^21. *)
Fixpoint format_v (v : value) : string :=
  match v with
  | VString s => s
  | VFloat64 z => Itoa z
  | VInt z => Itoa z
  | VBool b => if b then "true" else "false"
  | VTime t => time_Format "2006-01-02 15:04:05.999999999 -0700 MST" t
  | VNull => "<nil>"
  | VMap kvs =>
      let entries := (fix go (kvs : list (string * value)) :=
                        match kvs with
                        | [] => []
                        | (k, x) :: r => (k, format_v x) :: go r
                        end) kvs in
      "map[" ++ join " " (map (fun kv => fst kv ++ ":" ++ snd kv) (sort_by_key entries))
             ++ "]"
  | VArray vs => "[" ++ join " " (map format_v vs) ++ "]"
  end.

End Format.

(* ------------------------------------------------------------------ *)
(** ** Results of fallible and panicking Go calls *)

(** [Ok] is a nil error, [Err] a returned error, [Panic] a run-time
    panic.  [NoFuel] only arises when the recursion bound of the query
    parser, which is larger than the input allows, is exhausted. *)
Inductive outcome (A : Type) :=
| Ok (a : A)
| Err (msg : string)
| Panic (msg : string)
| NoFuel.
Arguments Ok {A} a.
Arguments Err {A} msg.
Arguments Panic {A} msg.
Arguments NoFuel {A}.

Definition bind {A B : Type} (m : outcome A) (k : A -> outcome B) : outcome B :=
  match m with
  | Ok a => k a
  | Err e => Err e
  | Panic e => Panic e
  | NoFuel => NoFuel
  end.

Notation "x <- m ;; k" := (bind m (fun x => k))
  (at level 61, m at next level, right associativity).

(** The text of a [regexp] compilation error is library output; it is
    not modelled beyond this constant. *)
Definition regexp_error : string := "error parsing regexp".

(* ------------------------------------------------------------------ *)
(** ** [models.TimeRange], [models.FilterOptions] *)

Record TimeRange := mkTimeRange { tr_Start : Z; tr_End : Z }.

Record FilterOptions := mkFilterOptions {
  Query : string;
  IsRegex : bool;
  CaseSensitive : bool;
  LogLevels : list string;
  Sources : list string;
  opt_TimeRange : option TimeRange
}.

Definition emptyOptions : FilterOptions := mkFilterOptions "" false false [] [] None.

(* ------------------------------------------------------------------ *)
(** ** [filter.FilterEngine]: compiled simple queries *)

Inductive QueryOperator :=
| OpEquals | OpNotEquals | OpContains | OpRegex
| OpGreater | OpLess | OpGreaterEqual | OpLessEqual.

Section SimpleQuery.
Context `{Regexp}.
Local Open Scope string_scope.

Record FieldQuery := mkFieldQuery {
  fq_Field : string;
  fq_Operator : QueryOperator;
  fq_Value : string;
  fq_Pattern : option regex
}.

(** [CompiledQuery]; the sets [LogLevels] and [Sources] are lists of their
    keys, and [BooleanOp] (always [OpAND], never read) is left out. *)
Record CompiledQuery := mkCompiledQuery {
  cq_IsRegex : bool;
  cq_CaseSensitive : bool;
  cq_Pattern : option regex;
  KeywordQuery : string;
  FieldQueries : list FieldQuery;
  cq_TimeRange : option TimeRange;
  cq_LogLevels : list string;
  cq_Sources : list string
}.

Definition set_KeywordQuery (q : CompiledQuery) (k : string) : CompiledQuery :=
  mkCompiledQuery q.(cq_IsRegex) q.(cq_CaseSensitive) q.(cq_Pattern) k
                  q.(FieldQueries) q.(cq_TimeRange) q.(cq_LogLevels) q.(cq_Sources).
Definition set_Pattern (q : CompiledQuery) (p : regex) : CompiledQuery :=
  mkCompiledQuery q.(cq_IsRegex) q.(cq_CaseSensitive) (Some p) q.(KeywordQuery)
                  q.(FieldQueries) q.(cq_TimeRange) q.(cq_LogLevels) q.(cq_Sources).
Definition add_FieldQuery (q : CompiledQuery) (fq : FieldQuery) : CompiledQuery :=
  mkCompiledQuery q.(cq_IsRegex) q.(cq_CaseSensitive) q.(cq_Pattern) q.(KeywordQuery)
                  (q.(FieldQueries) ++ [fq]) q.(cq_TimeRange) q.(cq_LogLevels)
                  q.(cq_Sources).

Definition str (c : ascii) : string := String c EmptyString.

(** [splitQuery]: split on spaces outside quotes and parentheses. *)
Fixpoint splitQuery_aux (s : string) (parts : list string) (current : string)
         (inParens : Z) (inQuotes : bool) : list string :=
  match s with
  | EmptyString =>
      if Nat.ltb 0 (String.length current) then parts ++ [TrimSpace current] else parts
  | String c s' =>
      if char_eqb c (ascii_of_nat 34) then
        splitQuery_aux s' parts (current ++ str c) inParens (negb inQuotes)
      else if char_eqb c "(" then
        splitQuery_aux s' parts (current ++ str c)
                       (if inQuotes then inParens else inParens + 1)%Z inQuotes
      else if char_eqb c ")" then
        splitQuery_aux s' parts (current ++ str c)
                       (if inQuotes then inParens else inParens - 1)%Z inQuotes
      else if char_eqb c " " then
        if negb inQuotes && (inParens =? 0)%Z then
          if Nat.ltb 0 (String.length current) then
            splitQuery_aux s' (parts ++ [TrimSpace current]) "" inParens inQuotes
          else splitQuery_aux s' parts current inParens inQuotes
        else splitQuery_aux s' parts (current ++ str c) inParens inQuotes
      else splitQuery_aux s' parts (current ++ str c) inParens inQuotes
  end.

Definition splitQuery (queryStr : string) : list string :=
  splitQuery_aux queryStr [] "" 0%Z false.

(** [parseFieldQuery] *)
Definition parseFieldQuery (queryPart : string) (query : CompiledQuery)
  : outcome FieldQuery :=
  match Index queryPart ":" with
  | None => Err ("invalid field query: " ++ queryPart)
  | Some colonIndex =>
      let field := TrimSpace (slice queryPart 0 colonIndex) in
      let value := TrimSpace (slice_from queryPart (colonIndex + 1)) in
      let '(op, v) :=
        if HasPrefix value "!" then (OpNotEquals, slice_from value 1)
        else if HasPrefix value "~" then (OpRegex, slice_from value 1)
        else if HasPrefix value ">" then (OpGreater, slice_from value 1)
        else if HasPrefix value "<" then (OpLess, slice_from value 1)
        else if Contains value "*" || Contains value "?" then (OpContains, value)
        else (OpEquals, value) in
      let isRegexOp := match op with OpRegex => true | _ => false end in
      if isRegexOp || (query.(cq_IsRegex) && Contains value "|") then
        let flags := if negb query.(cq_CaseSensitive) then "(?i)" else "" in
        match regexp_Compile (flags ++ v) with
        | None => Err ("invalid regex in field query: " ++ regexp_error)
        | Some pattern => Ok (mkFieldQuery field op v (Some pattern))
        end
      else Ok (mkFieldQuery field op v None)
  end.

(** [parseFieldQueries] *)
Fixpoint parseFieldQueries_aux (parts : list string) (query : CompiledQuery)
  : outcome CompiledQuery :=
  match parts with
  | [] => Ok query
  | part :: parts' =>
      if negb (Contains part ":") then
        let query' :=
          if String.eqb query.(KeywordQuery) "" then
            set_KeywordQuery query
              (if negb query.(cq_CaseSensitive) then ToLower part else part)
          else query in
        parseFieldQueries_aux parts' query'
      else
        fq <- parseFieldQuery part query ;;
        parseFieldQueries_aux parts' (add_FieldQuery query fq)
  end.

Definition parseFieldQueries (queryStr : string) (query : CompiledQuery)
  : outcome CompiledQuery :=
  parseFieldQueries_aux (splitQuery queryStr) query.

(** [parseMainQuery] *)
Definition parseMainQuery (queryStr : string) (query : CompiledQuery)
  : outcome CompiledQuery :=
  if Contains queryStr ":" then parseFieldQueries queryStr query
  else if query.(cq_IsRegex) then
    let flags := if negb query.(cq_CaseSensitive) then "(?i)" else "" in
    match regexp_Compile (flags ++ queryStr) with
    | None => Err ("invalid regex pattern: " ++ regexp_error)
    | Some pattern => Ok (set_Pattern query pattern)
    end
  else Ok (set_KeywordQuery query
             (if negb query.(cq_CaseSensitive) then ToLower queryStr else queryStr)).

(** [compileQuery] *)
Definition compileQuery (options : FilterOptions) : outcome CompiledQuery :=
  let query := mkCompiledQuery options.(IsRegex) options.(CaseSensitive) None ""
                 [] options.(opt_TimeRange) (map ToUpper options.(LogLevels))
                 options.(Sources) in
  if negb (String.eqb options.(Query) "") then parseMainQuery options.(Query) query
  else Ok query.

End SimpleQuery.

(* ------------------------------------------------------------------ *)
(** ** [filter.QueryExpression] and [filter.FilterEngine] *)

Section Engine.
Context `{Regexp} `{TimeLib} `{Strconv}.
Local Open Scope string_scope.

Record FieldExpression := mkFieldExpression {
  Field : string;
  Operator : string;
  Value : string;
  Pattern : option regex
}.

Record TextExpression := mkTextExpression {
  Text : string;
  te_CaseSensitive : bool;
  te_IsRegex : bool;
  te_Pattern : option regex
}.

(** The implementations of the [QueryExpression] interface. *)
Inductive QueryExpression :=
| AndExpression (Left Right : QueryExpression)
| OrExpression (Left Right : QueryExpression)
| NotExpression (Expression : QueryExpression)
| FieldNode (e : FieldExpression)
| TextNode (e : TextExpression)
| TimeRangeExpression (Start End' : Z).

Record FilterEngine := mkFilterEngine {
  compiledQuery : option CompiledQuery;
  advancedExpression : option QueryExpression;
  lastOptions : FilterOptions
}.

Definition NewFilterEngine : FilterEngine := mkFilterEngine None None emptyOptions.

(** [String()] of the expression nodes *)
Fixpoint expr_String (e : QueryExpression) : string :=
  match e with
  | AndExpression l r => "(" ++ expr_String l ++ " AND " ++ expr_String r ++ ")"
  | OrExpression l r => "(" ++ expr_String l ++ " OR " ++ expr_String r ++ ")"
  | NotExpression x => "NOT " ++ expr_String x
  | FieldNode fe => fe.(Field) ++ fe.(Operator) ++ fe.(Value)
  | TextNode te =>
      if te.(te_IsRegex) then "~" ++ dq ++ te.(Text) ++ dq else dq ++ te.(Text) ++ dq
  | TimeRangeExpression s e' =>
      "time:[" ++ time_Format "15:04:05" s ++ " TO " ++ time_Format "15:04:05" e' ++ "]"
  end.

(** [extractFieldValue] *)
Definition extractFieldValue (line : LogLine) (field : string) : string :=
  let f := ToLower field in
  if String.eqb f "level" || String.eqb f "severity" || String.eqb f "lvl" then line.(Level)
  else if String.eqb f "source" || String.eqb f "file" || String.eqb f "src" then line.(Source)
  else if String.eqb f "message" || String.eqb f "msg" || String.eqb f "text" ||
          String.eqb f "raw" then line.(Raw)
  else if String.eqb f "timestamp" || String.eqb f "time" || String.eqb f "ts" then
    if negb (IsZero line.(Timestamp)) then time_Format RFC3339 line.(Timestamp) else ""
  else if String.eqb f "id" then line.(ID)
  else if String.eqb f "line" || String.eqb f "linenum" then Itoa (Z.of_nat line.(LineNum))
  else if String.eqb f "offset" then Itoa line.(Offset)
  else match line.(Parsed) with
       | Some _ => match GetParsedField line field with
                   | Some VNull | None => ""
                   | Some val => format_v val
                   end
       | None => ""
       end.

(** [matchComparison]: numeric when both sides parse, else byte-wise. *)
Definition matchComparison (fieldValue queryValue operator : string) : bool :=
  let numeric :=
    match ParseFloat fieldValue, ParseFloat queryValue with
    | Some fieldNum, Some queryNum =>
        if String.eqb operator ":>" then Some (float_lt queryNum fieldNum)
        else if String.eqb operator ":<" then Some (float_lt fieldNum queryNum)
        else if String.eqb operator ":>=" then Some (float_le queryNum fieldNum)
        else if String.eqb operator ":<=" then Some (float_le fieldNum queryNum)
        else None
    | _, _ => None
    end in
  match numeric with
  | Some b => b
  | None =>
      if String.eqb operator ":>" then str_ltb queryValue fieldValue
      else if String.eqb operator ":<" then str_ltb fieldValue queryValue
      else if String.eqb operator ":>=" then str_leb queryValue fieldValue
      else if String.eqb operator ":<=" then str_leb fieldValue queryValue
      else false
  end.

(** [matchFieldExpression] *)
Definition matchFieldExpression (fieldValue : string) (expr : FieldExpression) : bool :=
  let op := expr.(Operator) in
  if String.eqb op ":" then EqualFold fieldValue expr.(Value)
  else if String.eqb op ":!=" then negb (EqualFold fieldValue expr.(Value))
  else if String.eqb op ":~" then
    match expr.(Pattern) with Some p => MatchString p fieldValue | None => false end
  else if String.eqb op ":>" || String.eqb op ":<" || String.eqb op ":>=" ||
          String.eqb op ":<=" then matchComparison fieldValue expr.(Value) op
  else EqualFold fieldValue expr.(Value).

(** [Evaluate] of the expression nodes *)
Fixpoint Evaluate (e : QueryExpression) (line : LogLine) : bool :=
  match e with
  | AndExpression l r => Evaluate l line && Evaluate r line
  | OrExpression l r => Evaluate l line || Evaluate r line
  | NotExpression x => negb (Evaluate x line)
  | FieldNode fe => matchFieldExpression (extractFieldValue line fe.(Field)) fe
  | TextNode te =>
      match te.(te_IsRegex), te.(te_Pattern) with
      | true, Some p => MatchString p line.(Raw)
      | _, _ =>
          if negb te.(te_CaseSensitive) then Contains (ToLower line.(Raw)) (ToLower te.(Text))
          else Contains line.(Raw) te.(Text)
      end
  | TimeRangeExpression s e' =>
      if IsZero line.(Timestamp) then false
      else negb (Before line.(Timestamp) s) && negb (After line.(Timestamp) e')
  end.

(** [matchFieldQuery] of the simple filter *)
Definition simpleFieldValue (line : LogLine) (field : string) : string :=
  let f := ToLower field in
  if String.eqb f "level" || String.eqb f "severity" then line.(Level)
  else if String.eqb f "source" || String.eqb f "file" then line.(Source)
  else if String.eqb f "message" || String.eqb f "msg" || String.eqb f "text" then line.(Raw)
  else if String.eqb f "timestamp" || String.eqb f "time" || String.eqb f "ts" then
    time_Format RFC3339 line.(Timestamp)
  else match line.(Parsed) with
       | Some _ => match GetParsedField line field with
                   | Some VNull | None => ""
                   | Some val => format_v val
                   end
       | None => ""
       end.

(** [matchStringComparison] *)
Definition matchStringComparison (fieldValue : string) (fq : FieldQuery) : bool :=
  match fq.(fq_Operator) with
  | OpGreater => str_ltb fq.(fq_Value) fieldValue
  | OpLess => str_ltb fieldValue fq.(fq_Value)
  | OpGreaterEqual => str_leb fq.(fq_Value) fieldValue
  | OpLessEqual => str_leb fieldValue fq.(fq_Value)
  | _ => false
  end.

(** [matchNumericComparison] *)
Definition matchNumericComparison (fieldValue : string) (fq : FieldQuery) : bool :=
  match ParseFloat fieldValue, ParseFloat fq.(fq_Value) with
  | Some fieldNum, Some queryNum =>
      match fq.(fq_Operator) with
      | OpGreater => float_lt queryNum fieldNum
      | OpLess => float_lt fieldNum queryNum
      | OpGreaterEqual => float_le queryNum fieldNum
      | OpLessEqual => float_le fieldNum queryNum
      | _ => false
      end
  | _, _ => matchStringComparison fieldValue fq
  end.

(** [matchFieldValue] *)
Definition matchFieldValue (fieldValue : string) (fq : FieldQuery) : bool :=
  match fq.(fq_Operator) with
  | OpEquals => EqualFold fieldValue fq.(fq_Value)
  | OpNotEquals => negb (EqualFold fieldValue fq.(fq_Value))
  | OpContains => Contains (ToLower fieldValue) (ToLower fq.(fq_Value))
  | OpRegex => match fq.(fq_Pattern) with Some p => MatchString p fieldValue | None => false end
  | OpGreater | OpLess | OpGreaterEqual | OpLessEqual => matchNumericComparison fieldValue fq
  end.

Definition matchFieldQuery (line : LogLine) (fq : FieldQuery) : bool :=
  matchFieldValue (simpleFieldValue line fq.(fq_Field)) fq.

(** [matchLine] *)
Definition matchLine (line : LogLine) (query : CompiledQuery) : bool :=
  let timeOk :=
    match query.(cq_TimeRange) with
    | Some tr =>
        if negb (IsZero line.(Timestamp)) then
          negb (Before line.(Timestamp) tr.(tr_Start) || After line.(Timestamp) tr.(tr_End))
        else true
    | None => true
    end in
  let levelsOk :=
    match query.(cq_LogLevels) with
    | [] => true
    | lvls => negb (String.eqb line.(Level) "") &&
              existsb (String.eqb (ToUpper line.(Level))) lvls
    end in
  let sourcesOk :=
    match query.(cq_Sources) with
    | [] => true
    | srcs => existsb (String.eqb line.(Source)) srcs
    end in
  let mainQueryMatch :=
    if negb (String.eqb query.(KeywordQuery) "") then
      let searchText := if negb query.(cq_CaseSensitive) then ToLower line.(Raw)
                        else line.(Raw) in
      Contains searchText query.(KeywordQuery)
    else match query.(cq_Pattern) with
         | Some p => MatchString p line.(Raw)
         | None => true
         end in
  let fieldQueriesMatch := forallb (matchFieldQuery line) query.(FieldQueries) in
  timeOk && levelsOk && sourcesOk && mainQueryMatch && fieldQueriesMatch.

(** [Match] *)
Definition Match (f : FilterEngine) (line : LogLine) : bool :=
  match f.(advancedExpression) with
  | Some e => Evaluate e line
  | None => match f.(compiledQuery) with
            | None => false
            | Some q => matchLine line q
            end
  end.

(** [SetFilter]: the engine afterwards and the returned error. *)
Definition SetFilter (f : FilterEngine) (options : FilterOptions)
  : FilterEngine * option string :=
  let f1 := mkFilterEngine f.(compiledQuery) f.(advancedExpression) options in
  match compileQuery options with
  | Ok query => (mkFilterEngine (Some query) f1.(advancedExpression) options, None)
  | Err e | Panic e => (f1, Some ("failed to compile query: " ++ e))
  | NoFuel => (f1, Some "failed to compile query: ")
  end.

(** [Clear] *)
Definition FilterClear (f : FilterEngine) : FilterEngine :=
  mkFilterEngine None None emptyOptions.

(** [HasFilter] *)
Definition HasFilter (f : FilterEngine) : bool :=
  match f.(advancedExpression) with
  | Some _ => true
  | None =>
      match f.(compiledQuery) with
      | None => false
      | Some q =>
          negb (String.eqb q.(KeywordQuery) "") ||
          (match q.(cq_Pattern) with Some _ => true | None => false end) ||
          negb (Nat.eqb (List.length q.(FieldQueries)) 0) ||
          negb (Nat.eqb (List.length q.(cq_LogLevels)) 0) ||
          negb (Nat.eqb (List.length q.(cq_Sources)) 0) ||
          (match q.(cq_TimeRange) with Some _ => true | None => false end)
      end
  end.

(** [ValidateQuery] *)
Definition ValidateQuery (queryStr : string) (isRegex : bool) : option string :=
  if String.eqb queryStr "" then None
  else if isRegex && (match regexp_Compile queryStr with None => true | _ => false end)
  then Some ("invalid regex: " ++ regexp_error)
  else if Contains queryStr ":" then
    let bad := fun part =>
      Contains part ":" &&
      match Index part ":" with
      | Some i => Nat.eqb i 0 || Nat.eqb i (String.length part - 1)
      | None => false
      end in
    match List.find bad (splitQuery queryStr) with
    | Some part => Some ("invalid field query format: " ++ part)
    | None => None
    end
  else None.

End Engine.

(* ------------------------------------------------------------------ *)
(** ** [filter.AdvancedQueryParser] *)

(** [strings.Split s sep] for a non-empty separator. *)
Fixpoint split_str_aux (fuel : nat) (s sep : string) : list string :=
  match fuel with
  | O => [s]
  | S f =>
      match Index s sep with
      | None => [s]
      | Some i => slice s 0 i :: split_str_aux f (slice_from s (i + String.length sep)) sep
      end
  end.

Definition SplitStr (s sep : string) : list string :=
  split_str_aux (S (String.length s)) s sep.

Definition isWhitespace (c : ascii) : bool :=
  let n := nat_of_ascii c in (n =? 32) || (n =? 9) || (n =? 10) || (n =? 13).

Definition isAlphaNumeric (c : ascii) : bool :=
  let n := nat_of_ascii c in
  ((97 <=? n) && (n <=? 122)) || ((65 <=? n) && (n <=? 90)) ||
  ((48 <=? n) && (n <=? 57)) || (n =? 95).

Definition quote : ascii := ascii_of_nat 34.

Section AdvancedParser.
Context `{Regexp} `{TimeLib}.
Local Open Scope string_scope.

(** [parseFieldExpression]: the operators are tried in this order. *)
Definition fieldOperators : list string := [":!="; ":~"; ":>"; ":<"; ":>="; ":<="; ":"].

Definition parseFieldExpression (token : string) : outcome FieldExpression :=
  let found :=
    List.fold_left
      (fun acc op =>
         match acc with
         | Some _ => acc
         | None => match Index token op with
                   | Some idx => Some (slice token 0 idx, op,
                                       slice_from token (idx + String.length op))
                   | None => None
                   end
         end) fieldOperators None in
  let '(field, operator, value) :=
    match found with Some r => r | None => ("", "", "") end in
  if String.eqb field "" || String.eqb operator "" then
    Err ("invalid field expression: " ++ token)
  else if String.eqb operator ":~" || (Contains value "|" && Contains value "(") then
    match regexp_Compile value with
    | None => Err ("invalid regex in field expression: " ++ regexp_error)
    | Some pattern => Ok (mkFieldExpression field operator value (Some pattern))
    end
  else Ok (mkFieldExpression field operator value None).

(** [parseTimeValue]; [now] is the wall clock at the call. *)
Definition timeValueLayouts : list string :=
  ["15:04:05"; "2006-01-02 15:04:05"; "2006-01-02T15:04:05";
   "2006-01-02T15:04:05Z"; RFC3339].

Definition parseTimeValue (now : Z) (timeStr : string) : outcome Z :=
  let fix go (fs : list string) :=
    match fs with
    | [] => Err ("unable to parse time: " ++ timeStr)
    | f :: fs' =>
        match time_Parse f timeStr with
        | Some t => if String.eqb f "15:04:05" then Ok (time_Today now t) else Ok t
        | None => go fs'
        end
    end in
  go timeValueLayouts.

(** [parseTimeRangeExpression] *)
Definition parseTimeRangeExpression (now : Z) (token : string) : outcome (Z * Z) :=
  if negb (HasPrefix token "time:[") || negb (HasSuffix token "]") then
    Err ("invalid time range format: " ++ token)
  else
    let timeSpec := slice token 6 (String.length token - 1) in
    match SplitStr timeSpec " TO " with
    | [p0; p1] =>
        match parseTimeValue now (TrimSpace p0) with
        | Ok start =>
            match parseTimeValue now (TrimSpace p1) with
            | Ok end_ => Ok (start, end_)
            | Err e => Err ("invalid end time: " ++ e)
            | Panic e => Panic e
            | NoFuel => NoFuel
            end
        | Err e => Err ("invalid start time: " ++ e)
        | Panic e => Panic e
        | NoFuel => NoFuel
        end
    | _ => Err "time range must have format: time:[start TO end]"
    end.

(** [parseTextExpression]: [Text[1:len(Text)-1]] on a text made of one
    double-quote byte is out of bounds and panics. *)
Definition unquoteText (expr : TextExpression) : outcome TextExpression :=
  let t := expr.(Text) in
  if HasPrefix t dq && HasSuffix t dq then
    if Nat.ltb (String.length t) 2 then
      Panic ("runtime error: slice bounds out of range [1:" ++
             Itoa (Z.of_nat (String.length t - 1)) ++ "]")
    else Ok (mkTextExpression (slice t 1 (String.length t - 1)) true
                              expr.(te_IsRegex) expr.(te_Pattern))
  else Ok expr.

Definition parseTextExpression (token : string) : outcome TextExpression :=
  if HasPrefix token "~" then
    let text := slice_from token 1 in
    match regexp_Compile ("(?i)" ++ text) with
    | None => Err ("invalid regex: " ++ regexp_error)
    | Some pattern => unquoteText (mkTextExpression text false true (Some pattern))
    end
  else unquoteText (mkTextExpression token false false None).

Variable input : string.
Variable now : Z.

Definition char_is (i : nat) (c : ascii) : bool :=
  match String.get i input with Some d => char_eqb d c | None => false end.

(** [for p.pos < len(p.input) && f(p.input[p.pos]) { p.pos++ }] *)
Fixpoint scan_while (f : ascii -> bool) (n pos : nat) : nat :=
  match n with
  | O => pos
  | S n' => match String.get pos input with
            | Some c => if f c then scan_while f n' (S pos) else pos
            | None => pos
            end
  end.

Definition skipWhitespace (pos : nat) : nat :=
  scan_while (fun c => char_eqb c " " || char_eqb c (ascii_of_nat 9))
             (String.length input) pos.

(** [matchKeyword]: the position afterwards (white space is skipped
    even when the keyword does not match). *)
Definition matchKeyword (keyword : string) (pos : nat) : bool * nat :=
  let p := skipWhitespace pos in
  if Nat.ltb (String.length input) (p + String.length keyword) then (false, p)
  else if String.eqb (ToUpper (substring p (String.length keyword) input)) keyword then
    let e := p + String.length keyword in
    if Nat.ltb e (String.length input) &&
       match String.get e input with Some c => isAlphaNumeric c | None => false end
    then (false, p)
    else (true, e)
  else (false, p).

(** The bracket scan of a [time:[...]] token. *)
Fixpoint scan_brackets (n pos : nat) (depth : Z) : nat :=
  match n with
  | O => pos
  | S n' =>
      match String.get pos input with
      | None => pos
      | Some c =>
          if char_eqb c "[" then scan_brackets n' (S pos) (depth + 1)
          else if char_eqb c "]" then
            if (depth - 1 =? 0)%Z then S pos else scan_brackets n' (S pos) (depth - 1)
          else scan_brackets n' (S pos) depth
      end
  end.

(** [parseToken] *)
Definition parseToken (pos : nat) : string * nat :=
  let p := skipWhitespace pos in
  let len := String.length input in
  if Nat.leb len p then ("", p)
  else if char_is p quote then
    let q := scan_while (fun c => negb (char_eqb c quote)) len (S p) in
    let q' := if Nat.ltb q len then S q else q in
    (slice input p q', q')
  else if HasPrefix (slice_from input p) "time:[" then
    let q := scan_brackets len p 0 in (slice input p q, q)
  else
    let q := scan_while (fun c => negb (isWhitespace c) && negb (char_eqb c "(") &&
                                  negb (char_eqb c ")")) len p in
    (slice input p q, q).

(** [lookaheadForExpression] (the position is restored) *)
Definition lookaheadForExpression (pos : nat) : bool :=
  let token := fst (parseToken pos) in
  negb (String.eqb token "") &&
  (Contains token ":" || HasPrefix token "time:[" || HasPrefix token "~" ||
   HasPrefix token dq).


(** The mutually recursive descent.  [n] bounds the depth of the
    recursion; the loops of [parseExpression] and [parseAndExpression]
    are [orLoop] and [andLoop]. *)
Fixpoint parseExpression (n pos : nat) {struct n} : outcome (QueryExpression * nat) :=
  match n with
  | O => NoFuel
  | S n' => bind (parseAndExpression n' pos) (fun '(lhs, p) => orLoop n' lhs p)
  end
with orLoop (n : nat) (lhs : QueryExpression) (pos : nat) {struct n}
  : outcome (QueryExpression * nat) :=
  match n with
  | O => NoFuel
  | S n' =>
      if Nat.ltb pos (String.length input) then
        let p := skipWhitespace pos in
        let '(isOr, p1) := matchKeyword "OR" p in
        if negb isOr then Ok (lhs, p1)
        else bind (parseAndExpression n' p1)
                  (fun '(rhs, p2) => orLoop n' (OrExpression lhs rhs) p2)
      else Ok (lhs, pos)
  end
with parseAndExpression (n pos : nat) {struct n} : outcome (QueryExpression * nat) :=
  match n with
  | O => NoFuel
  | S n' => bind (parseUnaryExpression n' pos) (fun '(lhs, p) => andLoop n' lhs p)
  end
with andLoop (n : nat) (lhs : QueryExpression) (pos : nat) {struct n}
  : outcome (QueryExpression * nat) :=
  match n with
  | O => NoFuel
  | S n' =>
      if Nat.ltb pos (String.length input) then
        let p := skipWhitespace pos in
        let '(isExplicitAnd, p1) := matchKeyword "AND" p in
        if negb isExplicitAnd && negb (lookaheadForExpression p1) then Ok (lhs, p1)
        else bind (parseUnaryExpression n' p1)
                  (fun '(rhs, p2) => andLoop n' (AndExpression lhs rhs) p2)
      else Ok (lhs, pos)
  end
with parseUnaryExpression (n pos : nat) {struct n} : outcome (QueryExpression * nat) :=
  match n with
  | O => NoFuel
  | S n' =>
      let p := skipWhitespace pos in
      let '(isNot, p1) := matchKeyword "NOT" p in
      if isNot then
        bind (parseUnaryExpression n' p1) (fun '(e, p2) => Ok (NotExpression e, p2))
      else parsePrimaryExpression n' p1
  end
with parsePrimaryExpression (n pos : nat) {struct n} : outcome (QueryExpression * nat) :=
  match n with
  | O => NoFuel
  | S n' =>
      let p := skipWhitespace pos in
      if Nat.leb (String.length input) p then Err "unexpected end of query"
      else if char_is p "(" then
        bind (parseExpression n' (S p))
             (fun '(e, p2) =>
                let p3 := skipWhitespace p2 in
                if Nat.leb (String.length input) p3 || negb (char_is p3 ")")
                then Err "missing closing parenthesis"
                else Ok (e, S p3))
      else
        let '(token, p2) := parseToken p in
        if String.eqb token "" then Err "empty expression"
        else if Contains token ":" then
          bind (parseFieldExpression token) (fun fe => Ok (FieldNode fe, p2))
        else if HasPrefix token "time:[" then
          bind (parseTimeRangeExpression now token)
               (fun '(s, e) => Ok (TimeRangeExpression s e, p2))
        else bind (parseTextExpression token) (fun te => Ok (TextNode te, p2))
  end.

End AdvancedParser.

Section SetAdvanced.
Context `{Regexp} `{TimeLib}.
Local Open Scope string_scope.

(** The recursion bound: every level of the descent and every loop
    iteration consumes input, so this bound is never reached on an
    input of this length. *)
Definition parser_fuel (input : string) : nat := 8 * S (String.length input).

(** [ParseAdvancedQuery]: trailing input after the first expression is
    ignored, as in the source. *)
Definition ParseAdvancedQuery (now : Z) (query : string) : outcome QueryExpression :=
  let input := TrimSpace query in
  bind (parseExpression input now (parser_fuel input) 0) (fun '(e, _) => Ok e).

(** [SetAdvancedFilter]: the engine afterwards and the returned error, or
    the panic the call raises. *)
Definition SetAdvancedFilter (f : FilterEngine) (now : Z) (query : string)
  : outcome (FilterEngine * option string) :=
  if String.eqb query "" then Ok (FilterClear f, None)
  else match ParseAdvancedQuery now query with
       | Ok expr =>
           Ok (mkFilterEngine (Some (mkCompiledQuery false false None query [] None [] []))
                              (Some expr) f.(lastOptions), None)
       | Err e => Ok (f, Some ("failed to parse advanced query: " ++ e))
       | Panic e => Panic e
       | NoFuel => NoFuel
       end.

End SetAdvanced.

(* ------------------------------------------------------------------ *)
(** ** [models.TailerEvent] *)

Inductive TailerEventType := EventNewLine | EventFileRotated | EventFileError | EventEOF.

Record TailerEvent := mkTailerEvent {
  ev_Type : TailerEventType;
  ev_Source : string;
  ev_Line : option LogLine;
  ev_Message : string
}.

(* ------------------------------------------------------------------ *)
(** ** The UI coordinator ([ui.Model], [SimpleBatcher]) *)

(** [100 * time.Millisecond] and [time.Hour] in nanoseconds *)
Definition batchTimeout : Z := 100000000.
Definition Hour : Z := 3600 * 1000000000.
Definition batchSize : nat := 1000.

Section Coordinator.
Context `{Regexp} `{Decoders} `{TimeLib} `{Strconv}.
Local Open Scope string_scope.

(** The fields of [ui.Model] the filtering reads or writes; the line
    pointers are shared between the stores, and a line is not changed
    after [addLogLine] parsed it, so the stores hold line values.  The
    [SimpleBatcher]'s [pendingLines] and [lastProcess] are inlined. *)
Record Model := mkModel {
  allLinesBuffer : CircularBuffer LogLine;
  filteredBuffer : CircularBuffer LogLine;
  filter : FilterEngine;
  pendingLines : list LogLine;
  lastProcess : Z;
  isPaused : bool;
  searchInput : string;
  statusMessage : string
}.

(** [NewModel] with [cfg.UI.MaxBufferLines = maxLines]; the batcher's
    [lastProcess] starts as the zero time. *)
Definition NewModel (maxLines : nat) : Model :=
  mkModel (NewCircularBuffer maxLines) (NewCircularBuffer maxLines) NewFilterEngine
          [] 0%Z false "" "".

Definition with_filter (m : Model) (f : FilterEngine) : Model :=
  mkModel m.(allLinesBuffer) m.(filteredBuffer) f m.(pendingLines) m.(lastProcess)
          m.(isPaused) m.(searchInput) m.(statusMessage).
Definition with_filtered (m : Model) (fb : CircularBuffer LogLine) : Model :=
  mkModel m.(allLinesBuffer) fb m.(filter) m.(pendingLines) m.(lastProcess)
          m.(isPaused) m.(searchInput) m.(statusMessage).
Definition with_status (m : Model) (s : string) : Model :=
  mkModel m.(allLinesBuffer) m.(filteredBuffer) m.(filter) m.(pendingLines)
          m.(lastProcess) m.(isPaused) m.(searchInput) s.
Definition with_searchInput (m : Model) (s : string) : Model :=
  mkModel m.(allLinesBuffer) m.(filteredBuffer) m.(filter) m.(pendingLines)
          m.(lastProcess) m.(isPaused) s m.(statusMessage).

(** [processBatch]; [now] is the clock reading at its end.  The
    throughput status message is left out. *)
Definition processBatch (m : Model) (now : Z) : Model :=
  match m.(pendingLines) with
  | [] => m
  | lines =>
      let '(all, filtered) :=
        fold_left (fun '(all, filtered) line =>
                     (Add all line,
                      if HasFilter m.(filter) && Match m.(filter) line
                      then Add filtered line else filtered))
                  lines (m.(allLinesBuffer), m.(filteredBuffer)) in
      mkModel all filtered m.(filter) [] now m.(isPaused) m.(searchInput)
              m.(statusMessage)
  end.

(** [SimpleBatcher.AddLine] *)
Definition AddLine (m : Model) (now : Z) (line : LogLine) : Model :=
  let pending := (m.(pendingLines) ++ [line])%list in
  let m1 := mkModel m.(allLinesBuffer) m.(filteredBuffer) m.(filter) pending
                    m.(lastProcess) m.(isPaused) m.(searchInput) m.(statusMessage) in
  if Nat.leb batchSize (List.length pending) ||
     (Nat.ltb 0 (List.length pending) && (batchTimeout <=? now - m.(lastProcess))%Z)
  then processBatch m1 now
  else m1.

(** [ForceBatch] *)
Definition ForceBatch (m : Model) (now : Z) : Model := processBatch m now.

(** [addLogLine]: the line is parsed in place, then batched.  The
    auto-scroll bookkeeping is left out. *)
Definition addLogLine (m : Model) (now : Z) (line : LogLine) : Model :=
  AddLine m now (ParseLogLine line).

(** [handleTailerEvent]: the model afterwards and the event's line as
    its pointer sees it afterwards. *)
Definition handleTailerEvent (m : Model) (now : Z) (event : TailerEvent)
  : Model * option LogLine :=
  match event.(ev_Type) with
  | EventNewLine =>
      match event.(ev_Line) with
      | Some line =>
          if negb m.(isPaused) then
            (addLogLine m now line, Some (ParseLogLine line))
          else (m, Some line)
      | None => (m, None)
      end
  | EventFileError => (with_status m ("File error: " ++ event.(ev_Message)), event.(ev_Line))
  | EventFileRotated => (with_status m ("File rotated: " ++ event.(ev_Source)), event.(ev_Line))
  | EventEOF => (m, event.(ev_Line))
  end.

(** [ProcessAllExistingLines]: the batches of 1000 lines only split the
    same loop; the progress messages are left out. *)
Definition ProcessAllExistingLines (m : Model) : Model :=
  if negb (HasFilter m.(filter)) then with_filtered m (Clear m.(filteredBuffer))
  else
    let totalLines := Size m.(allLinesBuffer) in
    if Nat.eqb totalLines 0 then m
    else
      with_filtered m
        (fold_left (fun fb i =>
                      match Get m.(allLinesBuffer) i with
                      | Some line => if Match m.(filter) line then Add fb line else fb
                      | None => fb
                      end)
                   (seq 0 totalLines) (Clear m.(filteredBuffer))).

(** [expandShortcuts] *)
Definition shortcuts (now : Z) : list (string * string) := [
  ("errors", "level:ERROR"); ("warnings", "level:WARN"); ("info", "level:INFO");
  ("debug", "level:DEBUG"); ("5xx", "status:>=500");
  ("4xx", "status:>=400 AND status:<500"); ("3xx", "status:>=300 AND status:<400");
  ("2xx", "status:>=200 AND status:<300"); ("slow", "response_time:>1000");
  ("today", "time:[" ++ time_Format "2006-01-02" now ++ " 00:00:00" ++ " TO " ++
            time_Format "2006-01-02" now ++ " 23:59:59" ++ "]");
  ("last_hour", "time:[" ++ time_Format "15:04:05" (now - Hour)%Z ++ " TO " ++
                time_Format "15:04:05" now ++ "]")].

Definition expandShortcuts (now : Z) (query : string) : string :=
  match lookup (ToLower query) (shortcuts now) with
  | Some expanded => expanded
  | None => query
  end.

(** [isAdvancedQuery] *)
Definition isAdvancedQuery (query : string) : bool :=
  Contains query " AND " || Contains query " OR " || Contains query " NOT " ||
  Contains query "time:[" || Contains query ":>" || Contains query ":<" ||
  Contains query ":!=" || Contains query ":~" || Nat.ltb 1 (CountChar query ":").

Definition regexMetaChars : string := ".*+?^${}[]|()".

(** [applySearch]: the model afterwards and the returned error, or the
    panic raised on the way. *)
Definition applySearch (m : Model) (now : Z) : outcome (Model * option string) :=
  if String.eqb m.(searchInput) "" then
    Ok (with_status (with_filtered (with_filter m (FilterClear m.(filter)))
                                   (Clear m.(filteredBuffer))) "Filter cleared", None)
  else
    let actualQuery := expandShortcuts now m.(searchInput) in
    let finish := fun m' => Ok (ProcessAllExistingLines (ForceBatch m' now), None) in
    if isAdvancedQuery actualQuery then
      match SetAdvancedFilter m.(filter) now actualQuery with
      | Ok (f', None) => finish (with_filter m f')
      | Ok (f', Some e) => Ok (with_filter m f', Some e)
      | Err e => Err e
      | Panic e => Panic e
      | NoFuel => NoFuel
      end
    else
      let isRegex := ContainsAny actualQuery regexMetaChars in
      match ValidateQuery actualQuery isRegex with
      | Some e => Ok (m, Some e)
      | None =>
          let '(f', err) := SetFilter m.(filter)
                              (mkFilterOptions actualQuery isRegex false [] [] None) in
          match err with
          | Some e => Ok (with_filter m f', Some e)
          | None => finish (with_filter m f')
          end
      end.

(** Typing [q] into the search box and pressing enter. *)
Definition search (m : Model) (now : Z) (q : string) : outcome (Model * option string) :=
  applySearch (with_searchInput m q) now.

End Coordinator.

(* ------------------------------------------------------------------ *)
(** ** Concrete library instances for evaluating examples

    Small implementations of the library interfaces, exact on the inputs
    the examples below use: the regular expressions are literal strings
    (with the [(?i)] flag), [ParseFloat] reads optionally signed decimal
    integers (and rejects everything else), the JSON decoder reads
    objects, arrays, strings with the escapes [\\] and a double quote,
    integers, [true], [false] and [null], the YAML decoder rejects every
    input, and times print as their nanosecond count. *)

Module Instances.
Local Open Scope string_scope.

Definition literal_match (r : bool * string) (s : string) : option nat :=
  if fst r then Index (ToLower s) (ToLower (snd r)) else Index s (snd r).

#[export] Instance literal_regexp : Regexp := {
  regex := bool * string;
  regexp_Compile p :=
    if HasPrefix p "(?i)" then Some (true, slice_from p 4) else Some (false, p);
  MatchString r s := match literal_match r s with Some _ => true | None => false end;
  FindString r s := match literal_match r s with
                    | Some i => Some (substring i (String.length (snd r)) s)
                    | None => None
                    end
}.

Definition is_digit (c : ascii) : bool :=
  let n := nat_of_ascii c in Nat.leb 48 n && Nat.leb n 57.

Fixpoint read_digits (s : string) (acc : Z) : Z * string :=
  match s with
  | String c s' => if is_digit c then read_digits s' (acc * 10 + Z.of_nat (nat_of_ascii c - 48))%Z
                   else (acc, s)
  | EmptyString => (acc, s)
  end.

Definition parse_int (s : string) : option Z :=
  let '(sign, body) :=
    match s with
    | String c s' => if char_eqb c "-" then ((-1)%Z, s')
                     else if char_eqb c "+" then (1%Z, s') else (1%Z, s)
    | EmptyString => (1%Z, s)
    end in
  match body with
  | String c _ =>
      if is_digit c then
        match read_digits body 0 with
        | (n, EmptyString) => Some (sign * n)%Z
        | _ => None
        end
      else None
  | EmptyString => None
  end.

#[export] Instance integer_strconv : Strconv := {
  float64 := Z;
  ParseFloat := parse_int;
  float_lt := Z.ltb;
  float_le := Z.leb
}.

#[export] Instance nanosecond_time : TimeLib := {
  time_Parse _ _ := None;
  time_Format _ t := Itoa t;
  time_Today _ t := t
}.

Fixpoint skip_ws (s : string) : string :=
  match s with
  | String c s' => if is_space c then skip_ws s' else s
  | EmptyString => s
  end.

Fixpoint string_body (s acc : string) : option (string * string) :=
  match s with
  | EmptyString => None
  | String c s' =>
      if char_eqb c quote then Some (acc, s')
      else if char_eqb c "\" then
        match s' with
        | String d s'' => if char_eqb d quote || char_eqb d "\"
                          then string_body s'' (acc ++ str d) else None
        | EmptyString => None
        end
      else string_body s' (acc ++ str c)
  end.

Definition put {V : Type} (k : string) (v : V) (m : list (string * V)) :=
  (List.filter (fun kv => negb (String.eqb (fst kv) k)) m ++ [(k, v)])%list.

Fixpoint json_value (fuel : nat) (s : string) : option (value * string) :=
  match fuel with
  | O => None
  | S f =>
      let s := skip_ws s in
      match s with
      | EmptyString => None
      | String c r =>
          if char_eqb c quote then
            match string_body r "" with
            | Some (str, rest) => Some (VString str, rest)
            | None => None
            end
          else if char_eqb c "{" then
            match skip_ws r with
            | String "}" rest => Some (VMap [], rest)
            | r' => json_members f r' []
            end
          else if char_eqb c "[" then
            match skip_ws r with
            | String "]" rest => Some (VArray [], rest)
            | r' => json_elements f r' []
            end
          else if HasPrefix s "true" then Some (VBool true, slice_from s 4)
          else if HasPrefix s "false" then Some (VBool false, slice_from s 5)
          else if HasPrefix s "null" then Some (VNull, slice_from s 4)
          else
            let '(sign, body) := if char_eqb c "-" then ((-1)%Z, r) else (1%Z, s) in
            match body with
            | String d _ =>
                if is_digit d then
                  let '(n, rest) := read_digits body 0 in
                  match rest with
                  | String e _ => if char_eqb e "." || char_eqb e "e" || char_eqb e "E"
                                  then None else Some (VFloat64 (sign * n), rest)
                  | EmptyString => Some (VFloat64 (sign * n), rest)
                  end
                else None
            | EmptyString => None
            end
      end
  end
with json_members (fuel : nat) (s : string) (acc : list (string * value))
  : option (value * string) :=
  match fuel with
  | O => None
  | S f =>
      match skip_ws s with
      | String c r =>
          if char_eqb c quote then
            match string_body r "" with
            | Some (k, r1) =>
                match skip_ws r1 with
                | String ":" r2 =>
                    match json_value f r2 with
                    | Some (v, r3) =>
                        match skip_ws r3 with
                        | String "," r4 => json_members f r4 (put k v acc)
                        | String "}" r4 => Some (VMap (put k v acc), r4)
                        | _ => None
                        end
                    | None => None
                    end
                | _ => None
                end
            | None => None
            end
          else None
      | EmptyString => None
      end
  end
with json_elements (fuel : nat) (s : string) (acc : list value)
  : option (value * string) :=
  match fuel with
  | O => None
  | S f =>
      match json_value f s with
      | Some (v, r) =>
          match skip_ws r with
          | String "," r' => json_elements f r' (acc ++ [v])
          | String "]" r' => Some (VArray (acc ++ [v]), r')
          | _ => None
          end
      | None => None
      end
  end.

Definition json_object (s : string) : option (list (string * value)) :=
  match json_value (S (String.length s)) s with
  | Some (VMap kvs, rest) => if String.eqb (skip_ws rest) "" then Some kvs else None
  | _ => None
  end.

#[export] Instance json_decoders : Decoders := {
  json_Unmarshal := json_object;
  yaml_Unmarshal _ := None
}.

End Instances.

(* ------------------------------------------------------------------ *)
(** ** Example inputs, evaluated with the instances above *)

Module Scenarios.
Import Instances.
Local Open Scope string_scope.

Definition quoted (s : string) : string := dq ++ s ++ dq.

(** The raw line of the spec's scenario S2. *)
Definition raw_S2 : string :=
  "{" ++ quoted "level" ++ ":" ++ quoted "ERROR" ++ "," ++ quoted "status" ++ ":502," ++
  quoted "msg" ++ ":" ++ quoted "bad gateway" ++ "}".

(** A line as the tailer emits it: first line of [app.log], offset 0,
    emitted at wall-clock time [5]. *)
Definition emitted (raw : string) : LogLine := tailer_line "app.log" 1 raw 0 5.

Definition line_S2 : LogLine := ParseLogLine (emitted raw_S2).

(** Evaluating an advanced query on a line; [None] when it does not parse. *)
Definition eval_query (q : string) (line : LogLine) : option bool :=
  match ParseAdvancedQuery 0 q with
  | Ok e => Some (Evaluate e line)
  | _ => None
  end.

Definition raw_boom : string :=
  "{" ++ quoted "level" ++ ":" ++ quoted "ERROR" ++ "," ++ quoted "msg" ++ ":" ++
  quoted "boom" ++ "}".

Definition newline_event (raw : string) : TailerEvent :=
  mkTailerEvent EventNewLine "app.log" (Some (emitted raw)) "".

Definition clock : Z := 1000000000000.

(** A coordinator with store capacity 10 that received the [raw_boom]
    line. *)
Definition model_boom : Model :=
  fst (handleTailerEvent (NewModel 10) clock (newline_event raw_boom)).

(** The model after searching [q1] and then [q2]. *)
Definition after_two_searches (m : Model) (q1 q2 : string) : outcome (Model * option string) :=
  bind (search m (clock + 1) q1) (fun '(m1, _) => search m1 (clock + 2) q2).

Definition paused_model : Model :=
  mkModel (NewCircularBuffer 10) (NewCircularBuffer 10) NewFilterEngine [] 0 true "" "".

(** The engines of the C10 example. *)
Definition adv_engine : FilterEngine :=
  match SetAdvancedFilter NewFilterEngine 0 "level:ERROR" with
  | Ok (f, _) => f
  | _ => NewFilterEngine
  end.

Definition boom_options : FilterOptions := mkFilterOptions "boom" false false [] [] None.

Definition simple_engine : FilterEngine := fst (SetFilter adv_engine boom_options).

Definition line_boom : LogLine := ParseLogLine (emitted raw_boom).

(** A printable tree: a field, a negated field, a quoted phrase. *)
Definition round_trip_tree : QueryExpression :=
  AndExpression (FieldNode (mkFieldExpression "level" ":" "ERROR" None))
    (OrExpression (NotExpression (FieldNode (mkFieldExpression "src" ":!=" "db.log" None)))
                  (TextNode (mkTextExpression "timeout" true false None))).

End Scenarios.

(* ------------------------------------------------------------------ *)
(** ** The spec's description of the comparison operators *)

Section SpecComparisons.
Context `{Regexp} `{Strconv}.
Local Open Scope string_scope.

(** The four comparison operators: numeric when both sides are numbers,
    else lexicographic. *)
Definition numeric_cmp (op : string) (a b : float64) : bool :=
  if String.eqb op ":>" then float_lt b a
  else if String.eqb op ":<" then float_lt a b
  else if String.eqb op ":>=" then float_le b a
  else float_le a b.

Definition string_cmp (op : string) (a b : string) : bool :=
  if String.eqb op ":>" then str_ltb b a
  else if String.eqb op ":<" then str_ltb a b
  else if String.eqb op ":>=" then str_leb b a
  else str_leb a b.

(** A simple filter with only a time range. *)
Definition time_only (tr : TimeRange) : CompiledQuery :=
  mkCompiledQuery false false None "" [] (Some tr) [] [].

End SpecComparisons.

(* ------------------------------------------------------------------ *)
(** ** The printable fragment of advanced query trees

    The trees whose [String] form reads back as the same tree: field
    leaves whose printed token is one bare word of printable bytes, text
    leaves that are case-sensitive plain phrases, and [AND], [OR] and
    [NOT] nodes over them. *)

Fixpoint all_chars (f : ascii -> bool) (s : string) : bool :=
  match s with
  | EmptyString => true
  | String c s' => f c && all_chars f s'
  end.

(** A byte of a bare token: printable, not white space, not a parenthesis. *)
Definition plain_char (c : ascii) : bool :=
  let n := nat_of_ascii c in
  Nat.leb 33 n && Nat.leb n 126 && negb (char_eqb c "(") && negb (char_eqb c ")").

(** Some byte of [s] among the first [String.length kw] differs from the
    byte of [kw] at its index after upper-casing: [s] does not start with
    the keyword [kw]. *)
Definition keyword_mismatch (kw s : string) : bool :=
  existsb (fun i => match String.get i s, String.get i kw with
                    | Some c, Some k => negb (char_eqb (ascii_upper c) k)
                    | _, _ => false
                    end) (seq 0 (String.length kw)).

Definition plain_token (tok : string) : bool :=
  Nat.ltb 0 (String.length tok) && all_chars plain_char tok &&
  negb (HasPrefix tok dq) && negb (HasPrefix tok "time:[") &&
  Contains tok ":" && keyword_mismatch "NOT" tok.

Definition plain_text (x : string) : bool :=
  negb (ContainsChar x quote) && negb (ContainsChar x ":").

Section RoundTrip.
Context `{Regexp} `{TimeLib}.

Fixpoint Printable (t : QueryExpression) : Prop :=
  match t with
  | AndExpression l r | OrExpression l r => Printable l /\ Printable r
  | NotExpression x => Printable x
  | FieldNode fe =>
      plain_token (expr_String (FieldNode fe)) = true /\
      parseFieldExpression (expr_String (FieldNode fe)) = Ok fe
  | TextNode te =>
      te = mkTextExpression te.(Text) true false None /\ plain_text te.(Text) = true
  | TimeRangeExpression _ _ => False
  end.

(** The recursion depth the descent needs for a printed tree. *)
Fixpoint cost (t : QueryExpression) : nat :=
  match t with
  | AndExpression l r | OrExpression l r => 6 + cost l + cost r
  | NotExpression x => S (cost x)
  | _ => 2
  end.

End RoundTrip.

(* ------------------------------------------------------------------ *)
(** ** Positions in a query text

    Vocabulary of the round-trip proof: a string occurring at a position
    of the parser input, and the byte classes the scanners test. *)

(** [s] occurs in [input] at [p]. *)
Definition occurs (input : string) (p : nat) (s : string) : Prop :=
  forall i, i < String.length s -> String.get (p + i) input = String.get i s.

(** The bytes [skipWhitespace] skips. *)
Definition ws (c : ascii) : bool := char_eqb c " " || char_eqb c (ascii_of_nat 9).

(** [f] fails at [q], or [q] is past the end. *)
Definition stops (input : string) (f : ascii -> bool) (q : nat) : Prop :=
  match String.get q input with Some c => f c = false | None => True end.

(** Printable, non-blank bytes. *)
Definition graphic (c : ascii) : bool :=
  Nat.leb 33 (nat_of_ascii c) && Nat.leb (nat_of_ascii c) 126.

(** What may follow a bare token in a printed tree. *)
Definition follows (input : string) (q : nat) : Prop :=
  match String.get q input with
  | Some c => c = " "%char \/ c = ")"%char
  | None => True
  end.

(** The bytes a bare token of [parseToken] continues with. *)
Definition tokchar (c : ascii) : bool :=
  negb (isWhitespace c) && negb (char_eqb c "(") && negb (char_eqb c ")").


(* ------------------------------------------------------------------ *)
(** ** More reads of [CircularBuffer] *)

Section CircularBufferReads.
Context {A : Type}.

(** The slot of the [i]-th retained line, [cb.data[(cb.head+i)%cb.capacity]]. *)
Definition slot (cb : CircularBuffer A) (i : nat) : option A :=
  nth ((cb.(head) + i) mod cb.(capacity)) cb.(data) None.

(** [CircularBuffer.GetRange]: the Go [int] bounds are [Z]; [[]] is the
    nil slice. *)
Definition GetRange (cb : CircularBuffer A) (start end_ : Z) : list (option A) :=
  if (start <? 0)%Z || (Z.of_nat cb.(size) <=? start)%Z || (end_ <=? start)%Z then []
  else
    let end' := if (Z.of_nat cb.(size) <? end_)%Z then Z.of_nat cb.(size) else end_ in
    map (slot cb) (seq (Z.to_nat start) (Z.to_nat (end' - start))).

(** [CircularBuffer.GetLast] *)
Definition GetLast (cb : CircularBuffer A) (n : Z) : list (option A) :=
  if (n <=? 0)%Z || Nat.eqb cb.(size) 0 then []
  else
    let n' := if (Z.of_nat cb.(size) <? n)%Z then Z.of_nat cb.(size) else n in
    GetRange cb (Z.of_nat cb.(size) - n') (Z.of_nat cb.(size)).

(** [CircularBuffer.ForEach]; the callback threads the state [S] its Go
    closure captures and returns whether to go on. *)
Fixpoint forEach_loop {S : Type} (cb : CircularBuffer A) (fn : S -> option A -> S * bool)
         (idx : list nat) (st : S) : S :=
  match idx with
  | [] => st
  | i :: idx' =>
      let '(st', goOn) := fn st (slot cb i) in
      if goOn then forEach_loop cb fn idx' st' else st'
  end.

Definition ForEach {S : Type} (cb : CircularBuffer A) (fn : S -> option A -> S * bool)
           (st : S) : S :=
  forEach_loop cb fn (seq 0 cb.(size)) st.

(** The elements of [l] up to and including the first one [p] refuses. *)
Fixpoint take_through (p : A -> bool) (l : list A) : list A :=
  match l with
  | [] => []
  | x :: l' => x :: (if p x then take_through p l' else [])
  end.

End CircularBufferReads.

Section Rebuild.
Context `{Regexp} `{Decoders} `{TimeLib} `{Strconv}.

(** [rebuildFilteredLines]: the retained slots are never nil, so the
    [None] branch is not reached. *)
Definition rebuildFilteredLines (m : Model) : Model :=
  with_filtered m
    (ForEach m.(allLinesBuffer)
       (fun fb line =>
          (match line with
           | Some l => if Match m.(filter) l then Add fb l else fb
           | None => fb
           end, true))
       (Clear m.(filteredBuffer))).

End Rebuild.
(* ------------------------------------------------------------------ *)
(** ** [FilterEngine.GetMatchingIndices] and [GetMatchCount] *)

Section MatchScan.
Context `{Regexp} `{TimeLib} `{Strconv}.

(** The loop of [GetMatchingIndices] from index [i] on; [[]] is the nil
    slice. *)
Fixpoint matchingIndicesFrom (f : FilterEngine) (i : nat) (lines : list LogLine) : list nat :=
  match lines with
  | [] => []
  | line :: lines' =>
      if Match f line then i :: matchingIndicesFrom f (S i) lines'
      else matchingIndicesFrom f (S i) lines'
  end.

(** [GetMatchingIndices] *)
Definition GetMatchingIndices (f : FilterEngine) (lines : list LogLine) : list nat :=
  matchingIndicesFrom f 0 lines.

(** [GetMatchCount] *)
Definition GetMatchCount (f : FilterEngine) (lines : list LogLine) : nat :=
  fold_left (fun count line => if Match f line then S count else count) lines 0.

End MatchScan.

(* ------------------------------------------------------------------ *)
(** ** Scrolling and match navigation in the active pane (ui package)

    The functions act on the active pane and the active buffer, as
    [getActivePane] and [getActiveBuffer] return them (both are set by
    [NewModel], so the nil checks never fire); [isAll] says whether the
    pane is [m.allLogsPane].  Go [int]s are [Z]. *)

(** The fields of [LogPane] the scrolling reads or writes. *)
Record LogPane := mkLogPane {
  scrollY : Z;
  cursorY : Z;
  height : Z;
  userScrolled : bool
}.

(** [getContentHeight] *)
Definition getContentHeight (pane : LogPane) (isAll : bool) : Z :=
  let baseHeight := (pane.(height) - 3)%Z in
  let baseHeight := if isAll then (baseHeight - 1)%Z else baseHeight in
  if (baseHeight <? 1)%Z then 1%Z else baseHeight.

(** [buffer.Size() - pageSize], raised to 0, as the scrolling functions
    compute it. *)
Definition maxScroll (pane : LogPane) (isAll : bool) (buffer : CircularBuffer LogLine) : Z :=
  let ms := (Z.of_nat (Size buffer) - getContentHeight pane isAll)%Z in
  if (ms <? 0)%Z then 0%Z else ms.

(** [scrollDown] *)
Definition scrollDown (pane : LogPane) (isAll : bool) (buffer : CircularBuffer LogLine)
  : LogPane :=
  if Nat.eqb (Size buffer) 0 then pane
  else if (pane.(scrollY) <? maxScroll pane isAll buffer)%Z
  then mkLogPane (pane.(scrollY) + 1) pane.(cursorY) pane.(height) true
  else pane.

(** [scrollUp] *)
Definition scrollUp (pane : LogPane) : LogPane :=
  if (0 <? pane.(scrollY))%Z
  then mkLogPane (pane.(scrollY) - 1) pane.(cursorY) pane.(height) true
  else pane.

(** [pageDown] *)
Definition pageDown (pane : LogPane) (isAll : bool) (buffer : CircularBuffer LogLine)
  : LogPane :=
  if Nat.eqb (Size buffer) 0 then pane
  else
    let pageSize := getContentHeight pane isAll in
    let ms := maxScroll pane isAll buffer in
    let s := (pane.(scrollY) + pageSize)%Z in
    let s := if (ms <? s)%Z then ms else s in
    mkLogPane s pane.(cursorY) pane.(height) true.

(** [pageUp] *)
Definition pageUp (pane : LogPane) (isAll : bool) : LogPane :=
  let pageSize := getContentHeight pane isAll in
  let s := (pane.(scrollY) - pageSize)%Z in
  let s := if (s <? 0)%Z then 0%Z else s in
  mkLogPane s pane.(cursorY) pane.(height) true.

(** [goToTop] *)
Definition goToTop (pane : LogPane) : LogPane :=
  mkLogPane 0 0 pane.(height) true.

(** [goToBottom] *)
Definition goToBottom (pane : LogPane) (isAll : bool) (buffer : CircularBuffer LogLine)
  : LogPane :=
  if Nat.eqb (Size buffer) 0 then pane
  else
    let ms := maxScroll pane isAll buffer in
    mkLogPane ms (Z.of_nat (Size buffer) - 1 - ms) pane.(height) false.

(** [scrollToLine]: the line is centred when possible. *)
Definition scrollToLine (pane : LogPane) (isAll : bool) (buffer : CircularBuffer LogLine)
           (lineIndex : Z) : LogPane :=
  if Nat.eqb (Size buffer) 0 then pane
  else if (lineIndex <? 0)%Z || (Z.of_nat (Size buffer) <=? lineIndex)%Z then pane
  else
    let pageSize := getContentHeight pane isAll in
    let newScrollY := (lineIndex - Z.quot pageSize 2)%Z in
    let newScrollY := if (newScrollY <? 0)%Z then 0%Z else newScrollY in
    let ms := maxScroll pane isAll buffer in
    let newScrollY := if (ms <? newScrollY)%Z then ms else newScrollY in
    mkLogPane newScrollY (lineIndex - newScrollY) pane.(height) true.

(** The indices [a, a+1, ..., b-1] of a loop [for i := a; i < b; i++]. *)
Definition zrange (a b : Z) : list Z :=
  map (fun k => (a + Z.of_nat k)%Z) (seq 0 (Z.to_nat (b - a))).

(** [CircularBuffer.Get] at a Go [int] index. *)
Definition GetInt (buffer : CircularBuffer LogLine) (index : Z) : option LogLine :=
  if (index <? 0)%Z then None else Get buffer (Z.to_nat index).

Section Navigation.
Context `{Regexp} `{TimeLib} `{Strconv}.

(** The test of the search loops: [line != nil && m.filter.Match(line)]. *)
Definition lineMatches (f : FilterEngine) (buffer : CircularBuffer LogLine) (i : Z) : bool :=
  match GetInt buffer i with
  | Some line => Match f line
  | None => false
  end.

(** [nextMatch]: the active pane afterwards and the status message set,
    if any. *)
Definition nextMatch (f : FilterEngine) (pane : LogPane) (isAll : bool)
           (buffer : CircularBuffer LogLine) : LogPane * option string :=
  if negb (HasFilter f) then (pane, Some "No search filter active"%string)
  else if Nat.eqb (Size buffer) 0 then (pane, None)
  else
    let currentPos := (pane.(scrollY) + pane.(cursorY))%Z in
    match find (lineMatches f buffer) (zrange (currentPos + 1) (Z.of_nat (Size buffer))) with
    | Some i => (scrollToLine pane isAll buffer i, None)
    | None =>
        match find (lineMatches f buffer) (zrange 0 (currentPos + 1)) with
        | Some i => (scrollToLine pane isAll buffer i, None)
        | None => (pane, Some "No more matches"%string)
        end
    end.

(** [previousMatch]: the loops run downwards. *)
Definition previousMatch (f : FilterEngine) (pane : LogPane) (isAll : bool)
           (buffer : CircularBuffer LogLine) : LogPane * option string :=
  if negb (HasFilter f) then (pane, Some "No search filter active"%string)
  else if Nat.eqb (Size buffer) 0 then (pane, None)
  else
    let currentPos := (pane.(scrollY) + pane.(cursorY))%Z in
    match find (lineMatches f buffer) (rev (zrange 0 currentPos)) with
    | Some i => (scrollToLine pane isAll buffer i, None)
    | None =>
        match find (lineMatches f buffer) (rev (zrange currentPos (Z.of_nat (Size buffer)))) with
        | Some i => (scrollToLine pane isAll buffer i, None)
        | None => (pane, Some "No more matches"%string)
        end
    end.

(** The navigation keys of [Model.Update] and what they do to the active
    pane. *)
Inductive NavKey := KeyDown | KeyUp | KeyPageDown | KeyPageUp | KeyTop | KeyBottom
                  | KeyNext | KeyPrevious.

Definition navigate (f : FilterEngine) (key : NavKey) (pane : LogPane) (isAll : bool)
           (buffer : CircularBuffer LogLine) : LogPane :=
  match key with
  | KeyDown => scrollDown pane isAll buffer
  | KeyUp => scrollUp pane
  | KeyPageDown => pageDown pane isAll buffer
  | KeyPageUp => pageUp pane isAll
  | KeyTop => goToTop pane
  | KeyBottom => goToBottom pane isAll buffer
  | KeyNext => fst (nextMatch f pane isAll buffer)
  | KeyPrevious => fst (previousMatch f pane isAll buffer)
  end.

End Navigation.
(* ------------------------------------------------------------------ *)
(** ** The exporter's escaping and time filter (ui package) *)

Section Exporter.
Local Open Scope string_scope.

(** [strings.ReplaceAll s old new] for a one-byte [old], the only kind
    the exporter passes. *)
Fixpoint ReplaceAll (s : string) (old : ascii) (new : string) : string :=
  match s with
  | EmptyString => EmptyString
  | String c s' =>
      if char_eqb c old then new ++ ReplaceAll s' old new
      else String c (ReplaceAll s' old new)
  end.

Definition newline : ascii := ascii_of_nat 10.
Definition carriage_return : ascii := ascii_of_nat 13.

(** [Exporter.escapeCSV] *)
Definition escapeCSV (s : string) : string :=
  if ContainsAny s ("," ++ dq ++ str newline ++ str carriage_return) then
    dq ++ ReplaceAll s quote (dq ++ dq) ++ dq
  else s.

(** One record of [exportCSV]: [strings.Join(row, ",")] of the escaped
    fields, before its newline. *)
Definition csvRecord (row : list string) : string :=
  join "," (map escapeCSV row).

(** [Exporter.escapeHTML] *)
Definition escapeHTML (s : string) : string :=
  let s := ReplaceAll s "&" "&amp;" in
  let s := ReplaceAll s "<" "&lt;" in
  let s := ReplaceAll s ">" "&gt;" in
  let s := ReplaceAll s quote "&quot;" in
  let s := ReplaceAll s "'" "&#39;" in
  s.

(** [Exporter.filterByTimeRange] *)
Definition filterByTimeRange (lines : list LogLine) (timeRange : TimeRange) : list LogLine :=
  List.filter (fun line =>
                 if IsZero line.(Timestamp) then false
                 else After line.(Timestamp) timeRange.(tr_Start) &&
                      Before line.(Timestamp) timeRange.(tr_End))
              lines.

(** A reader of one CSV record with the quoting of RFC 4180: a field is
    either unquoted and runs to the next comma, or quoted, with each
    doubled quote inside standing for one quote. *)
Fixpoint csv_unquoted (s : string) : string * string :=
  match s with
  | EmptyString => ("", "")
  | String c s' =>
      if char_eqb c "," then ("", s)
      else let '(f, r) := csv_unquoted s' in (String c f, r)
  end.

Fixpoint csv_quoted (s : string) : option (string * string) :=
  match s with
  | EmptyString => None
  | String c s' =>
      if char_eqb c quote then
        match s' with
        | String c2 s'' =>
            if char_eqb c2 quote then
              option_map (fun '(f, r) => (String quote f, r)) (csv_quoted s'')
            else Some ("", s')
        | EmptyString => Some ("", "")
        end
      else option_map (fun '(f, r) => (String c f, r)) (csv_quoted s')
  end.

Definition csv_field (s : string) : option (string * string) :=
  match s with
  | String c s' => if char_eqb c quote then csv_quoted s' else Some (csv_unquoted s)
  | EmptyString => Some ("", "")
  end.

Fixpoint csv_fields (fuel : nat) (s : string) : option (list string) :=
  match fuel with
  | O => None
  | S fuel' =>
      match csv_field s with
      | Some (f, EmptyString) => Some [f]
      | Some (f, String c r) =>
          if char_eqb c "," then option_map (cons f) (csv_fields fuel' r) else None
      | None => None
      end
  end.

Definition read_csv_record (s : string) : option (list string) :=
  csv_fields (S (String.length s)) s.

(** A reader of HTML text that decodes the five character references
    [escapeHTML] writes. *)
Fixpoint html_unescape_aux (fuel : nat) (s : string) : string :=
  match fuel with
  | O => s
  | S fuel' =>
      match s with
      | EmptyString => EmptyString
      | String c s' =>
          if HasPrefix s "&amp;" then "&" ++ html_unescape_aux fuel' (slice_from s 5)
          else if HasPrefix s "&lt;" then "<" ++ html_unescape_aux fuel' (slice_from s 4)
          else if HasPrefix s "&gt;" then ">" ++ html_unescape_aux fuel' (slice_from s 4)
          else if HasPrefix s "&quot;" then str quote ++ html_unescape_aux fuel' (slice_from s 6)
          else if HasPrefix s "&#39;" then "'" ++ html_unescape_aux fuel' (slice_from s 5)
          else String c (html_unescape_aux fuel' s')
      end
  end.

Definition html_unescape (s : string) : string :=
  html_unescape_aux (String.length s) s.

End Exporter.
(* ------------------------------------------------------------------ *)
(** ** [Highlighter.removeOverlappingTokens] *)

(** [models.Token]; Go's [Start] and [End] are [tok_Start] and [tok_End]. *)
Record Token := mkToken {
  tok_Text : string;
  TokenType : string;
  tok_Start : Z;
  tok_End : Z
}.

(** The overlap test of the inner loop, for a new [token] and a kept
    [existing] one. *)
Definition overlaps (token existing : Token) : bool :=
  ((existing.(tok_Start) <=? token.(tok_Start))%Z && (token.(tok_Start) <? existing.(tok_End))%Z) ||
  ((existing.(tok_Start) <? token.(tok_End))%Z && (token.(tok_End) <=? existing.(tok_End))%Z) ||
  ((token.(tok_Start) <=? existing.(tok_Start))%Z && (existing.(tok_End) <=? token.(tok_End))%Z).

(** [removeOverlappingTokens] *)
Definition removeOverlappingTokens (tokens : list Token) : list Token :=
  if Nat.leb (length tokens) 1 then tokens
  else fold_left (fun filtered token =>
                    if existsb (overlaps token) filtered then filtered
                    else filtered ++ [token])
                 tokens [].

(** A token with a nonempty span, and two tokens whose spans do not
    overlap. *)
Definition wf_token (t : Token) : Prop := (tok_Start t < tok_End t)%Z.

Definition disjoint_tokens (a b : Token) : Prop :=
  (tok_End a <= tok_Start b \/ tok_End b <= tok_Start a)%Z.

(* ------------------------------------------------------------------ *)
(** ** Saved queries of the configuration ([config] package) *)

(** [models.SavedQuery] *)
Record SavedQuery := mkSavedQuery {
  sq_Name : string;
  sq_Query : string;
  sq_Description : string;
  sq_IsRegex : bool
}.

(** [Config.AddSavedQuery]: the [SavedQueries] slice afterwards.  The
    first query with the same name is replaced, otherwise the query is
    appended; the error of the [Save] that follows (writing the file) is
    not modelled. *)
Fixpoint AddSavedQuery (queries : list SavedQuery) (query : SavedQuery) : list SavedQuery :=
  match queries with
  | [] => [query]
  | existing :: queries' =>
      if String.eqb existing.(sq_Name) query.(sq_Name) then query :: queries'
      else existing :: AddSavedQuery queries' query
  end.

(** [Config.RemoveSavedQuery]: the first query with that name is cut out
    of the slice. *)
Fixpoint RemoveSavedQuery (queries : list SavedQuery) (name : string) : list SavedQuery :=
  match queries with
  | [] => []
  | query :: queries' =>
      if String.eqb query.(sq_Name) name then queries'
      else query :: RemoveSavedQuery queries' name
  end.

(** The saved query of a given name, as a user of the slice finds it. *)
Definition findSavedQuery (queries : list SavedQuery) (name : string) : option SavedQuery :=
  find (fun q => String.eqb q.(sq_Name) name) queries.
(* ------------------------------------------------------------------ *)
(** ** The walk of [GetParsedField] *)

(** The loop of [GetParsedField] over the parts of the path, the local
    [go] of its embedding written at top level. *)
Fixpoint parsedFieldWalk (parts : list string) (current : list (string * value)) : option value :=
  match parts with
  | [] => None
  | part :: rest =>
      match lookup part current with
      | Some v =>
          match rest with
          | [] => Some v
          | _ => match v with
                 | VMap nested => parsedFieldWalk rest nested
                 | _ => None
                 end
          end
      | None => None
      end
  end.

(* ------------------------------------------------------------------ *)
(** ** Concrete inputs for the scrolling, search, export and saved-query
    functions *)

Module ExtraScenarios.
Import Instances Scenarios.
Local Open Scope string_scope.

(** Twelve tailed lines, two of which contain [boom]. *)
Definition nav_lines : list LogLine :=
  map emitted ["a"; "boom"; "c"; "d"; "boom e"; "f"; "g"; "h"; "i"; "j"; "k"; "l"].

Definition nav_buffer : CircularBuffer LogLine := AddAll (NewCircularBuffer 50) nav_lines.

(** A pane eight rows high, cursor on line 2. *)
Definition nav_pane : LogPane := mkLogPane 0 2 8 false.

(** The simple filter for [boom]. *)
Definition boom_filter : FilterEngine := fst (SetFilter NewFilterEngine boom_options).

Definition nav_model : Model :=
  mkModel nav_buffer (AddAll (NewCircularBuffer 50) []) boom_filter [] 0 false "" "".

Definition csv_row : list string := ["id"; "a,b"; "say " ++ dq ++ "hi" ++ dq; ""].

Definition highlight_tokens : list Token :=
  [mkToken "ERROR" "level" 0 5; mkToken "ERR" "keyword" 0 3; mkToken "db" "source" 7 9].

Definition saved_queries : list SavedQuery :=
  [mkSavedQuery "errors" "level:ERROR" "all errors" false;
   mkSavedQuery "db" "source:db.log" "database" false].

Definition db_query : SavedQuery := mkSavedQuery "db" "source:db" "database, short" true.

Definition slow_query : SavedQuery := mkSavedQuery "slow" "duration:>1000" "slow requests" false.

End ExtraScenarios.


(* ================================================================== *)
(** * Proofs *)

(** ** Circular buffer *)

Lemma set_nth_length {B : Type} (l : list B) n x : length (set_nth l n x) = length l.
Proof. revert n; induction l; intros [|n]; simpl; auto. Qed.

Lemma nth_set_nth_eq {B : Type} (l : list B) n x d :
  n < length l -> nth n (set_nth l n x) d = x.
Proof.
  revert n; induction l; intros [|n] H; simpl in *; try lia; auto.
  all: apply IHl; lia.
Qed.

Lemma nth_set_nth_neq {B : Type} (l : list B) n m x d :
  m <> n -> nth m (set_nth l n x) d = nth m l d.
Proof.
  revert n m; induction l; intros [|n] [|m] H; simpl; auto; try lia.
  all: apply IHl; lia.
Qed.

Section CircularBufferProofs.
Context {A : Type}.

Lemma mod_add_inj (h a b c : nat) :
  a < c -> b < c -> (h + a) mod c = (h + b) mod c -> a = b.
Proof.
  intros Ha Hb E.
  pose proof (Nat.div_mod_eq (h + a) c) as E1.
  pose proof (Nat.div_mod_eq (h + b) c) as E2.
  rewrite E in E1.
  assert (Hq : (h + a) / c = (h + b) / c \/ (h + a) / c < (h + b) / c
               \/ (h + b) / c < (h + a) / c) by lia.
  destruct Hq as [Hq | [Hq | Hq]]; [lia | |]; exfalso; nia.
Qed.

(** The representation invariant after appending [xs] to a fresh buffer of
    capacity [c]: the retained lines are the last [min (length xs) c]
    appended ones, [Get i] being the line appended at position
    [length xs - size + i]. *)
Definition cb_inv (c : nat) (xs : list A) (cb : CircularBuffer A) : Prop :=
  cb.(capacity) = c /\ length cb.(data) = c /\ cb.(head) < c /\
  cb.(size) = Nat.min (length xs) c /\
  cb.(tail) = (cb.(head) + cb.(size)) mod c /\
  forall i, i < cb.(size) ->
    nth ((cb.(head) + i) mod c) cb.(data) None =
    nth_error xs (length xs - cb.(size) + i).

Lemma cb_inv_new (c : nat) : 0 < c -> cb_inv c [] (NewCircularBuffer c).
Proof.
  intros Hc; unfold cb_inv, NewCircularBuffer; simpl.
  rewrite repeat_length. repeat split; try lia.
  all: try (intros; lia).
  all: rewrite Nat.mod_small; lia.
Qed.

Lemma cb_inv_add (c : nat) xs cb x :
  0 < c -> cb_inv c xs cb -> cb_inv c (xs ++ [x]) (Add cb x).
Proof.
  intros Hc (Hcap & Hlen & Hh & Hs & Ht & Hget).
  unfold cb_inv, Add. rewrite Hcap, length_app. simpl.
  destruct (Nat.ltb_spec cb.(size) c) as [Hlt | Hge]; simpl.
  - (* not full: the line goes after the retained ones *)
    assert (Hsx : cb.(size) = length xs) by lia.
    assert (Hmin : Nat.min (length xs + 1) c = size cb + 1) by lia.
    rewrite set_nth_length, Hmin.
    split; [reflexivity|]. split; [assumption|]. split; [assumption|].
    split; [reflexivity|]. split.
    + rewrite Ht, Nat.Div0.add_mod_idemp_l; f_equal; lia.
    + intros i Hi.
      destruct (Nat.eq_dec i cb.(size)) as [-> | Hne].
      * rewrite <- Ht, nth_set_nth_eq by (rewrite Hlen, Ht; apply Nat.mod_upper_bound; lia).
        rewrite nth_error_app2 by lia.
        replace (length xs + 1 - (size cb + 1) + size cb - length xs) with 0 by lia.
        reflexivity.
      * rewrite nth_set_nth_neq.
        -- rewrite Hget by lia. rewrite nth_error_app1 by lia. f_equal; lia.
        -- rewrite Ht; intros E; apply mod_add_inj in E; lia.
  - (* full: the oldest line is overwritten and [head] advances *)
    assert (Hsc : cb.(size) = c) by lia.
    assert (Hxc : c <= length xs) by lia.
    assert (Hmin : Nat.min (length xs + 1) c = size cb) by lia.
    assert (Htl' : cb.(tail) = cb.(head)).
    { rewrite Ht, Hsc. replace (head cb + c) with (head cb + 1 * c) by lia.
      rewrite Nat.Div0.mod_add. apply Nat.mod_small; lia. }
    rewrite set_nth_length, Hmin.
    split; [reflexivity|]. split; [assumption|].
    split; [apply Nat.mod_upper_bound; lia|].
    split; [reflexivity|]. split.
    + rewrite Htl', Hsc, Nat.Div0.add_mod_idemp_l.
      replace (head cb + 1 + c) with (head cb + 1 + 1 * c) by lia.
      rewrite Nat.Div0.mod_add. reflexivity.
    + intros i Hi.
      rewrite Nat.Div0.add_mod_idemp_l.
      destruct (Nat.eq_dec (S i) c) as [Hic | Hne].
      * replace (head cb + 1 + i) with (head cb + 1 * c) by lia.
        rewrite Nat.Div0.mod_add, Nat.mod_small by lia.
        rewrite <- Htl', nth_set_nth_eq by lia.
        rewrite nth_error_app2 by lia.
        replace (length xs + 1 - size cb + i - length xs) with 0 by lia.
        reflexivity.
      * rewrite nth_set_nth_neq.
        -- replace (head cb + 1 + i) with (head cb + S i) by lia.
           rewrite Hget by lia. rewrite nth_error_app1 by lia. f_equal; lia.
        -- rewrite Htl'. intros E.
           assert (E' : (head cb + S i) mod c = (head cb + 0) mod c).
           { rewrite Nat.add_0_r, (Nat.mod_small (head cb)) by lia.
             rewrite <- E; f_equal; lia. }
           apply mod_add_inj in E'; lia.
Qed.

Lemma cb_inv_AddAll (c : nat) xs ys cb :
  0 < c -> cb_inv c xs cb -> cb_inv c (xs ++ ys) (AddAll cb ys).
Proof.
  revert xs cb; induction ys as [|y ys IH]; intros xs cb Hc H; simpl.
  - rewrite app_nil_r; exact H.
  - replace (xs ++ y :: ys) with ((xs ++ [y]) ++ ys) by (rewrite <- app_assoc; reflexivity).
    apply IH; auto. apply cb_inv_add; auto.
Qed.

Lemma cb_get_AddAll (c : nat) (xs : list A) :
  0 < c ->
  let cb := AddAll (NewCircularBuffer c) xs in
  Size cb = Nat.min (length xs) c /\
  forall i, i < Size cb -> Get cb i = nth_error xs (length xs - Size cb + i).
Proof.
  intros Hc cb.
  destruct (cb_inv_AddAll c [] xs (NewCircularBuffer c) Hc (cb_inv_new c Hc))
    as (Hcap & _ & _ & Hs & _ & Hget).
  simpl in *. unfold Size, Get; fold cb in Hcap, Hs, Hget |- *.
  split; [exact Hs|].
  intros i Hi. rewrite Hcap. destruct (Nat.ltb_spec i (size cb)); [|lia].
  apply Hget; auto.
Qed.

End CircularBufferProofs.

(** C4. For every capacity [c > 0] and every sequence [xs] of lines
    appended to a fresh circular buffer of capacity [c]: afterwards
    [Size <= c]; [Get (Size - 1)] is the most recently appended line; and
    for [i < j < Size] the line returned by [Get i] was appended (at
    position [p] of [xs]) before the line returned by [Get j] (at position
    [q > p]). *)
Theorem CircularBuffer_capacity_order (A : Type) (c : nat) (xs : list A) :
  0 < c ->
  let cb := AddAll (NewCircularBuffer c) xs in
  Size cb <= c /\
  (forall ys x, xs = ys ++ [x] -> Get cb (Size cb - 1) = Some x) /\
  (forall i j, i < j < Size cb ->
     exists p q, p < q < length xs /\
       Get cb i = nth_error xs p /\ Get cb j = nth_error xs q).
Proof.
  intros Hc cb.
  destruct (cb_get_AddAll c xs Hc) as [Hs Hget]; fold cb in Hs, Hget.
  split; [|split].
  - rewrite Hs; apply Nat.le_min_r.
  - intros ys x ->.
    rewrite length_app in Hs; simpl in Hs.
    assert (Hpos : 0 < Size cb) by (rewrite Hs; apply Nat.min_glb_lt; lia).
    assert (Hle : Size cb <= length ys + 1) by (rewrite Hs; apply Nat.le_min_l).
    rewrite Hget by lia. rewrite length_app; simpl.
    rewrite nth_error_app2 by lia.
    replace (length ys + 1 - Size cb + (Size cb - 1) - length ys) with 0 by lia.
    reflexivity.
  - intros i j Hij.
    exists (length xs - Size cb + i), (length xs - Size cb + j).
    split; [lia|]. split; apply Hget; lia.
Qed.

Lemma CircularBuffer_capacity_order_witness :
  0 < 3 /\
  let cb := AddAll (NewCircularBuffer 3) [1; 2; 3; 4; 5] in
  Size cb <= 3 /\
  (forall ys x, [1; 2; 3; 4; 5] = ys ++ [x] -> Get cb (Size cb - 1) = Some x) /\
  (forall i j, i < j < Size cb ->
     exists p q, p < q < length [1; 2; 3; 4; 5] /\
       Get cb i = nth_error [1; 2; 3; 4; 5] p /\
       Get cb j = nth_error [1; 2; 3; 4; 5] q).
Proof.
  split; [lia|]. apply (CircularBuffer_capacity_order nat 3 [1; 2; 3; 4; 5]). lia.
Defined.

(** ** Rotation detection *)

(** C5 (counterexample). A file whose size is unchanged and whose
    modification time moved two minutes backward is not reported as
    rotated, although the specified condition (c) holds; a file whose
    modification time moved two minutes forward is reported as rotated. *)
Lemma checkRotation_backward_mtime_counterexample :
  let fw := mkFileWatcher "app.log" 0 100 (10 * Minute) 0 false in
  fst (checkRotation fw (Some (mkFileInfo 100 (8 * Minute)))) = false /\
  rotated_as_specified fw (Some (mkFileInfo 100 (8 * Minute))) = true /\
  fst (checkRotation fw (Some (mkFileInfo 100 (12 * Minute)))) = true /\
  rotated_as_specified fw (Some (mkFileInfo 100 (12 * Minute))) = false.
Proof. vm_compute. repeat split. Qed.

(** C5 (amended). The follower reports a rotation exactly when stat
    fails, the current size is below the last known size, or the
    modification time is more than one minute AFTER the last known one;
    the check never returns an error. *)
Theorem checkRotation_iff (fw : FileWatcher) (stat : option FileInfo) :
  snd (checkRotation fw stat) = None /\
  (fst (checkRotation fw stat) = true <->
   stat = None \/
   exists info, stat = Some info /\
     ((info_Size info < lastSize fw)%Z \/
      (lastModTime fw + Minute < info_ModTime info)%Z)).
Proof.
  destruct stat as [info|]; simpl.
  - unfold After.
    destruct (Z.ltb_spec (info_Size info) (lastSize fw)) as [H1|H1];
    destruct (Z.ltb_spec (lastModTime fw + Minute) (info_ModTime info)) as [H2|H2];
    simpl; split; auto; split; intros Hx; try discriminate;
      try (right; exists info; split; auto; lia);
      destruct Hx as [Hx | [i [Hi Hx]]]; try discriminate;
      injection Hi as ->; lia.
  - split; auto; split; auto.
Qed.

(* ------------------------------------------------------------------ *)
(** ** The parser *)

Section ParserProofs.
Context `{Regexp} `{Decoders} `{TimeLib}.
Local Opaque extractTimestamp extractLevel.

Lemma tryParseJSON_result l :
  tryParseJSON l = match json_result (Raw l) with
                   | Some p => (true, store_parsed l p)
                   | None => (false, l)
                   end.
Proof.
  unfold tryParseJSON, json_result.
  destruct (negb _ || negb _); [reflexivity|].
  destruct (json_Unmarshal _); reflexivity.
Qed.

Lemma tryParseYAML_result l :
  tryParseYAML l = match yaml_result (Raw l) with
                   | Some p => (true, store_parsed l p)
                   | None => (false, l)
                   end.
Proof.
  unfold tryParseYAML, yaml_result.
  destruct (negb _); [reflexivity|].
  destruct (_ || _); [reflexivity|].
  destruct (yaml_Unmarshal _) as [p|]; [|reflexivity].
  destruct (Nat.ltb _ _); reflexivity.
Qed.

Lemma ParseLogLine_result l :
  ParseLogLine l =
  if String.eqb (Raw l) "" then l
  else match json_result (Raw l) with
       | Some p => store_parsed l p
       | None => match yaml_result (Raw l) with
                 | Some p => store_parsed l p
                 | None => parseUnstructured l
                 end
       end.
Proof.
  unfold ParseLogLine. rewrite tryParseJSON_result, tryParseYAML_result.
  destruct (String.eqb _ _); [reflexivity|].
  destruct (json_result _); [reflexivity|].
  destruct (yaml_result _); reflexivity.
Qed.

Lemma store_parsed_Raw l p : Raw (store_parsed l p) = Raw l.
Proof.
  unfold store_parsed.
  destruct (extractTimestampFromParsed p), (extractLevelFromParsed p); reflexivity.
Qed.

Lemma store_parsed_idem l p : store_parsed (store_parsed l p) p = store_parsed l p.
Proof.
  unfold store_parsed.
  destruct (extractTimestampFromParsed p), (extractLevelFromParsed p); reflexivity.
Qed.

Lemma parseUnstructured_Raw l : Raw (parseUnstructured l) = Raw l.
Proof.
  unfold parseUnstructured.
  destruct (IsZero (Timestamp l)); [destruct (negb (IsZero _))|];
    cbn; destruct (String.eqb _ ""); try destruct (negb (String.eqb _ ""));
    reflexivity.
Qed.

Lemma parseUnstructured_idem l :
  parseUnstructured (parseUnstructured l) = parseUnstructured l.
Proof.
  destruct l as [id src raw ts pd lv off ln].
  unfold parseUnstructured, set_Timestamp, set_Level; cbn.
  destruct (IsZero ts) eqn:E1; [destruct (IsZero (extractTimestamp raw)) eqn:E2|];
    cbn; destruct (String.eqb lv "") eqn:E3;
    try destruct (String.eqb (extractLevel raw) "") eqn:E4;
    cbn; rewrite ?E1, ?E2, ?E3, ?E4; cbn; rewrite ?E1, ?E2, ?E3, ?E4;
    reflexivity.
Qed.

(** C8.  Parsing a line twice leaves it exactly as parsing it once: the
    parsed mapping, the timestamp, the level and every other field.  This
    holds for every decoder, regular-expression engine and time library,
    as long as they are functions of their input. *)
Theorem ParseLogLine_idempotent (l : LogLine) :
  ParseLogLine (ParseLogLine l) = ParseLogLine l.
Proof.
  rewrite (ParseLogLine_result l).
  destruct (String.eqb (Raw l) "") eqn:E0.
  - rewrite ParseLogLine_result, E0. reflexivity.
  - destruct (json_result (Raw l)) as [p|] eqn:Ej.
    + rewrite ParseLogLine_result, store_parsed_Raw, E0, Ej.
      apply store_parsed_idem.
    + destruct (yaml_result (Raw l)) as [p|] eqn:Ey.
      * rewrite ParseLogLine_result, store_parsed_Raw, E0, Ej, Ey.
        apply store_parsed_idem.
      * rewrite ParseLogLine_result, parseUnstructured_Raw, E0, Ej, Ey.
        apply parseUnstructured_idem.
Qed.

End ParserProofs.

(* ------------------------------------------------------------------ *)
(** ** The filter engine *)

Section EngineProofs.
Context `{Regexp} `{TimeLib} `{Strconv}.
Local Open Scope string_scope.

Lemma SetFilter_advancedExpression (f : FilterEngine) (o : FilterOptions) :
  advancedExpression (fst (SetFilter f o)) = advancedExpression f.
Proof. unfold SetFilter. destruct (compileQuery o); reflexivity. Qed.

Lemma SetFilter_error_keeps_Match (f f' : FilterEngine) (o : FilterOptions) (e : string) :
  SetFilter f o = (f', Some e) ->
  compiledQuery f' = compiledQuery f /\ advancedExpression f' = advancedExpression f /\
  forall line, Match f' line = Match f line.
Proof.
  unfold SetFilter. destruct (compileQuery o); intro E; inversion E; subst; cbn;
    repeat split; intro line; unfold Match; reflexivity.
Qed.

Lemma SetAdvancedFilter_error_keeps (f f' : FilterEngine) (now : Z) (q e : string) :
  SetAdvancedFilter f now q = Ok (f', Some e) -> f' = f.
Proof.
  unfold SetAdvancedFilter. destruct (String.eqb q ""); [intro E; discriminate E|].
  destruct (ParseAdvancedQuery now q); intro E; inversion E; reflexivity.
Qed.

Lemma SetAdvancedFilter_removes_only_on_empty (g g' : FilterEngine) (now : Z) (q : string)
      (e : option string) :
  advancedExpression g <> None -> SetAdvancedFilter g now q = Ok (g', e) ->
  advancedExpression g' = None -> q = "".
Proof.
  intros Hg. unfold SetAdvancedFilter.
  destruct (String.eqb q "") eqn:Eq.
  - intros _ _. apply String.eqb_eq. exact Eq.
  - destruct (ParseAdvancedQuery now q); intro E; inversion E; subst; cbn; intro N.
    + discriminate N.
    + contradiction.
Qed.

(** C10.  After a successful [SetAdvancedFilter q] and a successful
    [SetFilter options], [Match] still evaluates the tree [q] parsed
    into: [Match] prefers the advanced expression, [SetFilter] never
    changes it, [SetAdvancedFilter] only removes it on the empty query
    (through [Clear]), and [Clear] removes it, after which nothing
    matches. *)
Theorem advanced_expression_precedence (f : FilterEngine) (now : Z) (q : string)
        (f1 : FilterEngine) (options : FilterOptions) (f2 : FilterEngine) :
  q <> "" ->
  SetAdvancedFilter f now q = Ok (f1, None) ->
  SetFilter f1 options = (f2, None) ->
  (exists t, ParseAdvancedQuery now q = Ok t /\ advancedExpression f2 = Some t /\
             forall line, Match f2 line = Evaluate t line) /\
  (forall g o, advancedExpression (fst (SetFilter g o)) = advancedExpression g) /\
  (forall g now' q' g' e, advancedExpression g <> None ->
     SetAdvancedFilter g now' q' = Ok (g', e) -> advancedExpression g' = None -> q' = "") /\
  (forall g line, advancedExpression (FilterClear g) = None /\ Match (FilterClear g) line = false).
Proof.
  intros Hq Ha Hs. repeat split.
  - unfold SetAdvancedFilter in Ha.
    destruct (String.eqb q "") eqn:Eq; [apply String.eqb_eq in Eq; contradiction|].
    destruct (ParseAdvancedQuery now q) as [t| | |] eqn:Ep; inversion Ha; subst.
    exists t. split; [reflexivity|].
    assert (A : advancedExpression f2 = Some t).
    { change f2 with (fst (f2, @None string)). rewrite <- Hs.
      rewrite SetFilter_advancedExpression. reflexivity. }
    split; [exact A|]. intro line. unfold Match. rewrite A. reflexivity.
  - intros g o. apply SetFilter_advancedExpression.
  - intros g now' q' g' e. apply SetAdvancedFilter_removes_only_on_empty.
Qed.

(** C7 (failing input).  A query that is a single double-quote byte makes
    [SetAdvancedFilter] panic with an out-of-range slice instead of
    returning an error, whatever the engine's state; so does the search
    input [level:ERROR AND] followed by a double quote. *)
Theorem SetAdvancedFilter_lone_quote_panics :
  (forall (f : FilterEngine) (now : Z),
     SetAdvancedFilter f now dq = Panic "runtime error: slice bounds out of range [1:0]") /\
  (forall `{Decoders} (m : Model) (now : Z),
     search m now ("level:ERROR AND " ++ dq) =
     Panic "runtime error: slice bounds out of range [1:0]").
Proof. split; intros; vm_compute; reflexivity. Qed.

End EngineProofs.


(* ------------------------------------------------------------------ *)
(** ** Comparisons, time ranges and pausing *)

Section SemanticsProofs.
Context `{Regexp} `{Decoders} `{TimeLib} `{Strconv}.
Local Open Scope string_scope.
Local Opaque extractTimestamp extractLevel.

Lemma negb_Before (t s : Z) : negb (Before t s) = (s <=? t)%Z.
Proof. unfold Before. rewrite Z.ltb_antisym, negb_involutive. reflexivity. Qed.

Lemma negb_After (t e : Z) : negb (After t e) = (t <=? e)%Z.
Proof. unfold After. rewrite Z.ltb_antisym, negb_involutive. reflexivity. Qed.

(** C2 (amended).  A field expression with [:>], [:<], [:>=] or [:<=]
    compares numerically when both the field's value and the query value
    parse as numbers, and byte-wise lexicographically otherwise; [:] is
    case-insensitive equality of the rendered value.  On the line parsed
    from the S2 raw line, [status:500] and [level:WARN AND status:>=500]
    do not match. *)
Theorem field_comparison_semantics :
  Forall (fun op => forall line field value pattern,
            Evaluate (FieldNode (mkFieldExpression field op value pattern)) line =
            match ParseFloat (extractFieldValue line field), ParseFloat value with
            | Some a, Some b => numeric_cmp op a b
            | _, _ => string_cmp op (extractFieldValue line field) value
            end)
         [":>"; ":<"; ":>="; ":<="] /\
  (forall line field value pattern,
     Evaluate (FieldNode (mkFieldExpression field ":" value pattern)) line =
     EqualFold (extractFieldValue line field) value) /\
  Scenarios.eval_query "status:500" Scenarios.line_S2 = Some false /\
  Scenarios.eval_query "level:WARN AND status:>=500" Scenarios.line_S2 = Some false.
Proof.
  split; [|split; [|split]].
  - repeat constructor; intros line field value pattern;
      cbn [Evaluate Operator Value Field];
      unfold matchFieldExpression, matchComparison, numeric_cmp, string_cmp;
      cbn [Operator Value String.eqb Ascii.eqb Bool.eqb orb negb];
      destruct (ParseFloat (extractFieldValue line field)),
               (ParseFloat value); reflexivity.
  - intros. reflexivity.
  - vm_compute. reflexivity.
  - vm_compute. reflexivity.
Qed.

(** C3 (amended).  The [TimeRange] node is false on a line whose
    timestamp is the zero time and otherwise checks
    [Start <= Timestamp <= End]; the time axis of a simple filter lets a
    zero timestamp pass.  There is no separate provisional timestamp:
    the tailer stamps each line with the wall clock, and the parser keeps
    that stamp unless it finds a timestamp field (structured line) or a
    timestamp in the text (unstructured line with a zero stamp). *)
Theorem time_range_semantics (line : LogLine) (s e : Z) (tr : TimeRange)
        (path text : string) (n : nat) (off now : Z) :
  Evaluate (TimeRangeExpression s e) line =
    negb (IsZero (Timestamp line)) && (s <=? Timestamp line)%Z && (Timestamp line <=? e)%Z /\
  matchLine line (time_only tr) =
    IsZero (Timestamp line) ||
    ((tr_Start tr <=? Timestamp line)%Z && (Timestamp line <=? tr_End tr)%Z) /\
  Timestamp (tailer_line path n text off now) = now /\
  Timestamp (ParseLogLine line) =
    (if String.eqb (Raw line) "" then Timestamp line
     else match json_result (Raw line) with
          | Some p => match extractTimestampFromParsed p with
                      | Some t => t
                      | None => Timestamp line
                      end
          | None =>
              match yaml_result (Raw line) with
              | Some p => match extractTimestampFromParsed p with
                          | Some t => t
                          | None => Timestamp line
                          end
              | None => if IsZero (Timestamp line) &&
                           negb (IsZero (extractTimestamp (Raw line)))
                        then extractTimestamp (Raw line) else Timestamp line
              end
          end).
Proof.
  split; [|split; [|split]].
  - cbn [Evaluate]. destruct (IsZero (Timestamp line)); [reflexivity|].
    rewrite negb_Before, negb_After. reflexivity.
  - unfold matchLine, time_only; cbn.
    destruct (IsZero (Timestamp line)); cbn; [reflexivity|].
    rewrite negb_orb, negb_Before, negb_After.
    destruct ((tr_Start tr <=? Timestamp line)%Z), ((Timestamp line <=? tr_End tr)%Z);
      reflexivity.
  - reflexivity.
  - rewrite ParseLogLine_result.
    destruct (String.eqb (Raw line) ""); [reflexivity|].
    destruct (json_result (Raw line)) as [p|];
      [|destruct (yaml_result (Raw line)) as [p|]].
    1,2: unfold store_parsed;
         destruct (extractTimestampFromParsed p), (extractLevelFromParsed p); reflexivity.
    destruct line as [id src raw ts pd lv off' ln].
    unfold parseUnstructured, set_Timestamp, set_Level; cbn [Timestamp Raw Level].
    destruct (IsZero ts), (IsZero (extractTimestamp raw)); cbn;
      destruct (String.eqb lv ""); try destruct (negb (String.eqb (extractLevel raw) ""));
      reflexivity.
Qed.

(** C6 (amended).  A [NewLine] event handled while paused leaves the
    whole model unchanged (both stores, the pending batch, the filter),
    and the event's line is not parsed: it stays as the tailer emitted
    it. *)
Theorem paused_newline_untouched (all filtered : CircularBuffer LogLine)
        (f : FilterEngine) (pending : list LogLine) (lp : Z) (si sm : string)
        (now : Z) (src msg : string) (line : option LogLine) :
  let m := mkModel all filtered f pending lp true si sm in
  handleTailerEvent m now (mkTailerEvent EventNewLine src line msg) = (m, line).
Proof. destruct line; reflexivity. Qed.

End SemanticsProofs.

(* ------------------------------------------------------------------ *)
(** ** Printing and parsing advanced queries

    The descent of [parseUnaryExpression] reads back, at any position of
    any input, the printed form of a printable tree. *)

Section RoundTripProofs.
Context `{Regexp} `{TimeLib}.
Local Open Scope string_scope.

Lemma str_length_app (s1 s2 : string) :
  String.length (s1 ++ s2) = String.length s1 + String.length s2.
Proof. induction s1; simpl; auto. Qed.

Lemma get_app_l (s1 s2 : string) n :
  n < String.length s1 -> String.get n (s1 ++ s2) = String.get n s1.
Proof.
  revert n; induction s1 as [|c s1 IH]; intros n Hn; simpl in *; [lia|].
  destruct n; simpl; auto. apply IH; lia.
Qed.

Lemma get_app_r (s1 s2 : string) n :
  String.get (String.length s1 + n) (s1 ++ s2) = String.get n s2.
Proof. induction s1; simpl; auto. Qed.

Lemma get_lt (s : string) n c : String.get n s = Some c -> n < String.length s.
Proof.
  revert n; induction s as [|d s IH]; intros [|n] Hg; simpl in *;
    try discriminate; try lia.
  specialize (IH n Hg); lia.
Qed.

Lemma get_ge (s : string) n : String.length s <= n -> String.get n s = None.
Proof.
  revert n; induction s as [|d s IH]; intros [|n] Hn; simpl in *; auto; try lia.
  apply IH; lia.
Qed.

Lemma get_substring (s : string) n m i :
  String.get i (substring n m s) =
  if Nat.ltb i m then String.get (n + i) s else None.
Proof.
  revert n m i; induction s as [|c s IH]; intros n m i.
  - destruct n, m, i; simpl; auto; destruct (Nat.ltb _ _); auto.
  - destruct n as [|n].
    + destruct m as [|m]; [destruct i; reflexivity|].
      destruct i as [|i]; [reflexivity|].
      simpl. rewrite IH. simpl. reflexivity.
    + simpl. apply IH.
Qed.

Lemma string_ext (s t : string) :
  (forall i, String.get i s = String.get i t) -> s = t.
Proof.
  revert t; induction s as [|c s IH]; intros [|d t] E.
  - reflexivity.
  - specialize (E 0); discriminate.
  - specialize (E 0); discriminate.
  - pose proof (E 0) as E0; simpl in E0; injection E0 as ->.
    f_equal. apply IH. intro i. exact (E (S i)).
Qed.

Lemma get_ToUpper (s : string) i :
  String.get i (ToUpper s) = option_map ascii_upper (String.get i s).
Proof.
  unfold ToUpper; revert i; induction s as [|c s IH]; intros [|i]; simpl; auto.
Qed.

Lemma occurs_app input p s1 s2 :
  occurs input p (s1 ++ s2) ->
  occurs input p s1 /\ occurs input (p + String.length s1) s2.
Proof.
  intros O; split; intros i Hi.
  - rewrite O by (rewrite str_length_app; lia). apply get_app_l; lia.
  - replace (p + String.length s1 + i) with (p + (String.length s1 + i)) by lia.
    rewrite O by (rewrite str_length_app; lia). apply get_app_r.
Qed.

Lemma occurs_self s : occurs s 0 s.
Proof. intros i _; reflexivity. Qed.

Lemma get_in (s : string) i :
  i < String.length s -> exists c, String.get i s = Some c.
Proof.
  revert i; induction s as [|d s IH]; intros [|i] Hi; simpl in *; try lia; eauto.
  apply IH; lia.
Qed.

Lemma occurs_bound input p s :
  0 < String.length s -> occurs input p s ->
  p + String.length s <= String.length input.
Proof.
  intros Hl O.
  destruct (get_in s (String.length s - 1) ltac:(lia)) as [c E].
  specialize (O (String.length s - 1) ltac:(lia)). rewrite E in O.
  apply get_lt in O; lia.
Qed.

Lemma occurs_substring input p s :
  occurs input p s -> substring p (String.length s) input = s.
Proof.
  intros O; apply string_ext; intro i.
  rewrite get_substring. destruct (Nat.ltb_spec i (String.length s)).
  - apply O; auto.
  - symmetry; apply get_ge; lia.
Qed.

Lemma occurs_slice input p s :
  occurs input p s -> slice input p (p + String.length s) = s.
Proof.
  intros O; unfold slice. replace (p + String.length s - p) with (String.length s) by lia.
  apply occurs_substring; auto.
Qed.

Lemma scan_run input f k : forall n p,
  k <= n ->
  (forall i, i < k -> exists c, String.get (p + i) input = Some c /\ f c = true) ->
  stops input f (p + k) ->
  scan_while input f n p = p + k.
Proof.
  induction k as [|k IH]; intros n p Hk Hc Hs.
  - rewrite Nat.add_0_r in *. destruct n; simpl; auto.
    unfold stops in Hs. destruct (String.get p input); auto. rewrite Hs; auto.
  - destruct n as [|n]; [lia|]. simpl.
    destruct (Hc 0 ltac:(lia)) as [c [Hg Hf]]. rewrite Nat.add_0_r in Hg.
    rewrite Hg, Hf. rewrite (IH n (S p)); [lia|lia| |].
    + intros i Hi. destruct (Hc (S i) ltac:(lia)) as [d Hd].
      replace (S p + i) with (p + S i) by lia. eauto.
    + replace (S p + k) with (p + S k) by lia. auto.
Qed.

Lemma skip_stop input p : stops input ws p -> skipWhitespace input p = p.
Proof.
  intros Hs. unfold skipWhitespace.
  rewrite (scan_run input ws 0); [lia|lia| |rewrite Nat.add_0_r; exact Hs].
  intros; lia.
Qed.

Lemma skip_one input p :
  String.get p input = Some " "%char -> stops input ws (p + 1) ->
  skipWhitespace input p = p + 1.
Proof.
  intros Hg Hs. unfold skipWhitespace. pose proof (get_lt _ _ _ Hg).
  rewrite (scan_run input ws 1); [reflexivity|lia| |exact Hs].
  intros i Hi. replace i with 0 by lia. rewrite Nat.add_0_r. eauto.
Qed.

Lemma matchKeyword_false input kw p i c k :
  skipWhitespace input p = p -> i < String.length kw ->
  String.get (p + i) input = Some c -> String.get i kw = Some k ->
  ascii_upper c <> k ->
  matchKeyword input kw p = (false, p).
Proof.
  intros Hs Hi Hc Hk Hne. unfold matchKeyword. rewrite Hs.
  destruct (Nat.ltb _ _); [reflexivity|].
  destruct (String.eqb _ kw) eqn:E; [|reflexivity].
  apply String.eqb_eq in E. exfalso.
  assert (G : String.get i (ToUpper (substring p (String.length kw) input)) =
              String.get i kw) by (rewrite E; reflexivity).
  rewrite get_ToUpper, get_substring in G.
  destruct (Nat.ltb_spec i (String.length kw)); [|lia].
  rewrite Hc, Hk in G. simpl in G. congruence.
Qed.

Lemma matchKeyword_true input kw p :
  skipWhitespace input p = p -> 0 < String.length kw -> occurs input p kw ->
  ToUpper kw = kw ->
  match String.get (p + String.length kw) input with
  | Some c => isAlphaNumeric c = false | None => True end ->
  matchKeyword input kw p = (true, p + String.length kw).
Proof.
  intros Hs Hl O Hu Ha. unfold matchKeyword. rewrite Hs.
  pose proof (occurs_bound _ _ _ Hl O).
  destruct (Nat.ltb_spec (String.length input) (p + String.length kw)); [lia|].
  rewrite (occurs_substring _ _ _ O), Hu, String.eqb_refl.
  destruct (String.get (p + String.length kw) input) as [c|].
  - rewrite Ha, andb_false_r. reflexivity.
  - rewrite andb_false_r. reflexivity.
Qed.

Lemma HasPrefix_get (s pre : string) :
  HasPrefix s pre = true ->
  forall i, i < String.length pre -> String.get i s = String.get i pre.
Proof.
  revert s; induction pre as [|a pre IH]; intros s Hp i Hi; simpl in *; [lia|].
  destruct s as [|c s]; [discriminate|].
  apply andb_true_iff in Hp as [Hc Hp].
  unfold char_eqb in Hc; apply Ascii.eqb_eq in Hc; subst.
  destruct i; simpl; auto. apply IH; auto; lia.
Qed.

Lemma HasPrefix_of_get (s pre : string) :
  (forall i, i < String.length pre -> String.get i s = String.get i pre) ->
  HasPrefix s pre = true.
Proof.
  revert s; induction pre as [|a pre IH]; intros s G; [destruct s; reflexivity|].
  assert (G0 := G 0). simpl in G0. specialize (G0 ltac:(lia)).
  destruct s as [|c s]; [discriminate|].
  simpl in G0; injection G0 as ->.
  cbn [HasPrefix]. unfold char_eqb; rewrite Ascii.eqb_refl; simpl.
  apply IH. intros i Hi. apply (G (S i)). simpl; lia.
Qed.

Lemma all_chars_get f (s : string) i :
  all_chars f s = true -> i < String.length s ->
  exists c, String.get i s = Some c /\ f c = true.
Proof.
  revert i; induction s as [|c s IH]; intros [|i] Ha Hi; simpl in *; try lia;
    apply andb_true_iff in Ha as [Hc Ha]; eauto.
  apply IH; auto; lia.
Qed.

Lemma ContainsChar_get (s : string) c i d :
  ContainsChar s c = false -> String.get i s = Some d -> d <> c.
Proof.
  revert i; induction s as [|e s IH]; intros [|i] Hc Hg; simpl in *;
    try discriminate; apply orb_false_iff in Hc as [He Hc].
  - injection Hg as <-. intros ->. unfold char_eqb in He.
    rewrite Ascii.eqb_refl in He; discriminate.
  - eauto.
Qed.

Lemma ContainsChar_app (s1 s2 : string) c :
  ContainsChar (s1 ++ s2) c = ContainsChar s1 c || ContainsChar s2 c.
Proof. induction s1; simpl; auto. rewrite IHs1, orb_assoc; auto. Qed.

Lemma Contains_char (s : string) c :
  Contains s (String c EmptyString) = ContainsChar s c.
Proof.
  unfold Contains; induction s as [|d s IH]; [reflexivity|].
  cbn [Index HasPrefix ContainsChar].
  replace (HasPrefix s "") with true by (destruct s; reflexivity).
  rewrite andb_true_r.
  destruct (char_eqb d c); simpl; auto.
  destruct (Index s _); simpl in *; auto.
Qed.

Lemma keyword_mismatch_spec kw s :
  keyword_mismatch kw s = true ->
  exists i c k, i < String.length kw /\ String.get i s = Some c /\
                String.get i kw = Some k /\ ascii_upper c <> k.
Proof.
  unfold keyword_mismatch; intros E. apply existsb_exists in E as [i [Hi E]].
  apply in_seq in Hi.
  destruct (String.get i s) as [c|] eqn:Ec; [|discriminate].
  destruct (String.get i kw) as [k|] eqn:Ek; [|discriminate].
  exists i, c, k; repeat split; auto; try lia.
  intros Heq; subst. unfold char_eqb in E; rewrite Ascii.eqb_refl in E; discriminate.
Qed.

Lemma char_eqb_neq a b : a <> b -> char_eqb a b = false.
Proof. intros; unfold char_eqb; apply Ascii.eqb_neq; auto. Qed.

Lemma char_eqb_eq a b : char_eqb a b = true -> a = b.
Proof. unfold char_eqb; apply Ascii.eqb_eq. Qed.

Lemma graphic_ws c : graphic c = true -> ws c = false.
Proof.
  intros G; unfold ws.
  destruct (char_eqb c " ") eqn:E1; [apply char_eqb_eq in E1; subst; discriminate|].
  destruct (char_eqb c (ascii_of_nat 9)) eqn:E2; [apply char_eqb_eq in E2; subst; discriminate|].
  reflexivity.
Qed.

Lemma plain_graphic c : plain_char c = true -> graphic c = true.
Proof.
  unfold plain_char, graphic; intros G.
  repeat rewrite andb_true_iff in G. destruct G as [[[A B] _] _]. rewrite A, B; reflexivity.
Qed.

Lemma skip_graphic input p c :
  String.get p input = Some c -> graphic c = true -> skipWhitespace input p = p.
Proof. intros Hg G; apply skip_stop; unfold stops; rewrite Hg; apply graphic_ws; auto. Qed.

Lemma HasPrefix_single (s : string) a :
  HasPrefix s (String a EmptyString) =
  match String.get 0 s with Some c => char_eqb c a | None => false end.
Proof. destruct s as [|c s]; [reflexivity|]. cbn. destruct s; apply andb_true_r. Qed.

Lemma HasPrefix_first_false (s pre : string) c a :
  String.get 0 s = Some c -> String.get 0 pre = Some a -> c <> a ->
  HasPrefix s pre = false.
Proof.
  destruct s as [|c' s]; destruct pre as [|a' pre]; simpl; intros E1 E2 Hne;
    try discriminate.
  injection E1 as ->; injection E2 as ->. rewrite char_eqb_neq; auto.
Qed.

Lemma get_slice_from_0 input p :
  p < String.length input -> String.get 0 (slice_from input p) = String.get p input.
Proof.
  intros Hp; unfold slice_from; rewrite get_substring.
  destruct (Nat.ltb_spec 0 (String.length input - p)); [|lia].
  rewrite Nat.add_0_r; reflexivity.
Qed.

Lemma substring_zero (s : string) p : substring p 0 s = EmptyString.
Proof. apply string_ext; intro i; rewrite get_substring; destruct i; reflexivity. Qed.

Lemma plain_tokchar c : plain_char c = true -> tokchar c = true.
Proof.
  unfold plain_char, tokchar, isWhitespace; intros G.
  repeat rewrite andb_true_iff in G. destruct G as [[[A B] C] D]. rewrite C, D.
  apply Nat.leb_le in A.
  destruct (Nat.eqb_spec (nat_of_ascii c) 32); [lia|].
  destruct (Nat.eqb_spec (nat_of_ascii c) 9); [lia|].
  destruct (Nat.eqb_spec (nat_of_ascii c) 10); [lia|].
  destruct (Nat.eqb_spec (nat_of_ascii c) 13); [lia|]. reflexivity.
Qed.

Lemma parseToken_plain input p tok :
  skipWhitespace input p = p -> occurs input p tok -> 0 < String.length tok ->
  all_chars plain_char tok = true -> HasPrefix tok dq = false ->
  HasPrefix (slice_from input p) "time:[" = false ->
  follows input (p + String.length tok) ->
  parseToken input p = (tok, p + String.length tok).
Proof.
  intros Hs O Hl Ha Hq Ht Hf. pose proof (occurs_bound _ _ _ Hl O) as Hb.
  unfold parseToken. rewrite Hs.
  destruct (Nat.leb_spec (String.length input) p); [lia|].
  assert (Hc : char_is input p quote = false).
  { unfold char_is. pose proof (O 0 Hl) as O0. rewrite Nat.add_0_r in O0. rewrite O0.
    change dq with (String quote EmptyString) in Hq. rewrite HasPrefix_single in Hq.
    exact Hq. }
  rewrite Hc, Ht.
  fold tokchar.
  rewrite (scan_run input tokchar (String.length tok)); [| lia | |].
  - rewrite (occurs_slice _ _ _ O). reflexivity.
  - intros i Hi. destruct (all_chars_get _ _ i Ha Hi) as [c [Hg Hp]].
    exists c; split; [rewrite O; auto|]. apply plain_tokchar; auto.
  - unfold stops; unfold follows in Hf.
    destruct (String.get _ input); auto. destruct Hf as [-> | ->]; reflexivity.
Qed.

Lemma parseToken_quoted input p x :
  skipWhitespace input p = p -> occurs input p (dq ++ x ++ dq) ->
  ContainsChar x quote = false ->
  parseToken input p = (dq ++ x ++ dq, p + String.length (dq ++ x ++ dq)).
Proof.
  intros Hs O Hx.
  assert (Hlen : String.length (dq ++ x ++ dq) = String.length x + 2)
    by (rewrite !str_length_app; simpl; lia).
  pose proof (occurs_bound input p (dq ++ x ++ dq) ltac:(lia) O) as Hb.
  pose proof O as O'. apply occurs_app in O' as [O1 O2].
  apply occurs_app in O2 as [O2 O3]. simpl in O2, O3.
  unfold parseToken. rewrite Hs.
  destruct (Nat.leb_spec (String.length input) p); [lia|].
  assert (Hc : char_is input p quote = true).
  { unfold char_is. rewrite <- (Nat.add_0_r p), O1 by (simpl; lia).
    reflexivity. }
  rewrite Hc.
  rewrite (scan_run input (fun c => negb (char_eqb c quote)) (String.length x)); [| lia | |].
  - destruct (Nat.ltb_spec (S p + String.length x) (String.length input)); [|lia].
    replace (S (S p + String.length x)) with (p + String.length (dq ++ x ++ dq)) by lia.
    rewrite (occurs_slice _ _ _ O). reflexivity.
  - intros i Hi. destruct (get_in x i Hi) as [d Hd]. exists d.
    split; [replace (S p + i) with (p + 1 + i) by lia; rewrite O2; auto|].
    rewrite char_eqb_neq; [reflexivity|]. eapply ContainsChar_get; eauto.
  - unfold stops. replace (S p + String.length x) with (p + 1 + String.length x + 0) by lia.
    rewrite O3 by (simpl; lia). reflexivity.
Qed.

Lemma lookahead_close input p :
  String.get p input = Some ")"%char -> lookaheadForExpression input p = false.
Proof.
  intros Hg. pose proof (get_lt _ _ _ Hg) as Hb.
  unfold lookaheadForExpression, parseToken.
  rewrite (skip_graphic _ _ _ Hg) by reflexivity.
  destruct (Nat.leb_spec (String.length input) p); [lia|].
  unfold char_is; rewrite Hg. cbn [char_eqb].
  rewrite (HasPrefix_first_false _ _ ")"%char "t"%char); [| rewrite get_slice_from_0; auto
    | reflexivity | discriminate].
  replace (char_eqb ")" quote) with false by reflexivity.
  rewrite (scan_run input _ 0); [| lia | intros; lia |].
  - rewrite Nat.add_0_r. unfold slice. rewrite Nat.sub_diag, substring_zero. reflexivity.
  - unfold stops. rewrite Nat.add_0_r, Hg. reflexivity.
Qed.

Lemma lookahead_OR input p :
  occurs input p "OR " -> lookaheadForExpression input p = false.
Proof.
  intros O. pose proof (occurs_bound input p "OR " ltac:(simpl; lia) O) as Hb. simpl in Hb.
  assert (G0 : String.get p input = Some "O"%char)
    by (rewrite <- (Nat.add_0_r p), O by (simpl; lia); reflexivity).
  assert (G1 : String.get (p + 1) input = Some "R"%char) by (rewrite O by (simpl; lia); reflexivity).
  assert (G2 : String.get (p + 2) input = Some " "%char) by (rewrite O by (simpl; lia); reflexivity).
  unfold lookaheadForExpression, parseToken.
  rewrite (skip_graphic _ _ _ G0) by reflexivity.
  destruct (Nat.leb_spec (String.length input) p); [lia|].
  unfold char_is; rewrite G0.
  replace (char_eqb "O" quote) with false by reflexivity.
  rewrite (HasPrefix_first_false _ _ "O"%char "t"%char); [| rewrite get_slice_from_0; auto
    | reflexivity | discriminate].
  rewrite (scan_run input _ 2); [| lia | |].
  - replace (slice input p (p + 2)) with "OR"; [reflexivity|].
    apply occurs_app with (s1 := "OR") (s2 := " ") in O as [O _].
    symmetry; apply (occurs_slice _ _ _ O).
  - intros i Hi. destruct i as [|[|i]]; [ | | lia].
    + exists "O"%char; rewrite Nat.add_0_r; auto.
    + exists "R"%char; auto.
  - unfold stops. rewrite G2. reflexivity.
Qed.

Lemma str_app_assoc (a b c : string) : (a ++ b) ++ c = a ++ (b ++ c).
Proof. induction a; simpl; congruence. Qed.

Lemma occurs_get input p s i :
  occurs input p s -> i < String.length s -> String.get (p + i) input = String.get i s.
Proof. intros O Hi; apply O; auto. Qed.

Lemma loops_close input now n e q :
  String.get q input = Some ")"%char ->
  andLoop input now (S n) e q = Ok (e, q) /\ orLoop input now (S n) e q = Ok (e, q).
Proof.
  intros Hg. pose proof (get_lt _ _ _ Hg) as Hb.
  assert (Hs : skipWhitespace input q = q) by (apply (skip_graphic _ _ _ Hg); reflexivity).
  assert (Ma : matchKeyword input "AND" q = (false, q)).
  { apply (matchKeyword_false input "AND" q 0 ")" "A"); auto.
    all: try (rewrite Nat.add_0_r; auto); try (simpl; lia).
    intro E; vm_compute in E; discriminate. }
  assert (Mo : matchKeyword input "OR" q = (false, q)).
  { apply (matchKeyword_false input "OR" q 0 ")" "O"); auto.
    all: try (rewrite Nat.add_0_r; auto); try (simpl; lia).
    intro E; vm_compute in E; discriminate. }
  split; cbn [andLoop orLoop];
    destruct (Nat.ltb_spec q (String.length input)); try lia; rewrite Hs.
  - rewrite Ma, (lookahead_close _ _ Hg). reflexivity.
  - rewrite Mo. reflexivity.
Qed.

Lemma cost_ge2 t : 2 <= cost t.
Proof. induction t; simpl; lia. Qed.

Lemma HasPrefix_empty (s : string) : HasPrefix s EmptyString = true.
Proof. destruct s; reflexivity. Qed.

Lemma first_graphic t : Printable t ->
  exists c, String.get 0 (expr_String t) = Some c /\ graphic c = true.
Proof.
  destruct t as [l r|l r|x|fe|te|s e]; intros HP.
  1-3: eexists; split; reflexivity.
  - destruct HP as [Hp _]. unfold plain_token in Hp.
    repeat rewrite andb_true_iff in Hp. destruct Hp as [[[[[A B] _] _] _] _].
    apply Nat.ltb_lt in A. destruct (all_chars_get _ _ 0 B A) as [c [Hc Pc]].
    exists c; split; auto. apply plain_graphic; auto.
  - destruct te as [x cs rg pat]; destruct HP as [E _]; injection E as -> -> ->.
    eexists; split; reflexivity.
  - contradiction.
Qed.

Lemma last_graphic t : Printable t ->
  exists c, String.get (String.length (expr_String t) - 1) (expr_String t) = Some c /\
            graphic c = true.
Proof.
  induction t as [l _ r _|l _ r _|x IH|fe|te|s e]; intros HP.
  - cbn [expr_String]. rewrite !str_length_app.
    replace (String.length "(" + (String.length (expr_String l) + (String.length " AND " +
      (String.length (expr_String r) + String.length ")"))) - 1)
      with (String.length ("(" ++ expr_String l ++ " AND " ++ expr_String r) + 0)
      by (rewrite !str_length_app; simpl; lia).
    rewrite <- !str_app_assoc, get_app_r. eexists; split; reflexivity.
  - cbn [expr_String]. rewrite !str_length_app.
    replace (String.length "(" + (String.length (expr_String l) + (String.length " OR " +
      (String.length (expr_String r) + String.length ")"))) - 1)
      with (String.length ("(" ++ expr_String l ++ " OR " ++ expr_String r) + 0)
      by (rewrite !str_length_app; simpl; lia).
    rewrite <- !str_app_assoc, get_app_r. eexists; split; reflexivity.
  - destruct (IH HP) as [c [Hc G]]. exists c; split; auto.
    pose proof (get_lt _ _ _ Hc).
    cbn [expr_String]. rewrite str_length_app.
    replace (String.length "NOT " + String.length (expr_String x) - 1)
      with (String.length "NOT " + (String.length (expr_String x) - 1)) by (simpl; lia).
    rewrite get_app_r; auto.
  - destruct HP as [Hp _]. unfold plain_token in Hp.
    repeat rewrite andb_true_iff in Hp. destruct Hp as [[[[[A B] _] _] _] _].
    apply Nat.ltb_lt in A.
    destruct (all_chars_get _ _ (String.length (expr_String (FieldNode fe)) - 1) B
      ltac:(lia)) as [c [Hc Pc]].
    exists c; split; auto. apply plain_graphic; auto.
  - destruct te as [x cs rg pat]; destruct HP as [E _]; injection E as -> -> ->.
    change (expr_String (TextNode (mkTextExpression x true false None)))
      with ((dq ++ x) ++ dq).
    rewrite str_length_app.
    replace (String.length (dq ++ x) + String.length dq - 1)
      with (String.length (dq ++ x) + 0) by (simpl; lia).
    rewrite get_app_r. eexists; split; reflexivity.
  - contradiction HP.
Qed.

Lemma slice_from_time input p tok :
  occurs input p tok -> 0 < String.length tok ->
  HasPrefix tok "time:[" = false -> follows input (p + String.length tok) ->
  HasPrefix (slice_from input p) "time:[" = false.
Proof.
  intros O Hl Ht Hf. pose proof (occurs_bound _ _ _ Hl O) as Hb.
  destruct (HasPrefix (slice_from input p) "time:[") eqn:E; [exfalso|reflexivity].
  pose proof (HasPrefix_get _ _ E) as G.
  assert (Gi : forall i, i < 6 -> String.get (p + i) input = String.get i "time:[").
  { intros i Hi. rewrite <- (G i) by (simpl; lia). unfold slice_from.
    rewrite get_substring. destruct (Nat.ltb_spec i (String.length input - p)); auto.
    apply get_ge; lia. }
  destruct (Nat.le_gt_cases 6 (String.length tok)) as [Hge|Hlt].
  - rewrite HasPrefix_of_get in Ht; [discriminate|].
    intros i Hi. simpl in Hi. rewrite <- O by lia. apply Gi; lia.
  - unfold follows in Hf. rewrite Gi in Hf by lia.
    remember (String.length tok) as m.
    destruct m as [|[|[|[|[|[|m]]]]]]; try lia;
      simpl in Hf; destruct Hf; discriminate.
Qed.

Lemma unary_field input now n pos p tok fe :
  plain_token tok = true -> parseFieldExpression tok = Ok fe ->
  occurs input p tok -> skipWhitespace input pos = p ->
  follows input (p + String.length tok) -> 2 <= n ->
  parseUnaryExpression input now n pos = Ok (FieldNode fe, p + String.length tok).
Proof.
  intros Hp Hfe O Hs Hf Hn.
  pose proof Hp as Hp'. unfold plain_token in Hp'.
  repeat rewrite andb_true_iff in Hp'.
  destruct Hp' as [[[[[Hl Ha] Hq] Ht] Hc] Hk].
  apply Nat.ltb_lt in Hl. apply negb_true_iff in Hq, Ht.
  pose proof (occurs_bound _ _ _ Hl O) as Hb.
  destruct (all_chars_get _ _ 0 Ha Hl) as [c0 [G0 P0]].
  assert (G0' : String.get p input = Some c0) by (rewrite <- (Nat.add_0_r p), O; auto).
  assert (Hsp : skipWhitespace input p = p)
    by (apply (skip_graphic _ _ _ G0'); apply plain_graphic; auto).
  destruct (keyword_mismatch_spec _ _ Hk) as [i [c [k [Hi [Hci [Hki Hne]]]]]].
  destruct n as [|[|n]]; [lia|lia|].
  cbn [parseUnaryExpression]. rewrite Hs.
  rewrite (matchKeyword_false input "NOT" p i c k); auto;
    [| rewrite O; auto; apply get_lt in Hci; auto].
  cbn [parsePrimaryExpression]. rewrite Hsp.
  destruct (Nat.leb_spec (String.length input) p); [lia|].
  assert (Hpar : char_is input p "(" = false).
  { unfold char_is; rewrite G0'. unfold plain_char in P0.
    repeat rewrite andb_true_iff in P0. destruct P0 as [[_ P] _].
    apply negb_true_iff in P; auto. }
  rewrite Hpar.
  rewrite (parseToken_plain input p tok); auto;
    [| eapply slice_from_time; eauto].
  destruct (String.eqb_spec tok ""); [subst; simpl in Hl; lia|].
  rewrite Hc, Hfe. reflexivity.
Qed.

Lemma unquote_plain (x : string) :
  unquoteText (mkTextExpression (dq ++ x ++ dq) false false None) =
  Ok (mkTextExpression x true false None).
Proof.
  unfold unquoteText; cbn [Text te_IsRegex te_Pattern].
  assert (Hlen : String.length (dq ++ x ++ dq) = String.length x + 2)
    by (rewrite !str_length_app; simpl; lia).
  replace (HasPrefix (dq ++ x ++ dq) dq) with true
    by (change (dq ++ x ++ dq) with (String quote (x ++ dq)); cbn [HasPrefix dq];
        rewrite HasPrefix_empty; reflexivity).
  replace (HasSuffix (dq ++ x ++ dq) dq) with true.
  2:{ unfold HasSuffix. rewrite Hlen. change (String.length dq) with 1.
      replace (Nat.leb 1 (String.length x + 2)) with true
        by (symmetry; apply Nat.leb_le; lia).
      rewrite andb_true_l. symmetry; apply String.eqb_eq. apply string_ext; intro i.
      rewrite get_substring. destruct i as [|i]; [|destruct i; reflexivity].
      replace (Nat.ltb 0 1) with true by reflexivity.
      rewrite <- str_app_assoc.
      replace (String.length x + 2 - 1 + 0) with (String.length (dq ++ x) + 0)
        by (rewrite str_length_app; simpl; lia).
      rewrite get_app_r. reflexivity. }
  rewrite Hlen. destruct (Nat.ltb_spec (String.length x + 2) 2); [lia|].
  unfold slice. replace (String.length x + 2 - 1 - 1) with (String.length x) by lia.
  change (dq ++ x ++ dq) with (String quote (x ++ dq)). cbn [substring].
  replace (substring 0 (String.length x) (x ++ dq)) with x; [reflexivity|].
  symmetry. apply (occurs_substring (x ++ dq) 0 x).
  intros i Hi. simpl. rewrite get_app_l; auto.
Qed.

Lemma unary_text input now n pos p x :
  plain_text x = true -> occurs input p (dq ++ x ++ dq) ->
  skipWhitespace input pos = p -> 2 <= n ->
  parseUnaryExpression input now n pos =
  Ok (TextNode (mkTextExpression x true false None), p + String.length (dq ++ x ++ dq)).
Proof.
  intros Hx O Hs Hn.
  unfold plain_text in Hx. apply andb_true_iff in Hx as [Hq Hc].
  apply negb_true_iff in Hq, Hc.
  assert (G0 : String.get p input = Some quote)
    by (rewrite <- (Nat.add_0_r p), O by (rewrite !str_length_app; simpl; lia); reflexivity).
  pose proof (get_lt _ _ _ G0) as Hb.
  assert (Hsp : skipWhitespace input p = p) by (apply (skip_graphic _ _ _ G0); reflexivity).
  destruct n as [|[|n]]; [lia|lia|].
  cbn [parseUnaryExpression]. rewrite Hs.
  rewrite (matchKeyword_false input "NOT" p 0 quote "N"); auto;
    [| simpl; lia | rewrite Nat.add_0_r; auto | intro E; vm_compute in E; discriminate].
  cbn [parsePrimaryExpression]. rewrite Hsp.
  destruct (Nat.leb_spec (String.length input) p); [lia|].
  replace (char_is input p "(") with false by (unfold char_is; rewrite G0; reflexivity).
  rewrite (parseToken_quoted input p x); auto.
  replace (String.eqb (dq ++ x ++ dq) "") with false by reflexivity.
  replace (Contains (dq ++ x ++ dq) ":") with false
    by (rewrite Contains_char, !ContainsChar_app, Hc; reflexivity).
  replace (HasPrefix (dq ++ x ++ dq) "time:[") with false by reflexivity.
  unfold parseTextExpression.
  replace (HasPrefix (dq ++ x ++ dq) "~") with false by reflexivity.
  rewrite unquote_plain. reflexivity.
Qed.

Lemma stops_graphic input q c :
  String.get q input = Some c -> graphic c = true -> stops input ws q.
Proof. intros Hg G; unfold stops; rewrite Hg; apply graphic_ws; auto. Qed.

Section Steps.
Variables (input : string) (now : Z).

Lemma expr_step n pos :
  parseExpression input now (S n) pos =
  bind (parseAndExpression input now n pos) (fun '(lhs, p) => orLoop input now n lhs p).
Proof. reflexivity. Qed.

Lemma and_step n pos :
  parseAndExpression input now (S n) pos =
  bind (parseUnaryExpression input now n pos) (fun '(lhs, p) => andLoop input now n lhs p).
Proof. reflexivity. Qed.

Lemma unary_not n pos p p1 :
  skipWhitespace input pos = p -> matchKeyword input "NOT" p = (true, p1) ->
  parseUnaryExpression input now (S n) pos =
  bind (parseUnaryExpression input now n p1) (fun '(e, p2) => Ok (NotExpression e, p2)).
Proof. intros E1 E2. cbn [parseUnaryExpression]. rewrite E1, E2. reflexivity. Qed.

Lemma unary_prim n pos p p1 :
  skipWhitespace input pos = p -> matchKeyword input "NOT" p = (false, p1) ->
  parseUnaryExpression input now (S n) pos = parsePrimaryExpression input now n p1.
Proof. intros E1 E2. cbn [parseUnaryExpression]. rewrite E1, E2. reflexivity. Qed.

Lemma primary_paren n p :
  skipWhitespace input p = p -> String.get p input = Some "("%char ->
  parsePrimaryExpression input now (S n) p =
  bind (parseExpression input now n (S p))
       (fun '(e, p2) =>
          let p3 := skipWhitespace input p2 in
          if Nat.leb (String.length input) p3 || negb (char_is input p3 ")")
          then Err "missing closing parenthesis"
          else Ok (e, S p3)).
Proof.
  intros E1 E2. pose proof (get_lt _ _ _ E2).
  cbn [parsePrimaryExpression]. rewrite E1.
  destruct (Nat.leb_spec (String.length input) p); [lia|].
  replace (char_is input p "(") with true by (unfold char_is; rewrite E2; reflexivity).
  reflexivity.
Qed.

Lemma andLoop_more n lhs pos q p1 :
  pos < String.length input -> skipWhitespace input pos = q ->
  matchKeyword input "AND" q = (true, p1) ->
  andLoop input now (S n) lhs pos =
  bind (parseUnaryExpression input now n p1)
       (fun '(rhs, p2) => andLoop input now n (AndExpression lhs rhs) p2).
Proof.
  intros L E1 E2. cbn [andLoop].
  destruct (Nat.ltb_spec pos (String.length input)); [|lia].
  rewrite E1, E2. reflexivity.
Qed.

Lemma andLoop_done n lhs pos q p1 :
  pos < String.length input -> skipWhitespace input pos = q ->
  matchKeyword input "AND" q = (false, p1) -> lookaheadForExpression input p1 = false ->
  andLoop input now (S n) lhs pos = Ok (lhs, p1).
Proof.
  intros L E1 E2 E3. cbn [andLoop].
  destruct (Nat.ltb_spec pos (String.length input)); [|lia].
  rewrite E1, E2, E3. reflexivity.
Qed.

Lemma orLoop_more n lhs pos q p1 :
  pos < String.length input -> skipWhitespace input pos = q ->
  matchKeyword input "OR" q = (true, p1) ->
  orLoop input now (S n) lhs pos =
  bind (parseAndExpression input now n p1)
       (fun '(rhs, p2) => orLoop input now n (OrExpression lhs rhs) p2).
Proof.
  intros L E1 E2. cbn [orLoop].
  destruct (Nat.ltb_spec pos (String.length input)); [|lia].
  rewrite E1, E2. reflexivity.
Qed.

End Steps.

Lemma unary_round_trip now t : Printable t ->
  forall input n pos p,
  occurs input p (expr_String t) -> skipWhitespace input pos = p ->
  follows input (p + String.length (expr_String t)) -> cost t <= n ->
  parseUnaryExpression input now n pos = Ok (t, p + String.length (expr_String t)).
Proof.
  induction t as [l IHl r IHr|l IHl r IHr|x IHx|fe|te|s e];
    intros HP input n pos p O Hs Hf Hc.
  - (* AND *)
    destruct HP as [Pl Pr].
    destruct (first_graphic l Pl) as [cl [Gl Pcl]].
    destruct (first_graphic r Pr) as [cr [Gr Pcr]].
    pose proof (cost_ge2 l); pose proof (cost_ge2 r). cbn [cost] in Hc.
    pose proof (get_lt _ _ _ Gl); pose proof (get_lt _ _ _ Gr).
    cbn [expr_String] in O, Hf |- *.
    rewrite !str_length_app in Hf |- *. cbn [String.length] in Hf |- *.
    apply occurs_app in O as [O0 O]. apply occurs_app in O as [Ol O].
    apply occurs_app in O as [Oa O]. apply occurs_app in O as [Or Oc].
    cbn [String.length] in Ol, Oa, Or, Oc.
    set (ll := String.length (expr_String l)) in *.
    set (lr := String.length (expr_String r)) in *.
    assert (G0 : String.get p input = Some "("%char)
      by (rewrite <- (Nat.add_0_r p); apply (occurs_get _ _ _ 0 O0); simpl; lia).
    assert (Gl' : String.get (p + 1) input = Some cl)
      by (rewrite <- (Nat.add_0_r (p + 1)), Ol; auto).
    assert (Ga0 : String.get (p + 1 + ll) input = Some " "%char)
      by (rewrite <- (Nat.add_0_r (p + 1 + ll)); apply (occurs_get _ _ _ 0 Oa); simpl; lia).
    assert (GA : String.get (p + 1 + ll + 1) input = Some "A"%char)
      by (apply (occurs_get _ _ _ 1 Oa); simpl; lia).
    assert (Ga4 : String.get (p + 1 + ll + 4) input = Some " "%char)
      by (apply (occurs_get _ _ _ 4 Oa); simpl; lia).
    assert (Oand : occurs input (p + 1 + ll + 1) "AND").
    { intros i Hi. simpl in Hi. replace (p + 1 + ll + 1 + i) with (p + 1 + ll + S i) by lia.
      rewrite Oa by (simpl; lia). destruct i as [|[|[|i]]]; try reflexivity; lia. }
    assert (Gr' : String.get (p + 1 + ll + 5) input = Some cr)
      by (rewrite <- (Nat.add_0_r (p + 1 + ll + 5)), Or; auto).
    assert (Gc : String.get (p + 1 + ll + 5 + lr) input = Some ")"%char)
      by (rewrite <- (Nat.add_0_r (p + 1 + ll + 5 + lr)); apply (occurs_get _ _ _ 0 Oc);
          simpl; lia).
    assert (Hsp : skipWhitespace input p = p) by (apply (skip_graphic _ _ _ G0); reflexivity).
    assert (Mn : matchKeyword input "NOT" p = (false, p)).
    { apply (matchKeyword_false input "NOT" p 0 "(" "N"); auto.
      all: try (rewrite Nat.add_0_r; auto); try (simpl; lia).
      all: try (intro E; vm_compute in E; discriminate). }
    assert (Ma : matchKeyword input "AND" (p + 1 + ll + 1) = (true, p + 1 + ll + 4)).
    { replace (p + 1 + ll + 4) with (p + 1 + ll + 1 + String.length "AND") by (simpl; lia).
      apply matchKeyword_true;
        [apply (skip_graphic _ _ _ GA); reflexivity | simpl; lia | exact Oand
        | reflexivity | ].
      replace (p + 1 + ll + 1 + String.length "AND") with (p + 1 + ll + 4) by (simpl; lia).
      rewrite Ga4; reflexivity. }
    destruct n as [|n]; [lia|]. rewrite (unary_prim input now n pos p p Hs Mn).
    destruct n as [|n]; [lia|]. rewrite (primary_paren input now n p Hsp G0).
    destruct n as [|n]; [lia|]. rewrite expr_step.
    destruct n as [|n]; [lia|]. rewrite and_step.
    rewrite (IHl Pl input n (S p) (p + 1)); auto;
      [| rewrite <- Nat.add_1_r; apply (skip_graphic _ _ _ Gl'); auto
       | unfold follows; rewrite Ga0; auto | lia].
    cbn [bind].
    destruct n as [|n]; [lia|].
    rewrite (andLoop_more input now n l (p + 1 + ll) (p + 1 + ll + 1) (p + 1 + ll + 4));
      [| apply get_lt in Ga0; lia
       | apply (skip_one input (p + 1 + ll) Ga0 (stops_graphic _ _ _ GA eq_refl)) | exact Ma].
    rewrite (IHr Pr input n (p + 1 + ll + 4) (p + 1 + ll + 5)); auto;
      [| replace (p + 1 + ll + 5) with (p + 1 + ll + 4 + 1) by lia;
         apply skip_one; auto;
         replace (p + 1 + ll + 4 + 1) with (p + 1 + ll + 5) by lia;
         apply (stops_graphic _ _ _ Gr'); auto
       | unfold follows; fold lr; rewrite Gc; auto | lia].
    cbn [bind].
    destruct n as [|n]; [lia|].
    destruct (loops_close input now n (AndExpression l r) _ Gc) as [La _].
    fold lr. rewrite La. cbn [bind].
    destruct (loops_close input now (S (S n)) (AndExpression l r) _ Gc) as [_ Lo].
    rewrite Lo. cbn [bind].
    rewrite (skip_graphic _ _ _ Gc) by reflexivity.
    destruct (Nat.leb_spec (String.length input) (p + 1 + ll + 5 + lr));
      [apply get_lt in Gc; lia|].
    replace (char_is input (p + 1 + ll + 5 + lr) ")") with true
      by (unfold char_is; rewrite Gc; reflexivity).
    cbn [orb negb]. do 2 f_equal. lia.
  - (* OR *)
    destruct HP as [Pl Pr].
    destruct (first_graphic l Pl) as [cl [Gl Pcl]].
    destruct (first_graphic r Pr) as [cr [Gr Pcr]].
    pose proof (cost_ge2 l); pose proof (cost_ge2 r). cbn [cost] in Hc.
    pose proof (get_lt _ _ _ Gl); pose proof (get_lt _ _ _ Gr).
    cbn [expr_String] in O, Hf |- *.
    rewrite !str_length_app in Hf |- *. cbn [String.length] in Hf |- *.
    apply occurs_app in O as [O0 O]. apply occurs_app in O as [Ol O].
    apply occurs_app in O as [Oo O]. apply occurs_app in O as [Or Oc].
    cbn [String.length] in Ol, Oo, Or, Oc.
    set (ll := String.length (expr_String l)) in *.
    set (lr := String.length (expr_String r)) in *.
    assert (G0 : String.get p input = Some "("%char)
      by (rewrite <- (Nat.add_0_r p); apply (occurs_get _ _ _ 0 O0); simpl; lia).
    assert (Gl' : String.get (p + 1) input = Some cl)
      by (rewrite <- (Nat.add_0_r (p + 1)), Ol; auto).
    assert (Go0 : String.get (p + 1 + ll) input = Some " "%char)
      by (rewrite <- (Nat.add_0_r (p + 1 + ll)); apply (occurs_get _ _ _ 0 Oo); simpl; lia).
    assert (GO : String.get (p + 1 + ll + 1) input = Some "O"%char)
      by (apply (occurs_get _ _ _ 1 Oo); simpl; lia).
    assert (Go3 : String.get (p + 1 + ll + 3) input = Some " "%char)
      by (apply (occurs_get _ _ _ 3 Oo); simpl; lia).
    assert (OOR : occurs input (p + 1 + ll + 1) "OR ").
    { intros i Hi. simpl in Hi. replace (p + 1 + ll + 1 + i) with (p + 1 + ll + S i) by lia.
      rewrite Oo by (simpl; lia). destruct i as [|[|[|i]]]; try reflexivity; lia. }
    assert (OOR2 : occurs input (p + 1 + ll + 1) "OR")
      by (intros i Hi; simpl in Hi; rewrite OOR by (simpl; lia);
          destruct i as [|[|i]]; try reflexivity; lia).
    assert (Gr' : String.get (p + 1 + ll + 4) input = Some cr)
      by (rewrite <- (Nat.add_0_r (p + 1 + ll + 4)), Or; auto).
    assert (Gc : String.get (p + 1 + ll + 4 + lr) input = Some ")"%char)
      by (rewrite <- (Nat.add_0_r (p + 1 + ll + 4 + lr)); apply (occurs_get _ _ _ 0 Oc);
          simpl; lia).
    assert (Hsp : skipWhitespace input p = p) by (apply (skip_graphic _ _ _ G0); reflexivity).
    assert (HsO : skipWhitespace input (p + 1 + ll + 1) = p + 1 + ll + 1)
      by (apply (skip_graphic _ _ _ GO); reflexivity).
    assert (Mn : matchKeyword input "NOT" p = (false, p)).
    { apply (matchKeyword_false input "NOT" p 0 "(" "N"); auto.
      all: try (rewrite Nat.add_0_r; auto); try (simpl; lia).
      all: try (intro E; vm_compute in E; discriminate). }
    assert (Ma : matchKeyword input "AND" (p + 1 + ll + 1) = (false, p + 1 + ll + 1)).
    { apply (matchKeyword_false input "AND" _ 0 "O" "A"); auto.
      all: try (rewrite Nat.add_0_r; auto); try (simpl; lia).
      all: try (intro E; vm_compute in E; discriminate). }
    assert (Mo : matchKeyword input "OR" (p + 1 + ll + 1) = (true, p + 1 + ll + 3)).
    { replace (p + 1 + ll + 3) with (p + 1 + ll + 1 + String.length "OR") by (simpl; lia).
      apply matchKeyword_true; [exact HsO | simpl; lia | exact OOR2 | reflexivity | ].
      replace (p + 1 + ll + 1 + String.length "OR") with (p + 1 + ll + 3) by (simpl; lia).
      rewrite Go3; reflexivity. }
    destruct n as [|n]; [lia|]. rewrite (unary_prim input now n pos p p Hs Mn).
    destruct n as [|n]; [lia|]. rewrite (primary_paren input now n p Hsp G0).
    destruct n as [|n]; [lia|]. rewrite expr_step.
    destruct n as [|n]; [lia|]. rewrite and_step.
    rewrite (IHl Pl input n (S p) (p + 1)); auto;
      [| rewrite <- Nat.add_1_r; apply (skip_graphic _ _ _ Gl'); auto
       | unfold follows; rewrite Go0; auto | lia].
    cbn [bind].
    destruct n as [|n]; [lia|].
    rewrite (andLoop_done input now n l (p + 1 + ll) (p + 1 + ll + 1) (p + 1 + ll + 1));
      [| apply get_lt in Go0; lia
       | apply (skip_one input (p + 1 + ll) Go0 (stops_graphic _ _ _ GO eq_refl))
       | exact Ma | apply lookahead_OR; exact OOR].
    cbn [bind].
    rewrite (orLoop_more input now (S n) l (p + 1 + ll + 1) (p + 1 + ll + 1) (p + 1 + ll + 3));
      [| apply get_lt in GO; lia | exact HsO | exact Mo].
    rewrite and_step.
    rewrite (IHr Pr input n (p + 1 + ll + 3) (p + 1 + ll + 4)); auto;
      [| replace (p + 1 + ll + 4) with (p + 1 + ll + 3 + 1) by lia;
         apply skip_one; auto;
         replace (p + 1 + ll + 3 + 1) with (p + 1 + ll + 4) by lia;
         apply (stops_graphic _ _ _ Gr'); auto
       | unfold follows; fold lr; rewrite Gc; auto | lia].
    cbn [bind].
    destruct n as [|n]; [lia|].
    destruct (loops_close input now n r _ Gc) as [La _].
    fold lr. rewrite La. cbn [bind].
    destruct (loops_close input now (S n) (OrExpression l r) _ Gc) as [_ Lo].
    rewrite Lo. cbn [bind].
    rewrite (skip_graphic _ _ _ Gc) by reflexivity.
    destruct (Nat.leb_spec (String.length input) (p + 1 + ll + 4 + lr));
      [apply get_lt in Gc; lia|].
    replace (char_is input (p + 1 + ll + 4 + lr) ")") with true
      by (unfold char_is; rewrite Gc; reflexivity).
    cbn [orb negb]. do 2 f_equal. lia.
  - (* NOT *)
    destruct (first_graphic x HP) as [cx [Gx Pcx]].
    pose proof (get_lt _ _ _ Gx). cbn [cost] in Hc.
    cbn [expr_String] in O, Hf |- *.
    rewrite !str_length_app in Hf |- *. cbn [String.length] in Hf |- *.
    apply occurs_app in O as [O0 Ox]. cbn [String.length] in Ox.
    set (lx := String.length (expr_String x)) in *.
    assert (GN : String.get p input = Some "N"%char)
      by (rewrite <- (Nat.add_0_r p); apply (occurs_get _ _ _ 0 O0); simpl; lia).
    assert (G3 : String.get (p + 3) input = Some " "%char)
      by (apply (occurs_get _ _ _ 3 O0); simpl; lia).
    assert (ONOT : occurs input p "NOT")
      by (intros i Hi; simpl in Hi; rewrite O0 by (simpl; lia);
          destruct i as [|[|[|i]]]; try reflexivity; lia).
    assert (Gx' : String.get (p + 4) input = Some cx)
      by (rewrite <- (Nat.add_0_r (p + 4)), Ox; auto).
    assert (Mn : matchKeyword input "NOT" p = (true, p + 3)).
    { replace (p + 3) with (p + String.length "NOT") by (simpl; lia).
      apply matchKeyword_true;
        [apply (skip_graphic _ _ _ GN); reflexivity | simpl; lia | exact ONOT
        | reflexivity | ].
      replace (p + String.length "NOT") with (p + 3) by (simpl; lia).
      rewrite G3; reflexivity. }
    destruct n as [|n]; [lia|]. rewrite (unary_not input now n pos p (p + 3) Hs Mn).
    rewrite (IHx HP input n (p + 3) (p + 4)); auto;
      [| replace (p + 4) with (p + 3 + 1) by lia; apply skip_one; auto;
         replace (p + 3 + 1) with (p + 4) by lia; apply (stops_graphic _ _ _ Gx'); auto
       | unfold follows in *; fold lx; replace (p + 4 + lx) with (p + (4 + lx)) by lia;
         exact Hf
       | lia].
    cbn [bind]. do 2 f_equal. lia.
  - destruct HP as [HP1 HP2]. cbn [cost] in Hc.
    apply (unary_field input now n pos p _ fe); auto.
  - destruct te as [x cs rg pat]. destruct HP as [E Hx]; injection E as -> -> ->.
    apply (unary_text input now n pos p x); auto.
  - contradiction HP.
Qed.

Lemma string_rev_length (s : string) : String.length (string_rev s) = String.length s.
Proof. induction s; simpl; auto. rewrite str_length_app, IHs; simpl; lia. Qed.

Lemma string_rev_app (a b : string) : string_rev (a ++ b) = string_rev b ++ string_rev a.
Proof.
  induction a as [|c a IH]; simpl.
  - apply string_ext; intro i. destruct (Nat.lt_ge_cases i (String.length (string_rev b))).
    + rewrite get_app_l; auto.
    + rewrite get_ge by lia. rewrite get_ge; auto. rewrite str_length_app; simpl; lia.
  - rewrite IH, str_app_assoc; reflexivity.
Qed.

Lemma string_rev_involutive (s : string) : string_rev (string_rev s) = s.
Proof. induction s; simpl; auto. rewrite string_rev_app, IHs; reflexivity. Qed.

Lemma get_string_rev_0 (s : string) :
  0 < String.length s -> String.get 0 (string_rev s) = String.get (String.length s - 1) s.
Proof.
  induction s as [|c s IH]; simpl; intros Hl; [lia|].
  destruct s as [|d s]; [reflexivity|].
  rewrite get_app_l by (rewrite string_rev_length; simpl; lia).
  rewrite IH by (simpl; lia). simpl. replace (String.length s - 0) with (String.length s) by lia.
  reflexivity.
Qed.

Lemma graphic_space c : graphic c = true -> is_space c = false.
Proof.
  unfold graphic, is_space; intros G. apply andb_true_iff in G as [A _].
  apply Nat.leb_le in A.
  destruct (Nat.eqb_spec (nat_of_ascii c) 32); [lia|].
  destruct (Nat.leb_spec (nat_of_ascii c) 13); [lia|]. rewrite andb_false_r; reflexivity.
Qed.

Lemma trim_left_graphic (s : string) c :
  String.get 0 s = Some c -> graphic c = true -> trim_left s = s.
Proof.
  destruct s as [|d s]; simpl; intros E G; [discriminate|].
  injection E as ->. rewrite graphic_space; auto.
Qed.

Lemma TrimSpace_graphic (s : string) c1 c2 :
  String.get 0 s = Some c1 -> graphic c1 = true ->
  String.get (String.length s - 1) s = Some c2 -> graphic c2 = true ->
  TrimSpace s = s.
Proof.
  intros E1 G1 E2 G2. pose proof (get_lt _ _ _ E1).
  unfold TrimSpace. rewrite (trim_left_graphic s c1) by auto.
  rewrite (trim_left_graphic (string_rev s) c2).
  - apply string_rev_involutive.
  - rewrite get_string_rev_0; auto.
  - auto.
Qed.

Lemma cost_le_length t : Printable t -> cost t <= 2 * String.length (expr_String t).
Proof.
  induction t as [l IHl r IHr|l IHl r IHr|x IHx|fe|te|s e]; intros HP.
  - destruct HP as [Pl Pr]. specialize (IHl Pl); specialize (IHr Pr).
    cbn [cost expr_String]. rewrite !str_length_app. simpl String.length. lia.
  - destruct HP as [Pl Pr]. specialize (IHl Pl); specialize (IHr Pr).
    cbn [cost expr_String]. rewrite !str_length_app. simpl String.length. lia.
  - specialize (IHx HP). cbn [cost expr_String]. rewrite !str_length_app.
    simpl String.length. lia.
  - destruct HP as [Hp _]. unfold plain_token in Hp.
    repeat rewrite andb_true_iff in Hp. destruct Hp as [[[[[A _] _] _] _] _].
    apply Nat.ltb_lt in A. cbn [cost]. lia.
  - destruct te as [x cs rg pat]; destruct HP as [E _]; injection E as -> -> ->.
    change (expr_String (TextNode (mkTextExpression x true false None)))
      with (dq ++ x ++ dq).
    rewrite !str_length_app. cbn [cost]. simpl String.length. lia.
  - contradiction HP.
Qed.

Lemma loops_end input now n e pos :
  String.length input <= pos ->
  andLoop input now (S n) e pos = Ok (e, pos) /\ orLoop input now (S n) e pos = Ok (e, pos).
Proof.
  intros L; split; cbn [andLoop orLoop];
    destruct (Nat.ltb_spec pos (String.length input)); try lia; reflexivity.
Qed.

(** C9 (amended).  On the printable fragment, printing a tree with its
    [String] form and parsing the text again gives back the same tree. *)
Theorem print_parse_round_trip now t :
  Printable t -> ParseAdvancedQuery now (expr_String t) = Ok t.
Proof.
  intros HP.
  destruct (first_graphic t HP) as [c1 [E1 G1]].
  destruct (last_graphic t HP) as [c2 [E2 G2]].
  pose proof (cost_le_length t HP) as Hc.
  unfold ParseAdvancedQuery. rewrite (TrimSpace_graphic _ c1 c2) by auto.
  set (input := expr_String t) in *.
  unfold parser_fuel.
  replace (8 * S (String.length input)) with (S (S (8 * String.length input + 6))) by lia.
  rewrite expr_step, and_step.
  rewrite (unary_round_trip now t HP input _ 0 0); auto.
  - cbn [bind]. replace (8 * String.length input + 6) with (S (8 * String.length input + 5))
      by lia.
    fold input.
    rewrite (proj1 (loops_end input now (8 * String.length input + 5) t
                               (0 + String.length input) ltac:(lia))).
    cbn [bind].
    rewrite (proj2 (loops_end input now (S (8 * String.length input + 5)) t
                               (0 + String.length input) ltac:(lia))).
    reflexivity.
  - apply occurs_self.
  - apply (skip_graphic _ _ _ E1); auto.
  - unfold follows. rewrite get_ge; auto; lia.
  - lia.
Qed.

End RoundTripProofs.

Section CircularBufferReadProofs.
Context {A : Type}.

Lemma AddAll_shape (cb : CircularBuffer A) xs :
  capacity (AddAll cb xs) = capacity cb /\ length (data (AddAll cb xs)) = length (data cb).
Proof.
  revert cb; induction xs as [|x xs IH]; intros cb; simpl; [auto|].
  destruct (IH (Add cb x)) as [E1 E2]; rewrite E1, E2.
  unfold Add; destruct (size cb <? capacity cb); simpl; rewrite set_nth_length; auto.
Qed.

Lemma Clear_AddAll_New (c : nat) (xs : list A) :
  Clear (AddAll (NewCircularBuffer c) xs) = NewCircularBuffer c.
Proof.
  destruct (AddAll_shape (NewCircularBuffer c) xs) as [E1 E2].
  unfold Clear; rewrite E1, E2; simpl; rewrite repeat_length; reflexivity.
Qed.

(** The retained lines of a buffer filled from empty: the last [c]
    appended ones. *)
Lemma slots_window (c : nat) (xs : list A) :
  0 < c ->
  let cb := AddAll (NewCircularBuffer c) xs in
  size cb = length (skipn (length xs - c) xs) /\
  forall a k, a + k <= size cb ->
    map (slot cb) (seq a k) = map Some (firstn k (skipn a (skipn (length xs - c) xs))).
Proof.
  intros Hc cb.
  destruct (cb_inv_AddAll c [] xs (NewCircularBuffer c) Hc (cb_inv_new c Hc))
    as (Hcap & _ & _ & Hs & _ & Hget).
  simpl in Hs, Hget; fold cb in Hcap, Hs, Hget.
  rewrite length_skipn.
  split; [lia|].
  intros a k; revert a; induction k as [|k IH]; intros a Hak; [reflexivity|].
  rewrite <- cons_seq, map_cons.
  assert (Hw : nth_error (skipn a (skipn (length xs - c) xs)) 0 = nth_error xs (length xs - size cb + a)).
  { rewrite !nth_error_skipn. f_equal; lia. }
  destruct (skipn a (skipn (length xs - c) xs)) as [|w ws] eqn:Ew.
  - simpl in Hw. symmetry in Hw. apply nth_error_None in Hw. lia.
  - simpl. simpl in Hw. rewrite IH by lia.
    unfold slot at 1; rewrite Hcap, Hget, <- Hw by lia. f_equal.
    replace (skipn (S a) (skipn (length xs - c) xs)) with ws; [reflexivity|].
    rewrite <- (skipn_skipn 1 a), Ew. reflexivity.
Qed.

Lemma forEach_loop_log (cb : CircularBuffer A) (p : option A -> bool) idx seen :
  forEach_loop cb (fun seen x => (seen ++ [x], p x)) idx seen =
  seen ++ take_through p (map (slot cb) idx).
Proof.
  revert seen; induction idx as [|i idx IH]; intros seen; simpl.
  - rewrite app_nil_r; reflexivity.
  - destruct (p (slot cb i)).
    + rewrite IH, <- app_assoc; reflexivity.
    + reflexivity.
Qed.

End CircularBufferReadProofs.
Section CircularBufferReadThms.
Context {A : Type}.

(** X1: on a buffer filled by successive [Add]s, [GetRange start end] returns the retained lines (the last [capacity] ones, oldest first) from index [start] up to, not including, [end] cut at the size; a negative [start], a [start] at or past the size or an [end] at or before [start] give the empty slice. *)
Theorem GetRange_window (c : nat) (xs : list A) (start end_ : Z) :
  0 < c ->
  GetRange (AddAll (NewCircularBuffer c) xs) start end_ =
    if (start <? 0)%Z then []
    else map Some (firstn (Z.to_nat (end_ - start))
                          (skipn (Z.to_nat start) (skipn (length xs - c) xs))).
Proof.
  intros Hc. destruct (slots_window c xs Hc) as [Hs Hm].
  set (cb := AddAll (NewCircularBuffer c) xs) in *.
  set (w := skipn (length xs - c) xs) in *.
  unfold GetRange.
  destruct (Z.ltb_spec start 0) as [Hneg | Hnn]; [reflexivity|]. simpl.
  destruct (Z.leb_spec (Z.of_nat (size cb)) start) as [Hbig | Hin]; simpl.
  - rewrite skipn_all2 by lia. destruct (Z.to_nat (end_ - start)); reflexivity.
  - destruct (Z.leb_spec end_ start) as [Hle | Hlt]; simpl.
    + replace (Z.to_nat (end_ - start)) with 0 by lia. reflexivity.
    + destruct (Z.ltb_spec (Z.of_nat (size cb)) end_) as [Hover | Hunder].
      * rewrite Hm by lia.
        rewrite (firstn_all2 (n := Z.to_nat (end_ - start))) by (rewrite length_skipn; lia).
        rewrite firstn_all2 by (rewrite length_skipn; lia). reflexivity.
      * rewrite Hm by lia. reflexivity.
Qed.

(** X2: [GetLast n] returns the last [min n capacity] added lines in the order they were added, and nothing for [n <= 0]. *)
Theorem GetLast_window (c : nat) (xs : list A) (n : Z) :
  0 < c ->
  GetLast (AddAll (NewCircularBuffer c) xs) n =
    map Some (skipn (length xs - Nat.min (Z.to_nat n) c) xs).
Proof.
  intros Hc. destruct (slots_window c xs Hc) as [Hs Hm].
  set (cb := AddAll (NewCircularBuffer c) xs) in *.
  rewrite length_skipn in Hs.
  unfold GetLast.
  destruct (Z.leb_spec n 0) as [Hn | Hn]; simpl.
  - rewrite skipn_all2 by lia. reflexivity.
  - destruct (Nat.eqb_spec (size cb) 0) as [H0 | H0]; simpl.
    + rewrite skipn_all2 by lia. reflexivity.
    + set (n' := if (Z.of_nat (size cb) <? n)%Z then Z.of_nat (size cb) else n).
      assert (Hn' : n' = Z.min n (Z.of_nat (size cb))).
      { unfold n'; destruct (Z.ltb_spec (Z.of_nat (size cb)) n); lia. }
      unfold GetRange.
      replace ((Z.of_nat (size cb) - n' <? 0)%Z || (Z.of_nat (size cb) <=? Z.of_nat (size cb) - n')%Z
               || (Z.of_nat (size cb) <=? Z.of_nat (size cb) - n')%Z) with false
        by (symmetry; apply orb_false_iff; split; [apply orb_false_iff; split|];
            first [apply Z.ltb_ge | apply Z.leb_gt]; lia).
      rewrite Z.ltb_irrefl.
      rewrite Hm by lia.
      rewrite skipn_skipn, firstn_all2 by (rewrite length_skipn; lia).
      f_equal. f_equal. lia.
Qed.

(** X3: [ForEach] calls its callback on the retained lines oldest first and stops right after the first call that returns false. *)
Theorem ForEach_visits (c : nat) (xs : list A) (p : option A -> bool) :
  0 < c ->
  ForEach (AddAll (NewCircularBuffer c) xs) (fun seen x => (seen ++ [x], p x)) [] =
    take_through p (map Some (skipn (length xs - c) xs)).
Proof.
  intros Hc. destruct (slots_window c xs Hc) as [Hs Hm].
  unfold ForEach. rewrite forEach_loop_log, Hm by lia.
  rewrite firstn_all2 by (simpl; lia). reflexivity.
Qed.

(** X4: [Clear] puts a buffer filled by [Add]s back into the state [NewCircularBuffer] gives it, with the same capacity. *)
Theorem Clear_resets (c : nat) (xs : list A) :
  Clear (AddAll (NewCircularBuffer c) xs) = NewCircularBuffer c.
Proof. apply Clear_AddAll_New. Qed.

End CircularBufferReadThms.

Section RebuildThms.
Context `{Regexp} `{Decoders} `{TimeLib} `{Strconv}.

Lemma forEach_loop_filter (cb fb : CircularBuffer LogLine) (f : FilterEngine) (xs : list LogLine) idx :
  map (slot cb) idx = map Some xs ->
  forEach_loop cb
    (fun fb line =>
       (match line with
        | Some l => if Match f l then Add fb l else fb
        | None => fb
        end, true)) idx fb =
  AddAll fb (List.filter (Match f) xs).
Proof.
  revert xs fb; induction idx as [|i idx IH]; intros xs fb E; simpl in *.
  - destruct xs; [reflexivity | discriminate].
  - destruct xs as [|x xs]; [discriminate|]. simpl in E. injection E as E1 E2.
    rewrite E1. rewrite (IH xs) by exact E2. simpl.
    destruct (Match f x); reflexivity.
Qed.

(** X5: after [rebuildFilteredLines] the filtered buffer keeps its capacity and holds exactly the retained lines of the main buffer that match the filter, in order, as if added one by one to an empty buffer. *)
Theorem rebuildFilteredLines_spec (m : Model) (c c' : nat) (xs ys : list LogLine) :
  0 < c ->
  allLinesBuffer m = AddAll (NewCircularBuffer c) xs ->
  filteredBuffer m = AddAll (NewCircularBuffer c') ys ->
  filteredBuffer (rebuildFilteredLines m) =
    AddAll (NewCircularBuffer c') (List.filter (Match (filter m)) (skipn (length xs - c) xs)).
Proof.
  intros Hc Ha Hf. destruct (slots_window c xs Hc) as [Hs Hm].
  unfold rebuildFilteredLines, ForEach; simpl.
  rewrite Hf, Clear_AddAll_New, Ha.
  apply forEach_loop_filter.
  rewrite Hm by lia. rewrite firstn_all2 by (simpl; lia). reflexivity.
Qed.

End RebuildThms.
Section MatchScanProofs.
Context `{Regexp} `{TimeLib} `{Strconv}.

Lemma fold_count_shift (f : FilterEngine) lines k :
  fold_left (fun count line => if Match f line then S count else count) lines k =
  k + fold_left (fun count line => if Match f line then S count else count) lines 0.
Proof.
  revert k; induction lines as [|l lines IH]; intros k; simpl; [lia|].
  rewrite IH, (IH (if Match f l then 1 else 0)). destruct (Match f l); lia.
Qed.

Lemma matchingIndicesFrom_spec (f : FilterEngine) lines i :
  Sorted lt (matchingIndicesFrom f i lines) /\
  (forall j, In j (matchingIndicesFrom f i lines) ->
             i <= j /\ exists l, nth_error lines (j - i) = Some l /\ Match f l = true) /\
  (forall j l, nth_error lines j = Some l -> Match f l = true ->
               In (i + j) (matchingIndicesFrom f i lines)).
Proof.
  revert i; induction lines as [|l lines IH]; intros i; simpl.
  - split; [constructor|]. split; [intros j []|]. intros [|j] ? E; discriminate.
  - destruct (IH (S i)) as (Hs & Hin & Hcomp).
    destruct (Match f l) eqn:Hm.
    + split; [|split].
      * constructor; [exact Hs|].
        destruct (matchingIndicesFrom f (S i) lines) as [|k ks] eqn:E; constructor.
        destruct (Hin k) as [Hk _]; [left; reflexivity| lia].
      * intros j [<- | Hj].
        -- split; [lia|]. exists l. rewrite Nat.sub_diag. auto.
        -- destruct (Hin j Hj) as [Hij (l' & E & M)]. split; [lia|].
           exists l'. replace (j - i) with (S (j - S i)) by lia. auto.
      * intros [|j] l' E M; simpl in E.
        -- left; lia.
        -- right. replace (i + S j) with (S i + j) by lia. eauto.
    + split; [exact Hs|]. split.
      * intros j Hj. destruct (Hin j Hj) as [Hij (l' & E & M)]. split; [lia|].
        exists l'. replace (j - i) with (S (j - S i)) by lia. auto.
      * intros [|j] l' E M; simpl in E.
        -- injection E as <-. congruence.
        -- replace (i + S j) with (S i + j) by lia. eauto.
Qed.

(** X6: [GetMatchCount] is the number of indices [GetMatchingIndices] returns. *)
Theorem GetMatchCount_length (f : FilterEngine) (lines : list LogLine) :
  GetMatchCount f lines = length (GetMatchingIndices f lines).
Proof.
  unfold GetMatchCount, GetMatchingIndices. generalize 0 at 2.
  induction lines as [|l lines IH]; intros i; simpl; [reflexivity|].
  rewrite fold_count_shift. destruct (Match f l); simpl; rewrite (IH (S i)); reflexivity.
Qed.

(** X7: [GetMatchingIndices] returns, in strictly increasing order, exactly the indices of the lines the filter matches. *)
Theorem GetMatchingIndices_spec (f : FilterEngine) (lines : list LogLine) :
  Sorted lt (GetMatchingIndices f lines) /\
  forall i, In i (GetMatchingIndices f lines) <->
            exists l, nth_error lines i = Some l /\ Match f l = true.
Proof.
  unfold GetMatchingIndices. destruct (matchingIndicesFrom_spec f lines 0) as (Hs & Hin & Hc).
  split; [exact Hs|]. intros i; split.
  - intros Hi. destruct (Hin i Hi) as [_ E]. rewrite Nat.sub_0_r in E. exact E.
  - intros (l & E & M). exact (Hc i l E M).
Qed.

End MatchScanProofs.
Section NavigationProofs.
Context `{Regexp} `{TimeLib} `{Strconv}.

Lemma getContentHeight_pos pane isAll : (1 <= getContentHeight pane isAll)%Z.
Proof.
  unfold getContentHeight. destruct isAll.
  - destruct (Z.ltb_spec (height pane - 3 - 1) 1); lia.
  - destruct (Z.ltb_spec (height pane - 3) 1); lia.
Qed.

Lemma maxScroll_spec pane isAll buffer :
  maxScroll pane isAll buffer = Z.max 0 (Z.of_nat (Size buffer) - getContentHeight pane isAll).
Proof. unfold maxScroll. destruct (Z.ltb_spec (Z.of_nat (Size buffer) - getContentHeight pane isAll) 0); lia. Qed.

(** The scrolling never changes the pane's height, so neither its page size
    nor its largest scroll offset. *)
Lemma same_height_page pane pane' isAll buffer :
  height pane' = height pane ->
  getContentHeight pane' isAll = getContentHeight pane isAll /\
  maxScroll pane' isAll buffer = maxScroll pane isAll buffer.
Proof. intros E. unfold maxScroll, getContentHeight. rewrite E. auto. Qed.

Lemma scrollToLine_height pane isAll buffer i : height (scrollToLine pane isAll buffer i) = height pane.
Proof.
  unfold scrollToLine. destruct (Nat.eqb _ _); [reflexivity|].
  destruct (_ || _); reflexivity.
Qed.

Lemma scrollToLine_bounds pane isAll buffer i :
  (0 <= scrollY pane <= maxScroll pane isAll buffer)%Z ->
  let p' := scrollToLine pane isAll buffer i in
  (0 <= scrollY p' <= maxScroll pane isAll buffer)%Z.
Proof.
  intros Hb p'. unfold p', scrollToLine.
  destruct (Nat.eqb _ _); [exact Hb|].
  destruct (_ || _); [exact Hb|]. simpl.
  pose proof (maxScroll_spec pane isAll buffer).
  destruct (Z.ltb_spec (i - Z.quot (getContentHeight pane isAll) 2) 0);
  match goal with |- context [if (?a <? ?b)%Z then _ else _] => destruct (Z.ltb_spec a b) end; lia.
Qed.

Lemma nextMatch_fst f pane isAll buffer :
  fst (nextMatch f pane isAll buffer) = pane \/
  exists i, fst (nextMatch f pane isAll buffer) = scrollToLine pane isAll buffer i.
Proof.
  unfold nextMatch. destruct (negb _); [left; reflexivity|]. destruct (Nat.eqb _ _); [left; reflexivity|].
  destruct (find _ _); [right; eexists; reflexivity|].
  destruct (find _ _); [right; eexists; reflexivity | left; reflexivity].
Qed.

Lemma previousMatch_fst f pane isAll buffer :
  fst (previousMatch f pane isAll buffer) = pane \/
  exists i, fst (previousMatch f pane isAll buffer) = scrollToLine pane isAll buffer i.
Proof.
  unfold previousMatch. destruct (negb _); [left; reflexivity|]. destruct (Nat.eqb _ _); [left; reflexivity|].
  destruct (find _ _); [right; eexists; reflexivity|].
  destruct (find _ _); [right; eexists; reflexivity | left; reflexivity].
Qed.

(** X8: every navigation key (down, up, page down, page up, top, bottom, next match, previous match) keeps the height of the active pane and keeps its scroll offset between 0 and the size of the buffer minus the page height (0 when the buffer fits), if it was there before. *)
Theorem navigate_keeps_scroll_in_bounds (f : FilterEngine) (key : NavKey) (pane : LogPane)
        (isAll : bool) (buffer : CircularBuffer LogLine) :
  (0 <= scrollY pane <= maxScroll pane isAll buffer)%Z ->
  let pane' := navigate f key pane isAll buffer in
  height pane' = height pane /\
  (0 <= scrollY pane' <= maxScroll pane' isAll buffer)%Z.
Proof.
  intros Hb pane'.
  assert (Hh : height pane' = height pane).
  { unfold pane', navigate. destruct key.
    - unfold scrollDown. destruct (Nat.eqb _ _); [|destruct (Z.ltb _ _)]; reflexivity.
    - unfold scrollUp. destruct (Z.ltb _ _); reflexivity.
    - unfold pageDown. destruct (Nat.eqb _ _); reflexivity.
    - reflexivity.
    - reflexivity.
    - unfold goToBottom. destruct (Nat.eqb _ _); reflexivity.
    - destruct (nextMatch_fst f pane isAll buffer) as [-> | [i ->]]; auto using scrollToLine_height.
    - destruct (previousMatch_fst f pane isAll buffer) as [-> | [i ->]]; auto using scrollToLine_height. }
  split; [exact Hh|].
  destruct (same_height_page pane pane' isAll buffer Hh) as [_ ->].
  pose proof (maxScroll_spec pane isAll buffer) as Hms.
  pose proof (getContentHeight_pos pane isAll) as Hch.
  unfold pane', navigate. destruct key.
  - unfold scrollDown. destruct (Nat.eqb _ _); [exact Hb|].
    destruct (Z.ltb_spec (scrollY pane) (maxScroll pane isAll buffer)); simpl; lia.
  - unfold scrollUp. destruct (Z.ltb_spec 0 (scrollY pane)); simpl; lia.
  - unfold pageDown. destruct (Nat.eqb _ _); [exact Hb|]. simpl.
    destruct (Z.ltb_spec (maxScroll pane isAll buffer) (scrollY pane + getContentHeight pane isAll)); lia.
  - unfold pageUp. simpl.
    destruct (Z.ltb_spec (scrollY pane - getContentHeight pane isAll) 0); lia.
  - simpl. lia.
  - unfold goToBottom. destruct (Nat.eqb _ _); [exact Hb|]. simpl. lia.
  - destruct (nextMatch_fst f pane isAll buffer) as [-> | [i ->]]; [exact Hb|].
    apply scrollToLine_bounds; exact Hb.
  - destruct (previousMatch_fst f pane isAll buffer) as [-> | [i ->]]; [exact Hb|].
    apply scrollToLine_bounds; exact Hb.
Qed.

(** X9: [scrollToLine] with a line index inside the buffer puts the cursor on that line, on a row of the visible page, with the scroll offset in bounds, and marks the pane as scrolled by the user. *)
Theorem scrollToLine_shows_line (pane : LogPane) (isAll : bool) (buffer : CircularBuffer LogLine)
        (lineIndex : Z) :
  (0 <= lineIndex < Z.of_nat (Size buffer))%Z ->
  let pane' := scrollToLine pane isAll buffer lineIndex in
  (scrollY pane' + cursorY pane' = lineIndex)%Z /\
  (0 <= cursorY pane' < getContentHeight pane' isAll)%Z /\
  (0 <= scrollY pane' <= maxScroll pane' isAll buffer)%Z /\
  userScrolled pane' = true.
Proof.
  intros Hi pane'.
  destruct (same_height_page pane pane' isAll buffer (scrollToLine_height _ _ _ _)) as [-> ->].
  pose proof (maxScroll_spec pane isAll buffer) as Hms.
  pose proof (getContentHeight_pos pane isAll) as Hch.
  set (ps := getContentHeight pane isAll) in *.
  assert (Hq : (0 <= Z.quot ps 2 /\ 2 * Z.quot ps 2 <= ps)%Z).
  { rewrite Z.quot_div_nonneg by lia. split; [apply Z.div_pos; lia|]. apply Z.mul_div_le; lia. }
  unfold pane', scrollToLine.
  destruct (Nat.eqb_spec (Size buffer) 0) as [E|_]; [lia|].
  replace ((lineIndex <? 0)%Z || (Z.of_nat (Size buffer) <=? lineIndex)%Z) with false
    by (symmetry; apply orb_false_iff; split; [apply Z.ltb_ge | apply Z.leb_gt]; lia).
  fold ps. simpl.
  destruct (Z.ltb_spec (lineIndex - Z.quot ps 2) 0);
  match goal with |- context [if (?a <? ?b)%Z then _ else _] => destruct (Z.ltb_spec a b) end;
  repeat split; lia.
Qed.

(** X10: on a nonempty buffer [goToBottom] scrolls to the largest offset, puts the cursor on the last line within the page and turns auto scrolling back on. *)
Theorem goToBottom_shows_last_line (pane : LogPane) (isAll : bool) (buffer : CircularBuffer LogLine) :
  0 < Size buffer ->
  let pane' := goToBottom pane isAll buffer in
  (scrollY pane' + cursorY pane' = Z.of_nat (Size buffer) - 1)%Z /\
  (0 <= cursorY pane' < getContentHeight pane' isAll)%Z /\
  scrollY pane' = maxScroll pane' isAll buffer /\
  userScrolled pane' = false.
Proof.
  intros Hn pane'.
  assert (Hh : height pane' = height pane).
  { unfold pane', goToBottom. destruct (Nat.eqb _ _); reflexivity. }
  destruct (same_height_page pane pane' isAll buffer Hh) as [-> ->].
  pose proof (maxScroll_spec pane isAll buffer) as Hms.
  pose proof (getContentHeight_pos pane isAll) as Hch.
  unfold pane', goToBottom.
  destruct (Nat.eqb_spec (Size buffer) 0) as [E|_]; [lia|]. simpl.
  repeat split; lia.
Qed.

End NavigationProofs.
Section SearchProofs.
Context `{Regexp} `{TimeLib} `{Strconv}.

Lemma zrange_S a n :
  map (fun k => (a + Z.of_nat k)%Z) (seq 0 (S n)) =
  a :: map (fun k => ((a + 1) + Z.of_nat k)%Z) (seq 0 n).
Proof.
  simpl. f_equal; [lia|]. rewrite <- seq_shift, map_map.
  apply map_ext; intros; lia.
Qed.

Lemma find_zrange_up (h : Z -> bool) a n :
  match find h (map (fun k => (a + Z.of_nat k)%Z) (seq 0 n)) with
  | Some x => (a <= x < a + Z.of_nat n)%Z /\ h x = true /\
              forall y, (a <= y < x)%Z -> h y = false
  | None => forall y, (a <= y < a + Z.of_nat n)%Z -> h y = false
  end.
Proof.
  revert a; induction n as [|n IH]; intros a; simpl.
  - intros; lia.
  - rewrite <- seq_shift, map_map.
    replace (map (fun x => (a + Z.of_nat (S x))%Z) (seq 0 n))
      with (map (fun k => ((a + 1) + Z.of_nat k)%Z) (seq 0 n))
      by (apply map_ext; intros; lia).
    rewrite Z.add_0_r.
    destruct (h a) eqn:Ha.
    + repeat split; try lia; auto; intros; lia.
    + specialize (IH (a + 1)%Z).
      destruct (find h _) as [x|].
      * destruct IH as (Hx & Hhx & Hb). repeat split; try lia; auto.
        intros y Hy. destruct (Z.eq_dec y a) as [->|]; auto. apply Hb; lia.
      * intros y Hy. destruct (Z.eq_dec y a) as [->|]; auto. apply IH; lia.
Qed.

Lemma find_zrange_down (h : Z -> bool) a n :
  match find h (rev (map (fun k => (a + Z.of_nat k)%Z) (seq 0 n))) with
  | Some x => (a <= x < a + Z.of_nat n)%Z /\ h x = true /\
              forall y, (x < y < a + Z.of_nat n)%Z -> h y = false
  | None => forall y, (a <= y < a + Z.of_nat n)%Z -> h y = false
  end.
Proof.
  induction n as [|n IH].
  - simpl; intros; lia.
  - rewrite seq_S, Nat.add_0_l, map_app, rev_app_distr. cbn [map rev app find].
    destruct (h (a + Z.of_nat n)%Z) eqn:Ha.
    + repeat split; try lia; auto; intros; lia.
    + destruct (find h _) as [x|].
      * destruct IH as (Hx & Hhx & Hb). repeat split; try lia; auto.
        intros y Hy. destruct (Z.eq_dec y (a + Z.of_nat n)) as [->|]; auto. apply Hb; lia.
      * intros y Hy. destruct (Z.eq_dec y (a + Z.of_nat n)) as [->|]; auto. apply IH; lia.
Qed.

Lemma zrange_unfold a b :
  zrange a b = map (fun k => (a + Z.of_nat k)%Z) (seq 0 (Z.to_nat (b - a))).
Proof. reflexivity. Qed.

Lemma mod_below (x n : Z) : (0 <= x < n)%Z -> (x mod n = x)%Z.
Proof. intros; apply Z.mod_small; lia. Qed.

Lemma mod_wrap (x n : Z) : (- n <= x < 0)%Z -> (x mod n = x + n)%Z.
Proof.
  intros Hx. replace x with ((x + n) + (-1) * n)%Z at 1 by ring.
  rewrite Z_mod_plus_full. apply Z.mod_small; lia.
Qed.

(** X11: with a filter set and the cursor inside the buffer, [nextMatch] jumps to the first matching line after the cursor, wrapping around to the start and ending at the cursor line; when no line matches, the pane is unchanged and the status is No more matches. *)
Theorem nextMatch_first_cyclic (f : FilterEngine) (pane : LogPane) (isAll : bool)
        (buffer : CircularBuffer LogLine) :
  let n := Z.of_nat (Size buffer) in
  let pos := (scrollY pane + cursorY pane)%Z in
  HasFilter f = true -> (0 <= pos < n)%Z ->
  (exists i, (0 <= i < n)%Z /\ lineMatches f buffer i = true /\
     (forall j, (0 <= j < n)%Z -> ((j - pos - 1) mod n < (i - pos - 1) mod n)%Z ->
                lineMatches f buffer j = false) /\
     nextMatch f pane isAll buffer = (scrollToLine pane isAll buffer i, None)) \/
  ((forall j, (0 <= j < n)%Z -> lineMatches f buffer j = false) /\
   nextMatch f pane isAll buffer = (pane, Some "No more matches"%string)).
Proof.
  intros n pos Hf Hpos.
  unfold nextMatch. rewrite Hf. simpl.
  destruct (Nat.eqb_spec (Size buffer) 0) as [E|_]; [unfold n in Hpos; lia|].
  fold pos n.
  pose proof (find_zrange_up (lineMatches f buffer) (pos + 1) (Z.to_nat (n - (pos + 1)))) as L1.
  rewrite <- zrange_unfold in L1.
  destruct (find (lineMatches f buffer) (zrange (pos + 1) n)) as [i|] eqn:F1.
  - destruct L1 as (Hi & Hm & Hb). left. exists i.
    repeat split; try lia; auto.
    intros j Hj Hd.
    rewrite (mod_below (i - pos - 1)) in Hd by lia.
    destruct (Z.le_gt_cases (pos + 1) j).
    + rewrite mod_below in Hd by lia. apply Hb; lia.
    + rewrite mod_wrap in Hd by lia. lia.
  - pose proof (find_zrange_up (lineMatches f buffer) 0 (Z.to_nat (pos + 1 - 0))) as L2.
    rewrite <- zrange_unfold in L2.
    destruct (find (lineMatches f buffer) (zrange 0 (pos + 1))) as [i|] eqn:F2.
    + destruct L2 as (Hi & Hm & Hb). left. exists i.
      repeat split; try lia; auto.
      intros j Hj Hd.
      rewrite (mod_wrap (i - pos - 1)) in Hd by lia.
      destruct (Z.le_gt_cases (pos + 1) j).
      * apply L1; lia.
      * rewrite mod_wrap in Hd by lia. apply Hb; lia.
    + right. split; [|reflexivity].
      intros j Hj. destruct (Z.le_gt_cases (pos + 1) j); [apply L1 | apply L2]; lia.
Qed.

(** X12: with a filter set and the cursor inside the buffer, [previousMatch] jumps to the first matching line before the cursor going backwards, wrapping around from the end and ending at the cursor line; when no line matches, the pane is unchanged and the status is No more matches. *)
Theorem previousMatch_first_cyclic (f : FilterEngine) (pane : LogPane) (isAll : bool)
        (buffer : CircularBuffer LogLine) :
  let n := Z.of_nat (Size buffer) in
  let pos := (scrollY pane + cursorY pane)%Z in
  HasFilter f = true -> (0 <= pos < n)%Z ->
  (exists i, (0 <= i < n)%Z /\ lineMatches f buffer i = true /\
     (forall j, (0 <= j < n)%Z -> ((pos - 1 - j) mod n < (pos - 1 - i) mod n)%Z ->
                lineMatches f buffer j = false) /\
     previousMatch f pane isAll buffer = (scrollToLine pane isAll buffer i, None)) \/
  ((forall j, (0 <= j < n)%Z -> lineMatches f buffer j = false) /\
   previousMatch f pane isAll buffer = (pane, Some "No more matches"%string)).
Proof.
  intros n pos Hf Hpos.
  unfold previousMatch. rewrite Hf. simpl.
  destruct (Nat.eqb_spec (Size buffer) 0) as [E|_]; [unfold n in Hpos; lia|].
  fold pos n.
  pose proof (find_zrange_down (lineMatches f buffer) 0 (Z.to_nat (pos - 0))) as L1.
  rewrite <- zrange_unfold in L1.
  destruct (find (lineMatches f buffer) (rev (zrange 0 pos))) as [i|] eqn:F1.
  - destruct L1 as (Hi & Hm & Hb). left. exists i.
    repeat split; try lia; auto.
    intros j Hj Hd.
    rewrite (mod_below (pos - 1 - i)) in Hd by lia.
    destruct (Z.lt_ge_cases j pos).
    + rewrite mod_below in Hd by lia. apply Hb; lia.
    + rewrite mod_wrap in Hd by lia. lia.
  - pose proof (find_zrange_down (lineMatches f buffer) pos (Z.to_nat (n - pos))) as L2.
    rewrite <- zrange_unfold in L2.
    destruct (find (lineMatches f buffer) (rev (zrange pos n))) as [i|] eqn:F2.
    + destruct L2 as (Hi & Hm & Hb). left. exists i.
      repeat split; try lia; auto.
      intros j Hj Hd.
      rewrite (mod_wrap (pos - 1 - i)) in Hd by lia.
      destruct (Z.lt_ge_cases j pos).
      * apply L1; lia.
      * rewrite mod_wrap in Hd by lia. apply Hb; lia.
    + right. split; [|reflexivity].
      intros j Hj. destruct (Z.lt_ge_cases j pos); [apply L1 | apply L2]; lia.
Qed.

End SearchProofs.
Section ExporterProofs.
Local Open Scope string_scope.

Lemma char_eqb_refl' (c : ascii) : char_eqb c c = true.
Proof. apply Ascii.eqb_refl. Qed.

Lemma char_eqb_true (a b : ascii) : char_eqb a b = true -> a = b.
Proof. unfold char_eqb; intros E; apply Ascii.eqb_eq; exact E. Qed.

Lemma str_app_nil_r (a : string) : a ++ EmptyString = a.
Proof. induction a; simpl; congruence. Qed.

Lemma ReplaceAll_app (s t : string) old new :
  ReplaceAll (s ++ t) old new = ReplaceAll s old new ++ ReplaceAll t old new.
Proof.
  induction s as [|c s IH]; simpl; [reflexivity|].
  destruct (char_eqb c old); rewrite IH; [rewrite str_app_assoc|]; reflexivity.
Qed.

Lemma ReplaceAll_char (c old : ascii) new :
  ReplaceAll (String c EmptyString) old new =
  if char_eqb c old then new else String c EmptyString.
Proof. simpl. destruct (char_eqb c old); [apply str_app_nil_r | reflexivity]. Qed.

(** CSV *)

Lemma csv_unquoted_app (f rest : string) :
  ContainsChar f "," = false ->
  (rest = EmptyString \/ exists r, rest = String "," r) ->
  csv_unquoted (f ++ rest) = (f, rest).
Proof.
  intros Hf Hr. induction f as [|c f IH]; simpl in *.
  - destruct Hr as [-> | [r ->]]; [reflexivity|]. simpl; try rewrite char_eqb_refl'; reflexivity.
  - apply orb_false_iff in Hf as [Hc Hf]. rewrite Hc, IH by exact Hf. reflexivity.
Qed.

Lemma csv_quoted_escaped (f rest : string) :
  (rest = EmptyString \/ exists r, rest = String "," r) ->
  csv_quoted (ReplaceAll f quote (dq ++ dq) ++ dq ++ rest) = Some (f, rest).
Proof.
  intros Hr. induction f as [|c f IH].
  - destruct Hr as [-> | [r ->]]; reflexivity.
  - cbn [ReplaceAll]. destruct (char_eqb c quote) eqn:Hc.
    + apply char_eqb_true in Hc; subst c.
      rewrite !str_app_assoc. simpl in *. rewrite IH. reflexivity.
    + simpl in *. rewrite Hc, IH. reflexivity.
Qed.

Lemma csv_field_escaped (f rest : string) :
  (rest = EmptyString \/ exists r, rest = String "," r) ->
  csv_field (escapeCSV f ++ rest) = Some (f, rest).
Proof.
  intros Hr. unfold escapeCSV.
  destruct (ContainsAny f _) eqn:Hany.
  - assert (E : forall t, csv_field (dq ++ t) = csv_quoted t) by reflexivity.
    rewrite !str_app_assoc, E. apply csv_quoted_escaped; exact Hr.
  - simpl in Hany. apply orb_false_iff in Hany as [Hcomma Hany].
    apply orb_false_iff in Hany as [Hq _].
    destruct f as [|c f'].
    + simpl. destruct Hr as [-> | [r ->]]; [reflexivity|].
      simpl; try rewrite char_eqb_refl'; reflexivity.
    + simpl in Hq. apply orb_false_iff in Hq as [Hcq _].
      change (String c f' ++ rest) with (String c (f' ++ rest)).
      unfold csv_field. replace (char_eqb c quote) with false by (symmetry; exact Hcq).
      change (String c (f' ++ rest)) with (String c f' ++ rest).
      rewrite csv_unquoted_app by assumption. reflexivity.
Qed.

Lemma csvRecord_fields (row : list string) (fuel : nat) :
  row <> [] -> length row <= fuel -> csv_fields fuel (csvRecord row) = Some row.
Proof.
  unfold csvRecord. revert fuel; induction row as [|f row IH]; intros fuel Hne Hfuel; [congruence|].
  destruct fuel as [|fuel]; [simpl in Hfuel; lia|].
  destruct row as [|g row].
  - simpl. rewrite <- (str_app_nil_r (escapeCSV f)) at 1. rewrite csv_field_escaped by auto.
    reflexivity.
  - change (join "," (map escapeCSV (f :: g :: row)))
      with (escapeCSV f ++ "," ++ join "," (map escapeCSV (g :: row))).
    simpl csv_fields. rewrite csv_field_escaped by (right; eexists; reflexivity).
    simpl. rewrite IH by (simpl in *; first [discriminate | lia]). reflexivity.
Qed.

Lemma csvRecord_length (row : list string) :
  length row <= S (String.length (csvRecord row)).
Proof.
  unfold csvRecord. induction row as [|f row IH]; [simpl; lia|].
  destruct row as [|g row]; [simpl; lia|].
  change (join "," (map escapeCSV (f :: g :: row)))
    with (escapeCSV f ++ "," ++ join "," (map escapeCSV (g :: row))).
  rewrite !str_length_app. cbn [length String.length] in *. lia.
Qed.

(** X13: a row of fields written with [escapeCSV] and joined by commas is read back field for field by an RFC 4180 record reader. *)
Theorem csvRecord_read_back (row : list string) :
  row <> [] -> read_csv_record (csvRecord row) = Some row.
Proof.
  intros Hne. unfold read_csv_record. apply csvRecord_fields; auto. apply csvRecord_length.
Qed.

End ExporterProofs.
Section HtmlProofs.
Local Open Scope string_scope.

Lemma substring_all (t : string) : substring 0 (String.length t) t = t.
Proof. induction t; simpl; congruence. Qed.

Lemma slice_from_app (p t : string) : slice_from (p ++ t) (String.length p) = t.
Proof.
  unfold slice_from. rewrite str_length_app.
  replace (String.length p + String.length t - String.length p) with (String.length t) by lia.
  induction p; simpl; [apply substring_all | exact IHp].
Qed.

Lemma unescape_entity (e : string) fuel t :
  html_unescape_aux (S fuel) (e ++ t) =
  (if HasPrefix (e ++ t) "&amp;" then "&" ++ html_unescape_aux fuel (slice_from (e ++ t) 5)
   else if HasPrefix (e ++ t) "&lt;" then "<" ++ html_unescape_aux fuel (slice_from (e ++ t) 4)
   else if HasPrefix (e ++ t) "&gt;" then ">" ++ html_unescape_aux fuel (slice_from (e ++ t) 4)
   else if HasPrefix (e ++ t) "&quot;" then str quote ++ html_unescape_aux fuel (slice_from (e ++ t) 6)
   else if HasPrefix (e ++ t) "&#39;" then "'" ++ html_unescape_aux fuel (slice_from (e ++ t) 5)
   else match e ++ t with
        | EmptyString => EmptyString
        | String c s' => String c (html_unescape_aux fuel s')
        end).
Proof.
  simpl. destruct (e ++ t) eqn:E; [reflexivity|]. rewrite <- E. reflexivity.
Qed.
End HtmlProofs.
Section HtmlProofs2.
Local Open Scope string_scope.

Lemma HasPrefix_app_self (p t : string) : HasPrefix (p ++ t) p = true.
Proof. induction p; simpl; [destruct t; reflexivity|]. rewrite IHp, andb_true_r. apply Ascii.eqb_refl. Qed.

Lemma HasPrefix_head_false (c p : ascii) (x q : string) :
  char_eqb c p = false -> HasPrefix (String c x) (String p q) = false.
Proof. intros H. cbn [HasPrefix]. rewrite H. reflexivity. Qed.

Lemma escapeHTML_app (a b : string) : escapeHTML (a ++ b) = escapeHTML a ++ escapeHTML b.
Proof. unfold escapeHTML. rewrite !ReplaceAll_app. reflexivity. Qed.

Lemma escapeHTML_char (c : ascii) :
  escapeHTML (String c EmptyString) =
  if char_eqb c "&" then "&amp;" else if char_eqb c "<" then "&lt;"
  else if char_eqb c ">" then "&gt;" else if char_eqb c quote then "&quot;"
  else if char_eqb c "'" then "&#39;" else String c EmptyString.
Proof.
  unfold escapeHTML. rewrite ReplaceAll_char.
  destruct (char_eqb c "&") eqn:E1; [apply char_eqb_true in E1; subst; reflexivity|].
  rewrite ReplaceAll_char.
  destruct (char_eqb c "<") eqn:E2; [apply char_eqb_true in E2; subst; reflexivity|].
  rewrite ReplaceAll_char.
  destruct (char_eqb c ">") eqn:E3; [apply char_eqb_true in E3; subst; reflexivity|].
  rewrite ReplaceAll_char.
  destruct (char_eqb c quote) eqn:E4; [apply char_eqb_true in E4; subst; reflexivity|].
  rewrite ReplaceAll_char.
  destruct (char_eqb c "'") eqn:E5; [apply char_eqb_true in E5; subst; reflexivity|].
  reflexivity.
Qed.

Lemma escapeHTML_cons (c : ascii) (s : string) :
  escapeHTML (String c s) = escapeHTML (String c EmptyString) ++ escapeHTML s.
Proof. rewrite <- escapeHTML_app. reflexivity. Qed.

Lemma unescape_escaped (s : string) fuel :
  String.length (escapeHTML s) <= fuel -> html_unescape_aux fuel (escapeHTML s) = s.
Proof.
  revert fuel; induction s as [|c s IH]; intros fuel Hf.
  - destruct fuel; reflexivity.
  - rewrite escapeHTML_cons, escapeHTML_char in *.
    destruct fuel as [|fuel].
    { rewrite str_length_app in Hf.
      destruct (char_eqb c "&"), (char_eqb c "<"), (char_eqb c ">"), (char_eqb c quote),
               (char_eqb c "'"); simpl in Hf; lia. }
    rewrite unescape_entity.
    destruct (char_eqb c "&") eqn:E1;
      [apply char_eqb_true in E1; subst;
       rewrite HasPrefix_app_self; change 5 with (String.length "&amp;");
       rewrite slice_from_app, IH; [reflexivity|rewrite str_length_app in Hf; simpl in Hf; lia]|].
    destruct (char_eqb c "<") eqn:E2;
      [apply char_eqb_true in E2; subst;
       rewrite HasPrefix_app_self; change 4 with (String.length "&lt;");
       rewrite slice_from_app, IH; [reflexivity|rewrite str_length_app in Hf; simpl in Hf; lia]|].
    destruct (char_eqb c ">") eqn:E3;
      [apply char_eqb_true in E3; subst;
       rewrite HasPrefix_app_self; change 4 with (String.length "&gt;");
       rewrite slice_from_app, IH; [reflexivity|rewrite str_length_app in Hf; simpl in Hf; lia]|].
    destruct (char_eqb c quote) eqn:E4;
      [apply char_eqb_true in E4; subst;
       rewrite HasPrefix_app_self; change 6 with (String.length "&quot;");
       rewrite slice_from_app, IH; [reflexivity|rewrite str_length_app in Hf; simpl in Hf; lia]|].
    destruct (char_eqb c "'") eqn:E5;
      [apply char_eqb_true in E5; subst;
       rewrite HasPrefix_app_self; change 5 with (String.length "&#39;");
       rewrite slice_from_app, IH; [reflexivity|rewrite str_length_app in Hf; simpl in Hf; lia]|].
    change (String c EmptyString ++ escapeHTML s) with (String c (escapeHTML s)).
    repeat rewrite (HasPrefix_head_false c "&" _ _ E1).
    cbv beta iota. rewrite IH; [reflexivity|]. simpl in Hf. lia.
Qed.

End HtmlProofs2.
Section HtmlProofs3.
Local Open Scope string_scope.

Lemma escapeHTML_no_markup (s : string) :
  ContainsChar (escapeHTML s) "<" = false /\ ContainsChar (escapeHTML s) ">" = false /\
  ContainsChar (escapeHTML s) "'" = false /\ ContainsChar (escapeHTML s) quote = false.
Proof.
  induction s as [|c s IH]; [repeat split|].
  rewrite escapeHTML_cons, escapeHTML_char, !ContainsChar_app.
  destruct IH as (I1 & I2 & I3 & I4). rewrite I1, I2, I3, I4, !orb_false_r.
  destruct (char_eqb c "&") eqn:E1; [repeat split|].
  destruct (char_eqb c "<") eqn:E2; [repeat split|].
  destruct (char_eqb c ">") eqn:E3; [repeat split|].
  destruct (char_eqb c quote) eqn:E4; [repeat split|].
  destruct (char_eqb c "'") eqn:E5; [repeat split|].
  cbn [ContainsChar]. rewrite E2, E3, E4, E5. repeat split.
Qed.

(** X14: the output of [escapeHTML] contains no [<], [>], single or double quote, and decoding its five character references gives back the input. *)
Theorem escapeHTML_safe_and_reversible (s : string) :
  ContainsAny (escapeHTML s) ("<>'" ++ dq) = false /\
  html_unescape (escapeHTML s) = s.
Proof.
  split.
  - destruct (escapeHTML_no_markup s) as (I1 & I2 & I3 & I4).
    cbn [ContainsAny append dq]. rewrite I1, I2, I3. exact (f_equal (fun b => b || false) I4).
  - apply unescape_escaped. lia.
Qed.

End HtmlProofs3.
Section TokenProofs.

Lemma overlaps_iff (t k : Token) :
  wf_token t -> wf_token k ->
  overlaps t k = true <-> (tok_Start t < tok_End k /\ tok_Start k < tok_End t)%Z.
Proof.
  unfold wf_token, overlaps; intros Ht Hk.
  rewrite !orb_true_iff, !andb_true_iff, !Z.leb_le, !Z.ltb_lt. lia.
Qed.

Lemma ForallOrdPairs_snoc {B : Type} (R : B -> B -> Prop) (l : list B) (x : B) :
  ForallOrdPairs R l -> (forall y, In y l -> R y x) -> ForallOrdPairs R (l ++ [x]).
Proof.
  induction l as [|y l IH]; intros H Hx; simpl.
  - constructor; [constructor | constructor].
  - inversion H as [|? ? Hy Hl]; subst. constructor.
    + apply Forall_app; split; [exact Hy|]. constructor; [apply Hx; left; reflexivity | constructor].
    + apply IH; [exact Hl|]. intros z Hz; apply Hx; right; exact Hz.
Qed.

Lemma remove_fold_inv (tokens filtered : list Token) (seen : list Token) :
  (forall t, In t (seen ++ tokens) -> wf_token t) ->
  ForallOrdPairs disjoint_tokens filtered ->
  (forall k, In k filtered -> In k seen) ->
  (forall t, In t seen -> exists k, In k filtered /\
             (tok_Start t < tok_End k /\ tok_Start k < tok_End t)%Z) ->
  let r := fold_left (fun filtered token =>
                        if existsb (overlaps token) filtered then filtered
                        else filtered ++ [token]) tokens filtered in
  ForallOrdPairs disjoint_tokens r /\
  (forall k, In k r -> In k (seen ++ tokens)) /\
  (forall t, In t (seen ++ tokens) -> exists k, In k r /\
             (tok_Start t < tok_End k /\ tok_Start k < tok_End t)%Z).
Proof.
  revert filtered seen; induction tokens as [|t tokens IH]; intros filtered seen Hwf Hd Hsub Hcov r.
  - simpl in r; rewrite app_nil_r in *. auto.
  - replace (seen ++ t :: tokens) with ((seen ++ [t]) ++ tokens) in * by (rewrite <- app_assoc; reflexivity).
    assert (Hwt : wf_token t) by (apply Hwf; apply in_or_app; left; apply in_or_app; right; left; reflexivity).
    assert (Hwk : forall k, In k filtered -> wf_token k)
      by (intros k Hk; apply Hwf; apply in_or_app; left; apply in_or_app; left; auto).
    unfold r; simpl. destruct (existsb (overlaps t) filtered) eqn:Ex.
    + apply IH; auto.
      * intros k Hk; apply in_or_app; left; auto.
      * intros u Hu. apply in_app_or in Hu as [Hu | [<- | []]]; [auto|].
        apply existsb_exists in Ex as (k & Hk & Ho).
        exists k; split; [exact Hk|]. apply (overlaps_iff t k Hwt (Hwk k Hk)); exact Ho.
    + apply IH; auto.
      * apply ForallOrdPairs_snoc; [exact Hd|]. intros y Hy.
        assert (Hno : overlaps t y = false).
        { destruct (overlaps t y) eqn:E; [|reflexivity].
          rewrite <- Ex. symmetry. apply existsb_exists. eauto. }
        unfold disjoint_tokens.
        destruct (Z.lt_ge_cases (tok_Start t) (tok_End y)); [|lia].
        destruct (Z.lt_ge_cases (tok_Start y) (tok_End t)); [|lia].
        exfalso. assert (overlaps t y = true) by (apply overlaps_iff; auto using Hwk).
        congruence.
      * intros k Hk. apply in_app_or in Hk as [Hk | [<- | []]].
        -- apply in_or_app; left; auto.
        -- apply in_or_app; right; left; reflexivity.
      * intros u Hu. apply in_app_or in Hu as [Hu | [<- | []]].
        -- destruct (Hcov u Hu) as (k & Hk & Hi). exists k; split; [apply in_or_app; left|]; auto.
        -- exists t. split; [apply in_or_app; right; left; reflexivity|]. unfold wf_token in Hwt; lia.
Qed.

(** X16: for tokens with nonempty spans, [removeOverlappingTokens] keeps pairwise disjoint tokens taken from its input, and every input token overlaps some kept token. *)
Theorem removeOverlappingTokens_disjoint (tokens : list Token) :
  (forall t, In t tokens -> (tok_Start t < tok_End t)%Z) ->
  let kept := removeOverlappingTokens tokens in
  ForallOrdPairs (fun a b => tok_End a <= tok_Start b \/ tok_End b <= tok_Start a)%Z kept /\
  (forall k, In k kept -> In k tokens) /\
  (forall t, In t tokens -> exists k, In k kept /\
             (tok_Start t < tok_End k /\ tok_Start k < tok_End t)%Z).
Proof.
  intros Hwf kept. unfold kept, removeOverlappingTokens.
  destruct (Nat.leb_spec (length tokens) 1) as [Hle | Hgt].
  - split; [|split; [auto|]].
    + destruct tokens as [|a [|b l]]; [constructor | | simpl in Hle; lia].
      constructor; [constructor | constructor].
    + intros t Ht. exists t. split; [exact Ht|]. specialize (Hwf t Ht); lia.
  - apply (remove_fold_inv tokens [] []); simpl; auto.
    + constructor.
    + intros t [].
Qed.

End TokenProofs.

Section SavedQueryProofs.
Local Open Scope string_scope.

Lemma find_none_all {A : Type} (p : A -> bool) (l : list A) :
  (forall x, In x l -> p x = false) -> find p l = None.
Proof.
  induction l as [|x l IH]; intros H; simpl; [reflexivity|].
  rewrite (H x (or_introl eq_refl)). apply IH. intros y Hy. apply H. right; exact Hy.
Qed.

Lemma names_AddSavedQuery qs q :
  (exists e, In e qs /\ sq_Name e = sq_Name q /\ map sq_Name (AddSavedQuery qs q) = map sq_Name qs) \/
  (~ In (sq_Name q) (map sq_Name qs) /\ map sq_Name (AddSavedQuery qs q) = (map sq_Name qs ++ [sq_Name q])%list).
Proof.
  induction qs as [|e qs IH]; simpl.
  - right; auto.
  - destruct (String.eqb_spec (sq_Name e) (sq_Name q)) as [E|E].
    + left. exists e. simpl. rewrite E. auto.
    + destruct IH as [(e' & Hin & Hn & Hm) | (Hnin & Hm)].
      * left. exists e'. simpl. rewrite Hm. auto.
      * right. simpl. rewrite Hm. split; [|reflexivity]. intros [H|H]; auto.
Qed.

(** X17: [AddSavedQuery] keeps saved query names unique, makes the new query the one found under its name, and leaves the queries of other names as they were. *)
Theorem AddSavedQuery_spec (queries : list SavedQuery) (query : SavedQuery) :
  NoDup (map sq_Name queries) ->
  let queries' := AddSavedQuery queries query in
  NoDup (map sq_Name queries') /\
  findSavedQuery queries' (sq_Name query) = Some query /\
  (forall name, name <> sq_Name query -> findSavedQuery queries' name = findSavedQuery queries name).
Proof.
  intros Hnd queries'. split; [|split].
  - unfold queries'. destruct (names_AddSavedQuery queries query) as [(e & _ & _ & ->) | (Hnin & ->)].
    + exact Hnd.
    + apply NoDup_app; auto.
      * repeat constructor; auto.
      * intros x Hx [<- | []]. contradiction.
  - unfold queries', findSavedQuery. clear Hnd.
    induction queries as [|e qs IH]; simpl.
    + rewrite String.eqb_refl. reflexivity.
    + destruct (String.eqb_spec (sq_Name e) (sq_Name query)) as [E|E]; simpl.
      * rewrite String.eqb_refl. reflexivity.
      * apply String.eqb_neq in E. rewrite E. exact IH.
  - intros name Hne. unfold queries', findSavedQuery. clear Hnd.
    induction queries as [|e qs IH]; simpl.
    + apply String.eqb_neq in Hne. rewrite (String.eqb_sym (sq_Name query)), Hne. reflexivity.
    + destruct (String.eqb_spec (sq_Name e) (sq_Name query)) as [E|E]; simpl.
      * rewrite E. apply String.eqb_neq in Hne.
        rewrite (String.eqb_sym (sq_Name query)), Hne. reflexivity.
      * destruct (String.eqb (sq_Name e) name); [reflexivity | exact IH].
Qed.

(** X18: with unique names, after [RemoveSavedQuery] no query of that name is found, names stay unique, and the queries of other names are unchanged. *)
Theorem RemoveSavedQuery_spec (queries : list SavedQuery) (name : string) :
  NoDup (map sq_Name queries) ->
  let queries' := RemoveSavedQuery queries name in
  NoDup (map sq_Name queries') /\
  findSavedQuery queries' name = None /\
  (forall other, other <> name -> findSavedQuery queries' other = findSavedQuery queries other).
Proof.
  intros Hnd queries'. unfold queries', findSavedQuery.
  induction queries as [|e qs IH]; simpl.
  - split; [constructor | split; [reflexivity | auto]].
  - simpl in Hnd. inversion Hnd as [|? ? Hnin Hnd']; subst.
    destruct (IH Hnd') as (I1 & I2 & I3).
    destruct (String.eqb_spec (sq_Name e) name) as [E|E].
    + split; [exact Hnd'|]. split.
      * apply find_none_all. intros x Hx. apply String.eqb_neq. intros Ex.
        apply Hnin. rewrite E, <- Ex. apply in_map; exact Hx.
      * intros other Hne. rewrite E. apply String.eqb_neq in Hne.
        rewrite String.eqb_sym, Hne. reflexivity.
    + simpl. split; [|split].
      * constructor; [|exact I1]. intros Hin. apply Hnin.
        clear -Hin. induction qs as [|x qs IH]; simpl in *; [exact Hin|].
        destruct (String.eqb (sq_Name x) name); [right; exact Hin|].
        destruct Hin as [H|H]; [left; exact H | right; auto].
      * apply String.eqb_neq in E. rewrite E. exact I2.
      * intros other Hne. destruct (String.eqb (sq_Name e) other); [reflexivity|]. apply I3; exact Hne.
Qed.

(** X19: removing a query just added under a new name gives back the original list. *)
Theorem RemoveSavedQuery_AddSavedQuery (queries : list SavedQuery) (query : SavedQuery) :
  ~ In (sq_Name query) (map sq_Name queries) ->
  RemoveSavedQuery (AddSavedQuery queries query) (sq_Name query) = queries.
Proof.
  induction queries as [|e qs IH]; intros Hnin; simpl.
  - rewrite String.eqb_refl. reflexivity.
  - simpl in Hnin. destruct (String.eqb_spec (sq_Name e) (sq_Name query)) as [E|E].
    + exfalso; apply Hnin; left; exact E.
    + simpl. apply String.eqb_neq in E. rewrite E. f_equal. apply IH. intros H; apply Hnin; right; exact H.
Qed.

End SavedQueryProofs.
Section ParsedFieldProofs.
Local Open Scope string_scope.

Lemma GetParsedField_walk line fieldPath :
  GetParsedField line fieldPath =
  match line.(Parsed) with
  | None => None
  | Some m => parsedFieldWalk (SplitChar fieldPath ".") m
  end.
Proof. unfold GetParsedField. destruct (Parsed line); reflexivity. Qed.

Lemma split_char_aux_app p q sep cur :
  split_char_aux (p ++ String sep q) sep cur =
  (split_char_aux p sep cur ++ split_char_aux q sep EmptyString)%list.
Proof.
  revert cur. induction p as [|c p IH]; intros cur; simpl.
  - rewrite char_eqb_refl'. reflexivity.
  - destruct (char_eqb c sep).
    + rewrite IH. reflexivity.
    + apply IH.
Qed.

Lemma split_char_aux_nonempty s sep cur : split_char_aux s sep cur <> [].
Proof.
  revert cur. induction s as [|c s IH]; intros cur; simpl.
  - discriminate.
  - destruct (char_eqb c sep); [discriminate | apply IH].
Qed.

Lemma parsedFieldWalk_cons2 x y r m :
  parsedFieldWalk (x :: y :: r) m =
  match lookup x m with
  | Some (VMap n) => parsedFieldWalk (y :: r) n
  | _ => None
  end.
Proof. cbn [parsedFieldWalk]. destruct (lookup x m) as [[]|]; reflexivity. Qed.

Lemma parsedFieldWalk_app ps1 ps2 m :
  ps1 <> [] -> ps2 <> [] ->
  parsedFieldWalk (ps1 ++ ps2) m =
  match parsedFieldWalk ps1 m with
  | Some (VMap n) => parsedFieldWalk ps2 n
  | _ => None
  end.
Proof.
  revert m. induction ps1 as [|x ps1 IH]; intros m H1 H2; [congruence|].
  destruct ps1 as [|y r].
  - simpl. destruct (lookup x m) as [v|]; [|reflexivity].
    destruct ps2 as [|z ps2]; [congruence|]. destruct v; reflexivity.
  - change ((x :: y :: r) ++ ps2)%list with (x :: y :: (r ++ ps2))%list.
    rewrite !(parsedFieldWalk_cons2 x y).
    destruct (lookup x m) as [v|]; [|reflexivity].
    destruct v; try reflexivity.
    apply IH; congruence.
Qed.

(** X20: [GetParsedField] resolves a path [p.q] by resolving [p] and then [q] inside the nested map found there; it gives nil when [p] is missing or is not a map. *)
Theorem GetParsedField_dotted_path line p q :
  GetParsedField line (p ++ "." ++ q) =
  match GetParsedField line p with
  | Some (VMap nested) => GetParsedField (set_Parsed line nested) q
  | _ => None
  end.
Proof.
  rewrite !GetParsedField_walk. cbn [Parsed set_Parsed].
  destruct (Parsed line) as [m|]; [|reflexivity].
  unfold SplitChar. change ("." ++ q) with (String "." q).
  rewrite split_char_aux_app.
  apply parsedFieldWalk_app; apply split_char_aux_nonempty.
Qed.

End ParsedFieldProofs.
Section TimeRangeExport.
Context `{Regexp} `{Decoders} `{TimeLib} `{Strconv}.

(** X15: the export time filter keeps exactly the lines the time range of the search filter accepts, except those with a zero timestamp and those stamped exactly at the start or the end of the range. *)
Theorem filterByTimeRange_vs_matchLine (lines : list LogLine) (tr : TimeRange) :
  filterByTimeRange lines tr =
  List.filter (fun line =>
                 matchLine line (time_only tr) &&
                 negb (IsZero line.(Timestamp)) &&
                 negb (line.(Timestamp) =? tr.(tr_Start))%Z &&
                 negb (line.(Timestamp) =? tr.(tr_End))%Z)
              lines.
Proof.
  unfold filterByTimeRange. apply filter_ext. intros line.
  unfold matchLine, time_only; cbn.
  destruct (IsZero (Timestamp line)); cbn; [reflexivity|].
  unfold After, Before.
  destruct (Z.ltb_spec (tr_Start tr) (Timestamp line)),
           (Z.ltb_spec (Timestamp line) (tr_End tr)),
           (Z.ltb_spec (Timestamp line) (tr_Start tr)),
           (Z.ltb_spec (tr_End tr) (Timestamp line)),
           (Z.eqb_spec (Timestamp line) (tr_Start tr)),
           (Z.eqb_spec (Timestamp line) (tr_End tr)); cbn; try reflexivity; lia.
Qed.

End TimeRangeExport.

(* ------------------------------------------------------------------ *)
(** ** Evaluated examples *)

Module Examples.
Import Instances Scenarios ExtraScenarios.
Local Open Scope string_scope.

(** C2 (counterexample).  On the line parsed from the S2 raw line,
    [level:ERROR AND status:>=500] does not match: the operators are
    tried in the order [:!=, :~, :>, :<, :>=, :<=, :], so [status:>=500]
    parses as [:>] with value [=500], which is not a number, and the
    byte-wise comparison of [502] with [=500] is false.  [status:500]
    does not match either: [:] is equality and the value is [502]. *)
Theorem S2_comparison_counterexample :
  ParseAdvancedQuery 0 "status:>=500" =
    Ok (FieldNode (mkFieldExpression "status" ":>" "=500" None)) /\
  eval_query "level:ERROR AND status:>=500" line_S2 = Some false /\
  eval_query "status:500" line_S2 = Some false.
Proof. vm_compute. repeat split. Qed.

(** C3 (counterexample).  A simple filter with only a time range
    matches a line with the zero timestamp; and an unstructured line
    keeps the tailer's wall-clock stamp [5], which the [TimeRange] node
    [0..10] accepts. *)
Theorem time_range_zero_timestamp_counterexample :
  let f := fst (SetFilter NewFilterEngine
                  (mkFilterOptions "" false false [] [] (Some (mkTimeRange 10 20)))) in
  Match f (set_Timestamp (emitted "hello") 0) = true /\
  Timestamp (ParseLogLine (emitted "hello")) = 5%Z /\
  Evaluate (TimeRangeExpression 0 10) (ParseLogLine (emitted "hello")) = true.
Proof. vm_compute. repeat split. Qed.

(** C6 (counterexample).  While paused, the JSON line is not parsed: its
    level stays empty and its parsed mapping nil, whereas parsing it
    gives the level [ERROR]. *)
Theorem paused_line_not_parsed_counterexample :
  handleTailerEvent paused_model clock (newline_event raw_boom) =
    (paused_model, Some (emitted raw_boom)) /\
  Level (emitted raw_boom) = "" /\ Parsed (emitted raw_boom) = None /\
  Level (ParseLogLine (emitted raw_boom)) = "ERROR".
Proof. vm_compute. repeat split. Qed.

(** C9 (counterexample).  [hello] parses into a case-insensitive text
    node, printed as the quoted ["hello"], which re-parses as a
    case-sensitive text node: the line [HELLO] matches the first tree
    and not the second. *)
Theorem round_trip_case_counterexample :
  match ParseAdvancedQuery 0 "hello" with
  | Ok t1 =>
      match ParseAdvancedQuery 0 (expr_String t1) with
      | Ok t2 => Evaluate t1 (emitted "HELLO") = true /\ Evaluate t2 (emitted "HELLO") = false
      | _ => False
      end
  | _ => False
  end.
Proof. vm_compute. split; reflexivity. Qed.

(** C1 (failing input).  The store holds the line parsed from
    [raw_boom]; searching [level:!=ERROR] and then [boom] leaves the
    filtered store empty, although the line contains [boom] and the
    filter [SetFilter] compiles for [boom] alone matches it: the simple
    search keeps the advanced expression of the previous search, which
    [Match] prefers. *)
Theorem stale_advanced_filter_after_simple_search :
  match after_two_searches model_boom "level:!=ERROR" "boom" with
  | Ok (m, None) =>
      Size (allLinesBuffer m) = 1 /\ Get (allLinesBuffer m) 0 = Some line_boom /\
      Size (filteredBuffer m) = 0 /\
      advancedExpression (filter m) =
        Some (FieldNode (mkFieldExpression "level" ":!=" "ERROR" None)) /\
      Match (fst (SetFilter NewFilterEngine boom_options)) line_boom = true
  | _ => False
  end.
Proof. vm_compute. repeat split. Qed.

(** The C10 theorem at a concrete engine. *)
Lemma advanced_expression_precedence_witness :
  "level:ERROR" <> "" /\
  SetAdvancedFilter NewFilterEngine 0 "level:ERROR" = Ok (adv_engine, None) /\
  SetFilter adv_engine boom_options = (simple_engine, None) /\
  (exists t, ParseAdvancedQuery 0 "level:ERROR" = Ok t /\ advancedExpression simple_engine = Some t /\
             forall line, Match simple_engine line = Evaluate t line).
Proof.
  assert (H1 : "level:ERROR" <> "") by discriminate.
  assert (H2 : SetAdvancedFilter NewFilterEngine 0 "level:ERROR" = Ok (adv_engine, None))
    by (vm_compute; reflexivity).
  assert (H3 : SetFilter adv_engine boom_options = (simple_engine, None))
    by (vm_compute; reflexivity).
  split; [exact H1|]. split; [exact H2|]. split; [exact H3|].
  exact (proj1 (advanced_expression_precedence NewFilterEngine 0 "level:ERROR"
                  adv_engine boom_options simple_engine H1 H2 H3)).
Defined.

(** Witness of C9: the tree prints as
    [(level:ERROR AND (NOT src:!=db.log OR Q))], where Q is the phrase
    timeout between double quotes, and reads back. *)
Lemma print_parse_round_trip_witness :
  Printable round_trip_tree /\
  expr_String round_trip_tree =
    "(level:ERROR AND (NOT src:!=db.log OR " ++ dq ++ "timeout" ++ dq ++ "))" /\
  ParseAdvancedQuery 0 (expr_String round_trip_tree) = Ok round_trip_tree.
Proof.
  assert (P : Printable round_trip_tree) by (vm_compute; repeat split).
  split; [exact P | split; [reflexivity |]].
  apply (print_parse_round_trip 0 round_trip_tree P).
Defined.

(** Witness of X1: the last two of three lines from index 0. *)
Lemma GetRange_window_witness :
  (0 < 2)%nat /\
  GetRange (AddAll (NewCircularBuffer 2) [10; 20; 30]%nat) 0 5 = [Some 20; Some 30]%nat.
Proof.
  split; [lia|].
  rewrite (GetRange_window 2 [10; 20; 30]%nat 0 5) by lia. reflexivity.
Defined.

(** Witness of X2. *)
Lemma GetLast_window_witness :
  (0 < 3)%nat /\
  GetLast (AddAll (NewCircularBuffer 3) [10; 20; 30; 40]%nat) 2 = [Some 30; Some 40]%nat.
Proof.
  split; [lia|].
  rewrite (GetLast_window 3 [10; 20; 30; 40]%nat 2) by lia. reflexivity.
Defined.

(** Witness of X3: the walk stops after the line [30]. *)
Lemma ForEach_visits_witness :
  (0 < 3)%nat /\
  ForEach (AddAll (NewCircularBuffer 3) [10; 20; 30; 40]%nat)
          (fun seen x => (seen ++ [x], match x with Some 30 => false | _ => true end))%list [] =
    [Some 20; Some 30]%nat.
Proof.
  split; [lia|].
  rewrite (ForEach_visits 3 [10; 20; 30; 40]%nat (fun x => match x with Some 30 => false | _ => true end))
    by lia.
  reflexivity.
Defined.

(** Witness of X5: the two [boom] lines are kept. *)
Lemma rebuildFilteredLines_spec_witness :
  (0 < 50)%nat /\
  allLinesBuffer nav_model = AddAll (NewCircularBuffer 50) nav_lines /\
  filteredBuffer nav_model = AddAll (NewCircularBuffer 50) [] /\
  filteredBuffer (rebuildFilteredLines nav_model) =
    AddAll (NewCircularBuffer 50) [emitted "boom"; emitted "boom e"].
Proof.
  assert (H1 : allLinesBuffer nav_model = AddAll (NewCircularBuffer 50) nav_lines)
    by (unfold nav_model; cbn [allLinesBuffer]; unfold nav_buffer; reflexivity).
  assert (H2 : filteredBuffer nav_model = AddAll (NewCircularBuffer 50) [])
    by (unfold nav_model; cbn [filteredBuffer]; reflexivity).
  split; [lia|]. split; [exact H1|]. split; [exact H2|].
  rewrite (rebuildFilteredLines_spec nav_model 50 50 nav_lines [] ltac:(lia) H1 H2).
  vm_compute. reflexivity.
Defined.

Lemma nav_buffer_size : Z.of_nat (Size nav_buffer) = 12%Z.
Proof. vm_compute. reflexivity. Qed.

Lemma nav_maxScroll : maxScroll nav_pane false nav_buffer = 7%Z.
Proof. vm_compute. reflexivity. Qed.

(** Witness of X8: the next-match key from the pane of [nav_pane]. *)
Lemma navigate_keeps_scroll_in_bounds_witness :
  (0 <= scrollY nav_pane <= maxScroll nav_pane false nav_buffer)%Z /\
  height (navigate boom_filter KeyNext nav_pane false nav_buffer) = height nav_pane /\
  (0 <= scrollY (navigate boom_filter KeyNext nav_pane false nav_buffer)
      <= maxScroll (navigate boom_filter KeyNext nav_pane false nav_buffer) false nav_buffer)%Z.
Proof.
  assert (H : (0 <= scrollY nav_pane <= maxScroll nav_pane false nav_buffer)%Z)
    by (rewrite nav_maxScroll; cbn; lia).
  split; [exact H|].
  exact (navigate_keeps_scroll_in_bounds boom_filter KeyNext nav_pane false nav_buffer H).
Defined.

(** Witness of X9: line 10 is shown on row 3 of the page. *)
Lemma scrollToLine_shows_line_witness :
  (0 <= 10 < Z.of_nat (Size nav_buffer))%Z /\
  (scrollY (scrollToLine nav_pane false nav_buffer 10) +
     cursorY (scrollToLine nav_pane false nav_buffer 10) = 10)%Z /\
  (0 <= cursorY (scrollToLine nav_pane false nav_buffer 10) <
     getContentHeight (scrollToLine nav_pane false nav_buffer 10) false)%Z /\
  (0 <= scrollY (scrollToLine nav_pane false nav_buffer 10) <=
     maxScroll (scrollToLine nav_pane false nav_buffer 10) false nav_buffer)%Z /\
  userScrolled (scrollToLine nav_pane false nav_buffer 10) = true.
Proof.
  assert (H : (0 <= 10 < Z.of_nat (Size nav_buffer))%Z) by (rewrite nav_buffer_size; lia).
  split; [exact H|].
  exact (scrollToLine_shows_line nav_pane false nav_buffer 10 H).
Defined.

(** Witness of X10. *)
Lemma goToBottom_shows_last_line_witness :
  (0 < Size nav_buffer)%nat /\
  (scrollY (goToBottom nav_pane false nav_buffer) +
     cursorY (goToBottom nav_pane false nav_buffer) = Z.of_nat (Size nav_buffer) - 1)%Z /\
  (0 <= cursorY (goToBottom nav_pane false nav_buffer) <
     getContentHeight (goToBottom nav_pane false nav_buffer) false)%Z /\
  scrollY (goToBottom nav_pane false nav_buffer) =
    maxScroll (goToBottom nav_pane false nav_buffer) false nav_buffer /\
  userScrolled (goToBottom nav_pane false nav_buffer) = false.
Proof.
  assert (H : (0 < Size nav_buffer)%nat) by (vm_compute; lia).
  split; [exact H|].
  exact (goToBottom_shows_last_line nav_pane false nav_buffer H).
Defined.

Lemma boom_filter_set : HasFilter boom_filter = true.
Proof. vm_compute. reflexivity. Qed.

Lemma nav_pos : (0 <= scrollY nav_pane + cursorY nav_pane < Z.of_nat (Size nav_buffer))%Z.
Proof. rewrite nav_buffer_size. cbn. lia. Qed.

(** Witness of X11: from line 2 the search finds line 4. *)
Lemma nextMatch_first_cyclic_witness :
  HasFilter boom_filter = true /\
  (0 <= scrollY nav_pane + cursorY nav_pane < Z.of_nat (Size nav_buffer))%Z /\
  ((exists i, (0 <= i < Z.of_nat (Size nav_buffer))%Z /\ lineMatches boom_filter nav_buffer i = true /\
     (forall j, (0 <= j < Z.of_nat (Size nav_buffer))%Z ->
        ((j - (scrollY nav_pane + cursorY nav_pane) - 1) mod Z.of_nat (Size nav_buffer) <
         (i - (scrollY nav_pane + cursorY nav_pane) - 1) mod Z.of_nat (Size nav_buffer))%Z ->
        lineMatches boom_filter nav_buffer j = false) /\
     nextMatch boom_filter nav_pane false nav_buffer = (scrollToLine nav_pane false nav_buffer i, None)) \/
   ((forall j, (0 <= j < Z.of_nat (Size nav_buffer))%Z -> lineMatches boom_filter nav_buffer j = false) /\
    nextMatch boom_filter nav_pane false nav_buffer = (nav_pane, Some "No more matches"))) /\
  fst (nextMatch boom_filter nav_pane false nav_buffer) = scrollToLine nav_pane false nav_buffer 4.
Proof.
  split; [exact boom_filter_set|]. split; [exact nav_pos|]. split.
  - exact (nextMatch_first_cyclic boom_filter nav_pane false nav_buffer boom_filter_set nav_pos).
  - vm_compute. reflexivity.
Defined.

(** Witness of X12: from line 2 the backward search finds line 1. *)
Lemma previousMatch_first_cyclic_witness :
  HasFilter boom_filter = true /\
  (0 <= scrollY nav_pane + cursorY nav_pane < Z.of_nat (Size nav_buffer))%Z /\
  ((exists i, (0 <= i < Z.of_nat (Size nav_buffer))%Z /\ lineMatches boom_filter nav_buffer i = true /\
     (forall j, (0 <= j < Z.of_nat (Size nav_buffer))%Z ->
        (((scrollY nav_pane + cursorY nav_pane) - 1 - j) mod Z.of_nat (Size nav_buffer) <
         ((scrollY nav_pane + cursorY nav_pane) - 1 - i) mod Z.of_nat (Size nav_buffer))%Z ->
        lineMatches boom_filter nav_buffer j = false) /\
     previousMatch boom_filter nav_pane false nav_buffer = (scrollToLine nav_pane false nav_buffer i, None)) \/
   ((forall j, (0 <= j < Z.of_nat (Size nav_buffer))%Z -> lineMatches boom_filter nav_buffer j = false) /\
    previousMatch boom_filter nav_pane false nav_buffer = (nav_pane, Some "No more matches"))) /\
  fst (previousMatch boom_filter nav_pane false nav_buffer) = scrollToLine nav_pane false nav_buffer 1.
Proof.
  split; [exact boom_filter_set|]. split; [exact nav_pos|]. split.
  - exact (previousMatch_first_cyclic boom_filter nav_pane false nav_buffer boom_filter_set nav_pos).
  - vm_compute. reflexivity.
Defined.

(** Witness of X13: a row with a comma, quotes and an empty field. *)
Lemma csvRecord_read_back_witness :
  csv_row <> [] /\ read_csv_record (csvRecord csv_row) = Some csv_row.
Proof.
  assert (H : csv_row <> []) by discriminate.
  split; [exact H|]. exact (csvRecord_read_back csv_row H).
Defined.

Lemma highlight_tokens_wf :
  forall t, In t highlight_tokens -> (tok_Start t < tok_End t)%Z.
Proof.
  intros t Ht. simpl in Ht.
  destruct Ht as [<- | [<- | [<- | []]]]; cbn; lia.
Qed.

(** Witness of X16: [ERR] inside [ERROR] is dropped. *)
Lemma removeOverlappingTokens_disjoint_witness :
  (forall t, In t highlight_tokens -> (tok_Start t < tok_End t)%Z) /\
  (ForallOrdPairs (fun a b => tok_End a <= tok_Start b \/ tok_End b <= tok_Start a)%Z
     (removeOverlappingTokens highlight_tokens) /\
   (forall k, In k (removeOverlappingTokens highlight_tokens) -> In k highlight_tokens) /\
   (forall t, In t highlight_tokens -> exists k, In k (removeOverlappingTokens highlight_tokens) /\
              (tok_Start t < tok_End k /\ tok_Start k < tok_End t)%Z)) /\
  removeOverlappingTokens highlight_tokens =
    [mkToken "ERROR" "level" 0 5; mkToken "db" "source" 7 9].
Proof.
  split; [exact highlight_tokens_wf|]. split.
  - exact (removeOverlappingTokens_disjoint highlight_tokens highlight_tokens_wf).
  - reflexivity.
Defined.

Lemma saved_queries_names : NoDup (map sq_Name saved_queries).
Proof.
  cbn. apply NoDup_cons; [intros [H|[]]; discriminate|].
  apply NoDup_cons; [intros []|]. apply NoDup_nil.
Qed.

(** Witness of X17: the query [db] is replaced. *)
Lemma AddSavedQuery_spec_witness :
  NoDup (map sq_Name saved_queries) /\
  (NoDup (map sq_Name (AddSavedQuery saved_queries db_query)) /\
   findSavedQuery (AddSavedQuery saved_queries db_query) (sq_Name db_query) = Some db_query /\
   (forall name, name <> sq_Name db_query ->
      findSavedQuery (AddSavedQuery saved_queries db_query) name = findSavedQuery saved_queries name)) /\
  length (AddSavedQuery saved_queries db_query) = 2%nat.
Proof.
  split; [exact saved_queries_names|]. split.
  - exact (AddSavedQuery_spec saved_queries db_query saved_queries_names).
  - reflexivity.
Defined.

(** Witness of X18. *)
Lemma RemoveSavedQuery_spec_witness :
  NoDup (map sq_Name saved_queries) /\
  NoDup (map sq_Name (RemoveSavedQuery saved_queries "errors")) /\
  findSavedQuery (RemoveSavedQuery saved_queries "errors") "errors" = None /\
  (forall other, other <> "errors" ->
     findSavedQuery (RemoveSavedQuery saved_queries "errors") other = findSavedQuery saved_queries other).
Proof.
  split; [exact saved_queries_names|].
  exact (RemoveSavedQuery_spec saved_queries "errors" saved_queries_names).
Defined.

(** Witness of X19. *)
Lemma RemoveSavedQuery_AddSavedQuery_witness :
  ~ In (sq_Name slow_query) (map sq_Name saved_queries) /\
  RemoveSavedQuery (AddSavedQuery saved_queries slow_query) (sq_Name slow_query) = saved_queries.
Proof.
  assert (H : ~ In (sq_Name slow_query) (map sq_Name saved_queries))
    by (cbn; intros [E|[E|[]]]; discriminate E).
  split; [exact H|]. exact (RemoveSavedQuery_AddSavedQuery saved_queries slow_query H).
Defined.

End Examples.
